(** * Shallow embedding of the battery planner of kostal-tibber

    This development models two source files of the add-on:
    - [core/consumption_learner.py]: the SQLite table [hourly_consumption]
      as a list of rows, the averaging queries of
      [get_average_consumption] and [get_hourly_profile], and the batch
      import [import_detailed_history];
    - [core/tibber_optimizer.py]: [plan_battery_schedule_rolling], the
      rolling-window planner (forecast collection, baseline simulation,
      deficit search, multi-peak economic charging, deficit-only fallback
      and the final SOC trajectory).

    Python floats are modelled by exact rationals [Q]; rounding is not
    modelled.  Logging is dropped.  Python's [min(a, b)] returns [a]
    unless [b < a], and [max(a, b)] returns [a] unless [b > a]; [qmin]
    and [qmax] below follow that. *)

From Stdlib Require Import QArith Qminmax Qround List Lia Bool ZArith Arith.
From Stdlib Require Import Qabs Lqa.
From Stdlib Require Import Sorting.Permutation Sorting.Sorted.
From Stdlib Require String Ascii.
Import ListNotations.

Open Scope Q_scope.

(** ** Python helpers *)

Definition qltb (a b : Q) : bool := negb (Qle_bool b a).

(** Python [min(a, b)] and [max(a, b)]. *)
Definition qmin (a b : Q) : Q := if qltb b a then b else a.
Definition qmax (a b : Q) : Q := if qltb a b then b else a.

Definition qsum (l : list Q) : Q := fold_left Qplus l 0.

(** [l[i]] of a list of floats; every index the planner reads is in
    range, so the default is never used. *)
Definition at_q (l : list Q) (i : nat) : Q := nth i l 0.

(** [l[i] = v]; the planner only writes in-range indices. *)
Fixpoint set_nth {A} (l : list A) (i : nat) (v : A) : list A :=
  match l, i with
  | [], _ => []
  | _ :: t, O => v :: t
  | x :: t, S i' => x :: set_nth t i' v
  end.

(** [range(a, b)] and [range(b - 1, a - 1, -1)] on naturals. *)
Definition range (a b : nat) : list nat := seq a (b - a).
Definition range_down (a b : nat) : list nat := rev (range a b).

(** A stable sort on a key (Python's [list.sort(key=...)]) by insertion:
    an element is placed before the first element whose key is not
    smaller, so equal keys keep their order. *)
Section StableSort.
  Context {A : Type} (key : A -> Q).

Fixpoint insert_by (x : A) (l : list A) : list A :=
  match l with
  | [] => [x]
  | y :: t => if Qle_bool (key x) (key y) then x :: y :: t else y :: insert_by x t
  end.

Fixpoint sort_by (l : list A) : list A :=
  match l with
  | [] => []
  | x :: t => insert_by x (sort_by t)
  end.
End StableSort.

(** ** The consumption store ([consumption_learner.py]) *)

Module Learner.

(** A row of [hourly_consumption].  The primary key [timestamp] is the
    ISO text of a local date, an hour and an optional UTC offset; the
    row keeps the date as [DATE(timestamp)] sees it (days since
    1970-01-01), the [hour] column, [consumption_kwh], [is_manual] and
    [created_at] (as a clock value). *)
Record Row := mkRow {
  r_date : Z;
  r_hour : nat;
  r_zone : option Z;
  r_kwh : Q;
  r_manual : bool;
  r_created : Z
}.

Record ConsumptionLearner := mkLearner {
  store : list Row;
  default_fallback : Q
}.

(** [strftime('%w', ...)]: 0 = Sunday; day 0 (1970-01-01) is a Thursday. *)
Definition weekday (d : Z) : Z := ((d + 4) mod 7)%Z.

(** The ordering of [ROW_NUMBER() OVER (PARTITION BY DATE(timestamp), hour
    ORDER BY is_manual ASC, created_at DESC)]: [row_better a b] when [a]
    comes strictly before [b]. *)
Definition row_better (a b : Row) : bool :=
  (negb (r_manual a) && r_manual b)
  || (Bool.eqb (r_manual a) (r_manual b) && (r_created b <? r_created a)%Z).

Definition same_partition (a b : Row) : bool :=
  (r_date a =? r_date b)%Z && (r_hour a =? r_hour b)%nat.

(** The row numbered 1 in the partition of [r]; SQLite leaves ties
    unordered, the model keeps the first of them in table order. *)
Definition best_of (all : list Row) (r : Row) : Row :=
  fold_left (fun b x => if same_partition x b && row_better x b then x else b) all r.

(** [... WHERE rn = 1]: one row per (date, hour) partition. *)
Fixpoint dedup_aux (all : list Row) (seen : list Row) (rows : list Row) : list Row :=
  match rows with
  | [] => []
  | r :: t =>
      if existsb (same_partition r) seen then dedup_aux all seen t
      else best_of all r :: dedup_aux all (r :: seen) t
  end.

Definition dedup (rows : list Row) : list Row := dedup_aux rows [] rows.

(** SQL [AVG]: [NULL] (here [None]) over no rows. *)
Definition sql_avg (l : list Q) : option Q :=
  match l with
  | [] => None
  | _ => Some (qsum l / inject_Z (Z.of_nat (length l)))
  end.

Definition weekday_ok (target : option Z) (r : Row) : bool :=
  match target with
  | Some d => (weekday (r_date r) =? weekday d)%Z
  | None => true
  end.

(** Python truthiness of the fetched [AVG]: [None] and [0.0] are false. *)
Definition truthy (v : option Q) : bool :=
  match v with
  | Some a => negb (Qeq_bool a 0)
  | None => false
  end.

(** [get_average_consumption(hour, target_date)]. *)
Definition get_average_consumption (lr : ConsumptionLearner) (hour : nat)
    (target_date : option Z) : Q :=
  let rows := filter (fun r => (r_hour r =? hour)%nat && weekday_ok target_date r)
                (store lr) in
  let result := sql_avg (map r_kwh (dedup rows)) in
  if truthy result then
    match result with Some a => a | None => default_fallback lr end
  else default_fallback lr.

(** Python dicts with integer keys, as association lists in insertion
    order. *)
Fixpoint lookup {V} (k : nat) (m : list (nat * V)) : option V :=
  match m with
  | [] => None
  | (k', v) :: t => if (k =? k')%nat then Some v else lookup k t
  end.

Definition max_hour (rows : list Row) : nat := fold_left (fun m r => Nat.max m (r_hour r)) rows 0%nat.

(** [GROUP BY hour ORDER BY hour]: the hours present, ascending. *)
Definition hours_present (rows : list Row) : list nat :=
  filter (fun h => existsb (fun r => (r_hour r =? h)%nat) rows) (seq 0 (S (max_hour rows))).

Definition hour_avg (rows : list Row) (h : nat) : Q :=
  match sql_avg (map r_kwh (filter (fun r => (r_hour r =? h)%nat) rows)) with
  | Some a => a
  | None => 0
  end.

(** [get_hourly_profile(target_date)]. *)
Definition get_hourly_profile (lr : ConsumptionLearner) (target_date : option Z)
    : list (nat * Q) :=
  let rows := dedup (filter (weekday_ok target_date) (store lr)) in
  let profile := map (fun h => (h, hour_avg rows h)) (hours_present rows) in
  match profile with
  | [] => map (fun h => (h, default_fallback lr)) (seq 0 24)
  | _ =>
      let avg_consumption := qsum (map snd profile) / inject_Z (Z.of_nat (length profile)) in
      fold_left (fun p h => match lookup h p with
                            | Some _ => p
                            | None => p ++ [(h, avg_consumption)]
                            end)
                (seq 0 24) profile
  end.

(** *** [import_detailed_history] *)

(** An entry of [daily_data]: [date] is [None] when the key is missing or
    its text does not parse; [hours] is [None] when the key is missing or
    is not a sized value; a value is [None] when [float(...)] raises. *)
Record DayEntry := mkDay {
  de_date : option Z;
  de_hours : option (list (option Q))
}.

Record ImportState := mkImport {
  im_store : list Row;
  im_imported : nat;
  im_skipped : nat
}.

Record ImportResult := mkResult {
  imported_hours : nat;
  skipped_days : nat;
  success : bool;
  result_store : list Row
}.

(** The value check: negative -> 0, above 50 -> 50. *)
Definition clamp_value (c : Q) : Q :=
  if qltb c 0 then 0 else if qltb 50 c then 50 else c.

Definition same_key (a b : Row) : bool :=
  (r_date a =? r_date b)%Z && (r_hour a =? r_hour b)%nat
  && match r_zone a, r_zone b with
     | Some x, Some y => (x =? y)%Z
     | None, None => true
     | _, _ => false
     end.

(** [INSERT OR REPLACE] on the primary key [timestamp]. *)
Definition insert_or_replace (st : list Row) (r : Row) : list Row :=
  filter (fun x => negb (same_key x r)) st ++ [r].

(** The loop [for hour in range(24)] of one day; [false] when
    [float(hours[hour])] raised, after the earlier hours were inserted
    (the connection is committed once, after the whole batch). *)
Fixpoint import_hours (now : Z) (date : Z) (hour : nat) (hs : list (option Q))
    (st : list Row) (n : nat) : list Row * nat * bool :=
  match hs with
  | [] => (st, n, true)
  | None :: _ => (st, n, false)
  | Some c :: t =>
      let row := mkRow date hour None (clamp_value c) true now in
      import_hours now date (S hour) t (insert_or_replace st row) (S n)
  end.

(** The body of [for day_entry in daily_data], with its [except]. *)
Definition import_day (now : Z) (s : ImportState) (d : DayEntry) : ImportState :=
  match de_date d, de_hours d with
  | Some date, Some hs =>
      if negb (length hs =? 24)%nat then
        mkImport (im_store s) (im_imported s) (S (im_skipped s))
      else
        match import_hours now date 0 hs (im_store s) (im_imported s) with
        | (st', n', true) => mkImport st' n' (im_skipped s)
        | (st', n', false) => mkImport st' n' (S (im_skipped s))
        end
  | _, _ => mkImport (im_store s) (im_imported s) (S (im_skipped s))
  end.

(** [import_detailed_history(daily_data)] up to its final
    [_cleanup_old_data()] (a separate retention pass). *)
Definition import_detailed_history (now : Z) (st : list Row) (daily_data : list DayEntry)
    : ImportResult :=
  let s := fold_left (import_day now) daily_data (mkImport st 0 0) in
  mkResult (im_imported s) (im_skipped s) (im_skipped s =? 0)%nat (im_store s).

End Learner.

(** ** The rolling planner ([tibber_optimizer.py]) *)

Module Planner.

Import Learner.

(** The configuration entries the planner reads:
    [battery_capacity] (kWh), [auto_safety_soc] and [auto_charge_below_soc]
    (after [int(...)]), [max_charge_power] (W). *)
Record Config := mkConfig {
  battery_capacity : Q;
  auto_safety_soc : Z;
  auto_charge_below_soc : Z;
  max_charge_power_w : Q
}.

(** A Tibber price entry: [startsAt] is missing or empty, unparseable,
    or a local (date, hour); [total] may be missing. *)
Inductive StartsAt :=
| NoStart
| BadStart
| StartsAtHour (date : Z) (hour : nat).

Record PriceEntry := mkPrice {
  startsAt : StartsAt;
  total : option Q
}.

(** An entry of [charging_windows] (its [reason] text is left out). *)
Record Window := mkWindow {
  w_hour : nat;
  w_charge_kwh : Q;
  w_price : Q
}.

Record Plan := mkPlan {
  hourly_soc : list Q;
  hourly_charging : list Q;
  hourly_pv : list Q;
  hourly_consumption : list Q;
  hourly_prices : list Q;
  charging_windows : list Window;
  min_soc_reached : Q;
  total_charging_kwh : Q
}.

Definition pct (z : Z) : Q := inject_Z z / 100.

(** *** Steps 1 and 2: forecasts *)

(** The price loop: the first entry whose start has the target's date and
    hour; [p.get('total', 0.30)]; [0.30] when none matches. *)
Fixpoint price_for (prices : list PriceEntry) (date : Z) (hour : nat) : Q :=
  match prices with
  | [] => 3 # 10
  | p :: t =>
      match startsAt p with
      | StartsAtHour d h =>
          if (d =? date)%Z && (h =? hour)%nat then
            match total p with Some v => v | None => 3 # 10 end
          else price_for t date hour
      | _ => price_for t date hour
      end
  end.

(** [pv_forecast_48h.get(pv_hour_index, 0.0) if pv_hour_index < 48 else 0.0]. *)
Definition pv_for (pv48 : list (nat * Q)) (idx : nat) : Q :=
  if (idx <? 48)%nat then match lookup idx pv48 with Some v => v | None => 0 end else 0.

Definition forecasts (lr : ConsumptionLearner) (pv48 : list (nat * Q))
    (prices : list PriceEntry) (today : Z) (now_hour : nat) (lookahead : nat)
    : list Q * list Q * list Q :=
  let hs := seq 0 lookahead in
  let cal i := (Z.of_nat ((now_hour + i) / 24), ((now_hour + i) mod 24)%nat) in
  (map (fun i => get_average_consumption lr (snd (cal i)) (Some (today + fst (cal i))%Z)) hs,
   map (fun i => pv_for pv48 (now_hour + i)) hs,
   map (fun i => price_for prices (today + fst (cal i))%Z (snd (cal i))) hs).

Section Core.

(** The planner after the forecasts are collected. *)
Variables (cfg : Config) (current_soc : Q) (L : nat)
          (pv cons pr : list Q).

Definition cap := battery_capacity cfg.
Definition min_soc := auto_safety_soc cfg.
Definition max_soc := auto_charge_below_soc cfg.
Definition max_charge_power := max_charge_power_w cfg / 1000.
Definition min_kwh := pct min_soc * cap.
Definition max_kwh := pct max_soc * cap.
Definition start_kwh := current_soc / 100 * cap.

(** The simulation loop shared by step 3 and step 5: from a kWh level, for
    each net energy, add it, cap at [max_kwh] when it is positive, then
    floor at [min_kwh]; the SOC in percent after each hour. *)
Fixpoint soc_after (soc_kwh : Q) (nets : list Q) : list Q :=
  match nets with
  | [] => []
  | n :: t =>
      let s1 := soc_kwh + n in
      let s2 := if qltb 0 n then qmin max_kwh s1 else s1 in
      let s3 := qmax min_kwh s2 in
      (s3 / cap * 100) :: soc_after s3 t
  end.

(** Step 3: [baseline_soc]. *)
Definition baseline_soc : list Q :=
  current_soc :: soc_after start_kwh
    (map (fun h => at_q pv h - at_q cons h) (range 0 (L - 1))).

Definition deficit_hours : list nat :=
  filter (fun h => Qle_bool (at_q baseline_soc h) (inject_Z (min_soc + 5))) (range 0 L).

(** Peak identification. *)
Definition avg_price : Q := qsum pr / inject_Z (Z.of_nat (length pr)).
Definition sorted_prices : list Q := sort_by (fun x => x) pr.
(** [int(len(sorted_prices) * 0.6)]; equal to [3 n / 5] for every list
    length the planner can see. *)
Definition top_40_index : nat := (length sorted_prices * 3 / 5)%nat.
Definition price_threshold : Q :=
  qmax (avg_price * (21 # 20)) (at_q sorted_prices top_40_index).

Definition expensive_hours : list nat :=
  filter (fun h => Qle_bool price_threshold (at_q pr h)) (range 0 L).

(** Grouping into peaks: a gap above 3 hours starts a new peak; [cur]
    holds the current peak reversed. *)
Fixpoint group_from (cur : list nat) (prev : nat) (hs : list nat) : list (list nat) :=
  match hs with
  | [] => [rev cur]
  | h :: t =>
      if (3 <? Z.of_nat h - Z.of_nat prev)%Z then rev cur :: group_from [h] h t
      else group_from (h :: cur) h t
  end.

Definition group_peaks (hs : list nat) : list (list nat) :=
  match hs with
  | [] => []
  | h :: t => group_from [h] h t
  end.

Definition peaks : list (list nat) := group_peaks expensive_hours.

(** *** Step 4: multi-peak economic charging *)

(** An entry of [available_hours]: (hour, price). *)
Definition slot : Type := (nat * Q)%type.
Definition sort_slots (l : list slot) : list slot := sort_by snd l.

(** [hourly_charging[h] == 0 and baseline_soc[h] < max_soc - 2]. *)
Definition eligible (hc : list Q) (h : nat) : bool :=
  Qeq_bool (at_q hc h) 0 && qltb (at_q baseline_soc h) (inject_Z (max_soc - 2)).

Definition target_lowest_kwh : Q := pct (min_soc + 15) * cap.

(** [soc_at_jit_start_kwh] for a JIT start [j]: the unclamped sum of the
    hours before [j], then clamped to [[min_kwh, max_kwh]]. *)
Definition soc_at (hc : list Q) (j : nat) : Q :=
  qmax min_kwh (qmin max_kwh
    (start_kwh + qsum (map (fun h => at_q pv h + at_q hc h - at_q cons h) (range 0 j)))).

(** First hour of [range(search_start, peak_start)] whose baseline is below
    the target (the loop breaks at [lookahead_hours]). *)
Fixpoint first_low (hs : list nat) : option nat :=
  match hs with
  | [] => None
  | h :: t =>
      if (L <=? h)%nat then None
      else if qltb (at_q baseline_soc h / 100 * cap) target_lowest_kwh then Some h
      else first_low t
  end.

Definition jit_start0 (ss ps : nat) : nat :=
  let j := match first_low (range ss ps) with
           | Some h => Z.of_nat h
           | None => Z.max (Z.of_nat ss) (Z.of_nat ps - 4)
           end in
  let j := Z.min j (Z.of_nat ps - 3) in
  Z.to_nat (Z.max (Z.of_nat ss) j).

Definition energy_during_peak (ps pe : nat) : Q :=
  qsum (filter (qltb 0)
          (map (fun h => at_q cons h - at_q pv h)
               (filter (fun h => (h <? L)%nat) (range ps (S pe))))).

(** [temp_charge_allocation]: newest assignment first, so [lookup] sees
    the last write of the dict. *)
Fixpoint alloc (rem : Q) (av : list slot) (acc : list (nat * Q)) : list (nat * Q) * Q :=
  match av with
  | [] => (acc, rem)
  | (h, _) :: t =>
      if Qle_bool rem 0 then (acc, rem)
      else let c := qmin rem max_charge_power in alloc (rem - c) t ((h, c) :: acc)
  end.

Definition temp_get (m : list (nat * Q)) (h : nat) : Q :=
  match lookup h m with Some v => v | None => 0 end.

(** The simulation from the JIT start to the peak end: (lowest, its hour). *)
Fixpoint simulate (hc : list Q) (temp : list (nat * Q)) (hs : list nat)
    (sim low : Q) (lowh : nat) : Q * nat :=
  match hs with
  | [] => (low, lowh)
  | h :: t =>
      let net := at_q pv h + at_q hc h + temp_get temp h - at_q cons h in
      let s := qmax min_kwh (qmin max_kwh (sim + net)) in
      if qltb s low then simulate hc temp t s s h else simulate hc temp t s low lowh
  end.

(** The window expansion when the lowest point is at the JIT start: the
    length test runs after every hour, added or not. *)
Fixpoint expand_at_jit (hc : list Q) (hs : list nat) (av : list slot) (found : bool)
    : list slot * bool :=
  match hs with
  | [] => (av, found)
  | h :: t =>
      let '(av', found') := if eligible hc h then (av ++ [(h, at_q pr h)], true)
                            else (av, found) in
      if (10 <=? length av')%nat then (av', found') else expand_at_jit hc t av' found'
  end.

(** The expansion of the first iteration when hours ran out. *)
Fixpoint expand_short (hc : list Q) (rem : Q) (hs : list nat) (av : list slot) : list slot :=
  match hs with
  | [] => av
  | h :: t =>
      if Qle_bool rem 0 then av
      else expand_short hc rem t
             (if eligible hc h then sort_slots (av ++ [(h, at_q pr h)]) else av)
  end.

Record IterSt := mkIter {
  av : list slot;
  jit : nat;
  soc_j : Q;
  wexp : bool;
  req : Q
}.

Inductive Flow := Next (s : IterSt) | Stop (s : IterSt).

(** One pass of [for iteration in range(max_iterations)]. *)
Definition iter_body (hc : list Q) (ss pe : nat) (it : nat) (s : IterSt) : Flow :=
  let '(temp, rem) := alloc (req s) (av s) [] in
  let '(low, lowh) :=
    simulate hc temp (range (jit s) (Nat.min (S pe) L)) (soc_j s) (soc_j s) (jit s) in
  if (lowh =? jit s)%nat && Qle_bool low (min_kwh + (1 # 2)) && negb (wexp s) then
    let '(av1, found) := expand_at_jit hc (range_down ss (jit s)) (av s) false in
    if found then
      let av2 := sort_slots av1 in
      match av2 with
      | [] => Next (mkIter av2 (jit s) (soc_j s) true (req s))
      | x :: t =>
          let j := fold_left (fun m y => Nat.min m (fst y)) t (fst x) in
          Next (mkIter av2 j (soc_at hc j) true (req s))
      end
    else Stop (mkIter av1 (jit s) (soc_j s) true (req s))
  else if Qle_bool (target_lowest_kwh - (1 # 10)) low then Stop s
  else
    let av1 := if qltb (1 # 10) rem && (it =? 0)%nat
               then expand_short hc rem (range_down ss (jit s)) (av s) else av s in
    Next (mkIter av1 (jit s) (soc_j s) (wexp s)
            (req s + (target_lowest_kwh - low) * (11 # 10))).

Fixpoint iterate (hc : list Q) (ss pe : nat) (fuel it : nat) (s : IterSt) : IterSt :=
  match fuel with
  | O => s
  | S f =>
      match iter_body hc ss pe it s with
      | Next s' => iterate hc ss pe f (S it) s'
      | Stop s' => s'
      end
  end.

(** Step 6: apply the final plan over the sorted slots. *)
Fixpoint apply_slots (ps : nat) (ini : Q) (slots : list slot) (rem : Q)
    (hc : list Q) (wins : list Window) : list Q * list Window :=
  match slots with
  | [] => (hc, wins)
  | (h, p) :: t =>
      if Qle_bool rem (1 # 10) then (hc, wins)
      else if qltb (5 # 2) (at_q pv h) && (Z.abs (Z.of_nat h - Z.of_nat ps) <=? 4)%Z
      then apply_slots ps ini t rem hc wins
      else if qltb (285 # 10) (p * 100) && qltb (ini * (6 # 10)) (ini - rem)
      then (hc, wins)
      else
        let c := qmin rem max_charge_power in
        apply_slots ps ini t (rem - c) (set_nth hc h c) (wins ++ [mkWindow h c p])
  end.

(** The body of [for peak_idx, peak in enumerate(peaks)]; [None] stands
    for the [ZeroDivisionError] of its log lines (capacity 0, or a charge
    power of 0 in [math.ceil(required_charge_kwh / max_charge_power)]). *)
Definition plan_peak (ss : nat) (peak : list nat) (st : list Q * list Window)
    : option (list Q * list Window) :=
  let '(hc, wins) := st in
  if Qeq_bool cap 0 then None else
  let ps := hd 0%nat peak in
  let pe := last peak 0%nat in
  let j0 := jit_start0 ss ps in
  let av0 := sort_slots (map (fun h => (h, at_q pr h))
               (filter (fun h => (h <? L)%nat && eligible hc h) (range j0 ps))) in
  let s := iterate hc ss pe 5 0
             (mkIter av0 j0 (soc_at hc j0) false (energy_during_peak ps pe * (3 # 2))) in
  if qltb (1 # 2) (req s) && negb (match av s with [] => true | _ => false end) then
    if Qeq_bool max_charge_power 0 then None
    else Some (apply_slots ps (req s) (av s) (req s) hc wins)
  else Some (hc, wins).

Fixpoint plan_peaks (prev_end : option nat) (pks : list (list nat))
    (st : list Q * list Window) : option (list Q * list Window) :=
  match pks with
  | [] => Some st
  | pk :: t =>
      let ss := match prev_end with None => 0%nat | Some e => S e end in
      match plan_peak ss pk st with
      | Some st' => plan_peaks (Some (last pk 0%nat)) t st'
      | None => None
      end
  end.

(** The deficit-only fallback. *)
Definition fallback_required (fdh : nat) : Q :=
  fst (fold_left (fun acc h =>
                    let '(mx, cum) := acc in
                    let cum' := cum + (at_q pv h - at_q cons h) in
                    let deficit := qmax 0 (pct (min_soc + 10) * cap - (start_kwh + cum')) in
                    (qmax mx deficit, cum'))
                 (range fdh L) (0, 0)).

Fixpoint charge_fallback (slots : list slot) (rem : Q) (hc : list Q) (wins : list Window)
    : list Q * list Window :=
  match slots with
  | [] => (hc, wins)
  | (h, p) :: t =>
      if Qle_bool rem 0 then (hc, wins)
      else
        let c := qmin rem max_charge_power in
        charge_fallback t (rem - c) (set_nth hc h c) (wins ++ [mkWindow h c p])
  end.

Definition charging_plan : option (list Q * list Window) :=
  let hc0 := repeat 0 L in
  match peaks, deficit_hours with
  | _ :: _, _ :: _ => plan_peaks None peaks (hc0, [])
  | _, fdh :: _ =>
      Some (charge_fallback (sort_slots (map (fun h => (h, at_q pr h)) (range 0 fdh)))
              (fallback_required fdh) hc0 [])
  | _, [] => Some (hc0, [])
  end.

(** *** Step 5: the final trajectory *)

Definition final_soc (hc : list Q) : list Q :=
  current_soc :: soc_after start_kwh
    (map (fun h => at_q pv h + at_q hc h - at_q cons h) (range 0 (L - 1))).

Definition list_min (l : list Q) : Q :=
  match l with [] => 0 | x :: t => fold_left qmin t x end.

(** Steps 3 to 5; [None] when they raise (caught by the [except]). *)
Definition plan_core : option Plan :=
  if Qeq_bool cap 0 && (2 <=? L)%nat then None else
  match charging_plan with
  | None => None
  | Some (hc, wins) =>
      let fs := final_soc hc in
      Some (mkPlan fs hc pv cons pr wins (list_min fs) (qsum hc))
  end.

End Core.

(** [plan_battery_schedule_rolling(ha_client, config, current_soc, prices,
    lookahead_hours)].  The collaborators are the consumption learner
    ([None] when none is set), the 48-hour PV dict returned by
    [get_hourly_pv_forecast] (which returns [{}] when no data is
    available) and the price list; [today] and [now_hour] are the local
    date and hour of [now].  With [lookahead_hours = 0] the forecast log
    line divides by [len(hourly_consumption) = 0] and the [except] returns
    [None]. *)
Definition plan_battery_schedule_rolling (learner : option ConsumptionLearner)
    (pv48 : list (nat * Q)) (cfg : Config) (current_soc : Q)
    (prices : list PriceEntry) (today : Z) (now_hour : nat) (lookahead_hours : nat)
    : option Plan :=
  match learner with
  | None => None
  | Some lr =>
      if (lookahead_hours =? 0)%nat then None
      else
        let '(c, p, r) := forecasts lr pv48 prices today now_hour lookahead_hours in
        plan_core cfg current_soc lookahead_hours p c r
  end.

End Planner.

(** ** The other operations of [tibber_optimizer.py] *)

Module Optimizer.

Import Learner Planner.

(** A Python call that either returns a value or raises out of the
    function. *)
Inductive Outcome (A : Type) : Type :=
| Returns (a : A)
| Raises.
Arguments Returns {A} a.
Arguments Raises {A}.

Definition get_or {A} (o : option A) (d : A) : A :=
  match o with Some v => v | None => d end.

(** The attributes of [TibberOptimizer]: [__init__] reads
    [tibber_price_threshold_1h] and [tibber_price_threshold_3h] (percent,
    default 8) and [charge_duration_per_10_percent] (minutes, default
    18); the learner is set later by [set_consumption_learner]. *)
Record TibberOptimizer := mkOptimizer {
  threshold_1h : Q;
  threshold_3h : Q;
  charge_duration_per_10 : Q;
  consumption_learner : option ConsumptionLearner
}.

Definition init_optimizer (th1 th3 dur : option Q) : TibberOptimizer :=
  mkOptimizer (get_or th1 8 / 100) (get_or th3 8 / 100) (get_or dur 18) None.

Definition set_consumption_learner (o : TibberOptimizer) (lr : option ConsumptionLearner)
    : TibberOptimizer :=
  mkOptimizer (threshold_1h o) (threshold_3h o) (charge_duration_per_10 o) lr.

(** *** [calculate_charge_start_time]; times in minutes *)

Definition calculate_charge_start_time (o : TibberOptimizer)
    (charge_end current_soc target_soc : Q) : Q :=
  let soc_diff := target_soc - current_soc in
  if Qle_bool soc_diff 0 then charge_end
  else
    let charge_duration_minutes := soc_diff / 10 * charge_duration_per_10 o in
    charge_end - charge_duration_minutes.

(** *** [find_optimal_charge_end_time] *)









(** *** [predict_short_term_deficit] *)

(** [pv_forecast] is the dict returned by [get_hourly_pv_forecast]
    (hour of the day to kWh); [today] and [current_hour] are the local
    date and hour of [now]. The reason text is dropped. *)
Definition predict_short_term_deficit (o : TibberOptimizer) (pv_forecast : list (nat * Q))
    (today : Z) (current_hour : nat) (lookahead_hours : nat) : bool * Q :=
  match consumption_learner o with
  | None => (false, 0)
  | Some lr =>
      match pv_forecast with
      | [] => (false, 0)
      | _ =>
          let step (acc : Q * Q) (i : nat) :=
            let future_hour := ((current_hour + i) mod 24)%nat in
            let future_date := (today + Z.of_nat ((current_hour + i) / 24))%Z in
            (fst acc + get_average_consumption lr future_hour (Some future_date),
             snd acc + get_or (lookup future_hour pv_forecast) 0) in
          let totals := fold_left step (range 0 lookahead_hours) (0, 0) in
          let deficit := fst totals - snd totals in
          (qltb (1 # 2) deficit, qmax 0 deficit)
      end
  end.

(** *** [ConsumptionLearner.predict_consumption_until] *)

(** The loop [while position.hour != target_hour] from the absolute
    hour [position] (hours since day 0 in the offset of [start]); the
    loop has no bound of its own, [fuel] counts its iterations and
    [None] means they ran out. *)
Fixpoint hours_until (lr : ConsumptionLearner) (target_hour : Z) (total : Q)
    (position : Z) (fuel : nat) : option Q :=
  match fuel with
  | O => None
  | S f =>
      if (position mod 24 =? target_hour)%Z then Some total
      else hours_until lr target_hour
             (total + get_average_consumption lr (Z.to_nat (position mod 24))
                        (Some (position / 24)%Z))
             (position + 1) f
  end.

(** The value the loop adds at the absolute hour [position]. *)
Definition hour_value (lr : ConsumptionLearner) (position : Z) : Q :=
  get_average_consumption lr (Z.to_nat (position mod 24)) (Some (position / 24)%Z).

(** [predict_consumption_until(target_hour, start)] with [start] the
    [(date, hour, minute)] of [start_datetime]. *)
Definition predict_consumption_until_fuel (lr : ConsumptionLearner) (target_hour : Z)
    (start : Z * nat * nat) (fuel : nat) : option Q :=
  let '(current_date, current_hour, current_minute) := start in
  let remaining_fraction := (60 - inject_Z (Z.of_nat current_minute)) / 60 in
  let total := 0 + get_average_consumption lr current_hour (Some current_date)
                   * remaining_fraction in
  hours_until lr target_hour total (current_date * 24 + Z.of_nat current_hour + 1)%Z fuel.

(** *** [predict_energy_deficit] *)

(** [start] is [(date, hour, minute)] of [now]. *)
Definition predict_energy_deficit (o : TibberOptimizer) (start : Z * nat * nat)
    (pv_remaining : Q) (current_hour : option nat) : option (bool * Q) :=
  match consumption_learner o with
  | None => Some (qltb pv_remaining 5, qmax 0 (5 - pv_remaining))
  | Some lr =>
      let current_hour := get_or current_hour (snd (fst start)) in
      let target_hour := if (18 <=? current_hour)%nat then 23%Z else 18%Z in
      match predict_consumption_until_fuel lr target_hour start 24 with
      | None => None
      | Some predicted_consumption =>
          let deficit := predicted_consumption - pv_remaining in
          Some (qltb (1 # 2) deficit, qmax 0 deficit)
      end
  end.

(** *** [get_hourly_pv_forecast] *)

(** An entry of a sensor's [wh_hours]: the (date, hour) of its key as
    [fromisoformat] reads it ([None] when it raises ValueError) and its
    value in Wh ([None] when [float] raises). *)
Record WhEntry := mkWh {
  wh_time : option (Z * nat);
  wh_value : option Q
}.

(** [ha_client.get_attributes(sensor)]: raises, returns a falsy value,
    a dict without [wh_hours], or the [wh_hours] entries. *)
Inductive Attrs :=
| AttrsRaise
| AttrsEmpty
| AttrsNoWh
| AttrsWh (entries : list WhEntry).

(** [d[k] = d.get(k, 0.0) + x] on a dict with integer keys. *)
Fixpoint dict_set (k : nat) (v : Q) (d : list (nat * Q)) : list (nat * Q) :=
  match d with
  | [] => [(k, v)]
  | (k', v') :: t => if (k =? k')%nat then (k', v) :: t else (k', v') :: dict_set k v t
  end.

Definition add_kwh (d : list (nat * Q)) (h : nat) (kwh : Q) : list (nat * Q) :=
  dict_set h (get_or (lookup h d) 0 + kwh) d.

Definition add_entry (day : Z) (offset : nat) (d : list (nat * Q)) (e : WhEntry)
    : list (nat * Q) :=
  match wh_time e with
  | None => d
  | Some (date, hour) =>
      if negb (date =? day)%Z then d
      else
        match wh_value e with
        | None => d
        | Some w => add_kwh d (hour + offset) (w / 1000)
        end
  end.

(** One sensor of a [for roof_sensor in [...]] loop; a falsy name is
    [None]. *)
Definition add_sensor (ha : String.string -> Attrs) (day : Z) (offset : nat)
    (acc : Outcome (list (nat * Q))) (sensor : option String.string) : Outcome (list (nat * Q)) :=
  match acc with
  | Raises => Raises
  | Returns d =>
      match sensor with
      | None => Returns d
      | Some s =>
          match ha s with
          | AttrsRaise => Raises
          | AttrsEmpty | AttrsNoWh => Returns d
          | AttrsWh es => Returns (fold_left (add_entry day offset) es d)
          end
      end
  end.

Record PvConfig := mkPvConfig {
  enable_forecast_solar_api : bool;
  planes_configured : bool;
  pv_production_today_roof1 : option String.string;
  pv_production_today_roof2 : option String.string;
  pv_production_tomorrow_roof1 : option String.string;
  pv_production_tomorrow_roof2 : option String.string
}.

(** [api] is [None] without a Forecast.Solar client; otherwise the
    result of its [get_hourly_forecast] ([Raises] when it raises). *)
Definition get_hourly_pv_forecast (api : option (Outcome (list (nat * Q))))
    (ha : String.string -> Attrs) (config : PvConfig) (today : Z) (include_tomorrow : bool)
    : list (nat * Q) :=
  let from_api :=
    match api with
    | Some r =>
        if enable_forecast_solar_api config && planes_configured config then
          match r with Returns ((_ :: _) as f) => Some f | _ => None end
        else None
    | None => None
    end in
  match from_api with
  | Some f => f
  | None =>
      let r1 := pv_production_today_roof1 config in
      let r2 := pv_production_today_roof2 config in
      let t1 := if include_tomorrow then pv_production_tomorrow_roof1 config else None in
      let t2 := if include_tomorrow then pv_production_tomorrow_roof2 config else None in
      match r1, r2 with
      | None, None => []
      | _, _ =>
          let today_part := fold_left (add_sensor ha today 0) [r1; r2] (Returns []) in
          let all := if include_tomorrow
                     then fold_left (add_sensor ha (today + 1)%Z 24) [t1; t2] today_part
                     else today_part in
          match all with Returns d => d | Raises => [] end
      end
  end.

(** The kWh an entry of [wh_hours] adds to hour [k] of the dict, and the
    kWh a sensor adds (its entries summed); whether reading a sensor's
    attributes raises. *)
Definition entry_kwh (day : Z) (offset : nat) (k : nat) (e : WhEntry) : Q :=
  match wh_time e with
  | None => 0
  | Some (date, hour) =>
      if (date =? day)%Z then
        match wh_value e with
        | Some w => if (k =? hour + offset)%nat then w / 1000 else 0
        | None => 0
        end
      else 0
  end.

Definition sensor_kwh (ha : String.string -> Attrs) (day : Z) (offset : nat) (k : nat)
    (sensor : option String.string) : Q :=
  match sensor with
  | None => 0
  | Some s => match ha s with AttrsWh es => qsum (map (entry_kwh day offset k) es) | _ => 0 end
  end.

Definition sensor_raises (ha : String.string -> Attrs) (sensor : option String.string) : bool :=
  match sensor with
  | None => false
  | Some s => match ha s with AttrsRaise => true | _ => false end
  end.

End Optimizer.

(** ** The other operations of [consumption_learner.py] *)

Module LearnerOps.

Import Learner Planner Optimizer.

(** *** [get_today_consumption] *)

(** [SELECT hour, consumption_kwh ... WHERE DATE(timestamp) = ? ORDER BY
    created_at DESC]: SQLite leaves rows with equal [created_at] in no
    particular order; the model keeps table order. *)
Definition get_today_consumption (lr : ConsumptionLearner) (date : Z) : list (nat * Q) :=
  let rows := filter (fun r => (r_date r =? date)%Z) (store lr) in
  let ordered := sort_by (fun r => - inject_Z (r_created r)) rows in
  fold_left (fun d r => match lookup (r_hour r) d with
                        | Some _ => d
                        | None => d ++ [(r_hour r, r_kwh r)]
                        end) ordered [].

(** *** [add_manual_profile] *)

Definition digit (n : nat) : Ascii.ascii := Ascii.ascii_of_nat (48 + n).

(** [str(hour)] for [hour < 100]. *)
Definition str_hour (h : nat) : String.string :=
  if (h <? 10)%nat then String.String (digit h) String.EmptyString
  else String.String (digit (h / 10)) (String.String (digit (h mod 10)) String.EmptyString).

(** A dict with text keys; a value is [None] when [float] raises on it. *)
Fixpoint lookup_str {V} (k : String.string) (m : list (String.string * V)) : option V :=
  match m with
  | [] => None
  | (k', v) :: t => if String.eqb k k' then Some v else lookup_str k t
  end.

Definition manual_value (profile : list (String.string * option Q)) (hour : nat) : option Q :=
  match lookup_str (str_hour hour) profile with
  | None => Some (2 # 10)
  | Some v => v
  end.

Fixpoint manual_hours (profile : list (String.string * option Q)) (now : Z) (date : Z)
    (hours : list nat) (st : list Row) : option (list Row) :=
  match hours with
  | [] => Some st
  | h :: t =>
      match manual_value profile h with
      | None => None
      | Some c => manual_hours profile now date t (insert_or_replace st (mkRow date h None c true now))
      end
  end.

Fixpoint manual_days (profile : list (String.string * option Q)) (now : Z) (start : Z)
    (days : list nat) (st : list Row) : option (list Row) :=
  match days with
  | [] => Some st
  | d :: t =>
      match manual_hours profile now (start + Z.of_nat d)%Z (range 0 24) st with
      | None => None
      | Some st' => manual_days profile now start t st'
      end
  end.

(** [add_manual_profile(profile)] with the learner's [learning_days],
    the local date [today] of the naive [datetime.now()] and the
    [created_at] clock [now]. [None]: [float] raised, and leaving the
    [with] block rolled the inserts back. *)
Definition add_manual_profile (lr : ConsumptionLearner) (learning_days : nat)
    (today now : Z) (profile : list (String.string * option Q)) : option ConsumptionLearner :=
  match manual_days profile now (today - Z.of_nat learning_days)%Z
          (range 0 learning_days) (store lr) with
  | None => None
  | Some st => Some (mkLearner st (default_fallback lr))
  end.

(** *** [import_from_csv] *)

(** The [datum] cell: empty or missing, not in either date format, or a
    date. *)
Inductive CsvDate :=
| DateMissing
| DateInvalid
| DateParsed (d : Z).

(** A row of [csv.DictReader]; [csv_cells] holds the cells [h0], [h1],
    ...: [None] for a missing column, [Some None] for a cell [float]
    refuses (after [,] is replaced by [.]). *)
Record CsvRow := mkCsvRow {
  csv_date : CsvDate;
  csv_cells : list (option (option Q))
}.

(** [for h in range(24)] with its two [break]s. *)
Fixpoint csv_hours (cells : list (option (option Q))) (hs : list nat) : list Q :=
  match hs with
  | [] => []
  | h :: t =>
      match nth h cells None with
      | Some (Some v) => v :: csv_hours cells t
      | _ => []
      end
  end.

Definition csv_day (r : CsvRow) : option DayEntry :=
  match csv_date r with
  | DateParsed d =>
      let hours := csv_hours (csv_cells r) (range 0 24) in
      if negb (length hours =? 24)%nat then None
      else Some (mkDay (Some d) (Some (map Some hours)))
  | _ => None
  end.

Record CsvResult := mkCsvResult {
  csv_success : bool;
  csv_imported_hours : nat;
  csv_imported_days : nat;
  csv_skipped_days : nat;
  csv_store : list Row
}.

Fixpoint csv_days (rows : list CsvRow) : list DayEntry :=
  match rows with
  | [] => []
  | r :: t => match csv_day r with Some d => d :: csv_days t | None => csv_days t end
  end.

(** [import_from_csv(csv_content)] for the rows [csv.DictReader] yields. *)
Definition import_from_csv (now : Z) (st : list Row) (rows : list CsvRow) : CsvResult :=
  let daily_data := csv_days rows in
  match daily_data with
  | [] => mkCsvResult false 0 0 0 st
  | _ =>
      let result := import_detailed_history now st daily_data in
      mkCsvResult (success result) (imported_hours result) (length daily_data)
        (skipped_days result) (result_store result)
  end.

End LearnerOps.

(** ** The table maintenance of [consumption_learner.py] *)

Module StoreOps.

Import Learner.

(** [_cleanup_old_data()]: [DELETE ... WHERE timestamp < cutoff]; [older r]
    is the comparison of the text of [r]'s [timestamp] with
    [(datetime.now() - timedelta(days=learning_days)).isoformat()]. *)
Definition cleanup_old_data (older : Row -> bool) (st : list Row) : list Row :=
  filter (fun r => negb (older r)) st.

(** [record_consumption(timestamp, consumption_kwh)]: [date], [hour] and
    [zone] are those of [timestamp] rounded down to the hour, [now] the
    [created_at] clock; the table after the call. *)
Definition record_consumption (older : Row -> bool) (st : list Row)
    (date : Z) (hour : nat) (zone : option Z) (consumption_kwh : Q) (now : Z) : list Row :=
  if qltb consumption_kwh 0 then st
  else if qltb 100 consumption_kwh then st
  else
    let row := mkRow date hour zone consumption_kwh false now in
    cleanup_old_data older (insert_or_replace st row).


Definition clear_all_data (st : list Row) : nat * list Row := (length st, []).

(** [get_statistics()] without [oldest_record] and [newest_record] (the
    text [MIN]/[MAX] of the timestamps); [SUM] over no rows is [NULL]
    ([None]); [round(..., 1)] is not modelled. *)
Record Statistics := mkStatistics {
  total_records : nat;
  manual_records : option nat;
  learned_records : option nat;
  learning_progress : Q
}.

Definition sql_sum_count (f : Row -> bool) (st : list Row) : option nat :=
  match st with
  | [] => None
  | _ => Some (length (filter f st))
  end.

(** Python's [round(x)] on the exact value: to the nearest integer,
    ties to the even one. *)
Definition round_half_even (q : Q) : Z :=
  let f := Qfloor q in
  let d := q - inject_Z f in
  if qltb d (1#2) then f
  else if qltb (1#2) d then (f + 1)%Z
  else if Z.even f then f else (f + 1)%Z.

(** [round(x, 1)]. *)
Definition py_round1 (q : Q) : Q := inject_Z (round_half_even (q * 10)) / 10.

Definition get_statistics (st : list Row) : Statistics :=
  let total := length st in
  let manual := sql_sum_count (fun r => r_manual r) st in
  let learned := sql_sum_count (fun r => negb (r_manual r)) st in
  let progress :=
    if (0 <? total)%nat then
      match learned with
      | Some l => inject_Z (Z.of_nat l) / inject_Z (Z.of_nat total) * 100
      | None => 0
      end
    else 0 in
  mkStatistics total manual learned (py_round1 progress).

End StoreOps.

(** ** The 48-hour daily planner ([tibber_optimizer.py],
    [plan_daily_battery_schedule]) *)

Module Daily.

Import Learner Planner.

Section DailyCore.

(** The planner after the 48 hourly forecasts are collected: index [h]
    is hour [h] of today for [h < 24] and hour [h - 24] of tomorrow;
    [ch] is [now.hour]. *)
Variables (cfg : Config) (current_soc : Q) (ch : nat)
          (pv cons pr : list Q).

(** [max(min_kwh, min(max_kwh, x))]. *)
Definition d_clamp (x : Q) : Q := qmax (min_kwh cfg) (qmin (max_kwh cfg) x).

(** The midnight estimate: subtract each past hour's net energy from the
    current level, clamp, and fall back to 70 % of the capacity when the
    estimate is more than 50 points away from the current SOC. *)
Definition midnight_kwh (net : nat -> Q) : Q :=
  let s0 := fold_left (fun s h => s - net h) (range 0 ch) (start_kwh cfg current_soc) in
  let s1 := d_clamp s0 in
  let est := s1 / cap cfg * 100 in
  if qltb 50 (Qabs (est - current_soc)) then 70 / 100 * cap cfg else s1.

(** Past hours: record the SOC at the start of the hour, then add the
    hour's net energy and clamp. *)
Fixpoint past_soc (net : nat -> Q) (s : Q) (hs : list nat) : list Q :=
  match hs with
  | [] => []
  | h :: t => s / cap cfg * 100 :: past_soc net (d_clamp (s + net h)) t
  end.

(** Future hours: add the previous hour's net energy, clamp, record. *)
Fixpoint future_soc (net : nat -> Q) (s : Q) (hs : list nat) : list Q :=
  match hs with
  | [] => []
  | h :: t =>
      let s' := d_clamp (s + net (h - 1)%nat) in
      s' / cap cfg * 100 :: future_soc net s' t
  end.

(** [baseline_soc] and [final_soc]: the past hours from the midnight
    estimate, [current_soc] at the current hour, the future hours from
    the current level. *)
Definition soc_series (net : nat -> Q) : list Q :=
  past_soc net (midnight_kwh net) (range 0 ch) ++
  current_soc :: future_soc net (start_kwh cfg current_soc) (range (ch + 1)%nat 48).

Definition baseline_net (h : nat) : Q := at_q pv h - at_q cons h.

Definition baseline_soc : list Q := soc_series baseline_net.

(** Step 3: [deficit_hours] as (hour, deficit_kwh). *)
Definition deficit_hours : list (nat * Q) :=
  flat_map (fun h =>
    if Qle_bool (at_q baseline_soc h) (inject_Z (min_soc cfg + 5)%Z) then
      [(h, qmax 0 (pct (min_soc cfg + 10)%Z * cap cfg - at_q baseline_soc h / 100 * cap cfg))]
    else [])
    (range ch 48).

(** Step 4: one deficit; the hours from [ch] up to it with no charge yet,
    cheapest first, filled as in the fallback loop. *)
Definition deficit_step (st : list Q * list Window) (d : nat * Q) : list Q * list Window :=
  let '(hc, wins) := st in
  let '(dh, needed) := d in
  if qltb needed (1 # 2) then (hc, wins)
  else
    let av := sort_slots (map (fun h => (h, at_q pr h))
                (filter (fun h => Qeq_bool (at_q hc h) 0) (range ch dh))) in
    charge_fallback cfg av needed hc wins.

(** [hourly_pv[h] + hourly_charging[h] - hourly_consumption[h]]. *)
Definition net_with (hc : list Q) (h : nat) : Q := at_q pv h + at_q hc h - at_q cons h.

(** The SOC of step 4b at the charge hour: from the current level over
    [range(current_hour, hour + 1)], clamped to [0, max_kwh]. *)
Definition temp_soc_kwh (hc : list Q) (hour : nat) : Q :=
  fold_left (fun t h => qmax 0 (qmin (max_kwh cfg) (t + net_with hc h)))
    (range ch (hour + 1)%nat) (start_kwh cfg current_soc).

(** The first hour of [hs] satisfying [f], or [dflt]. *)
Fixpoint first_hour (f : nat -> bool) (hs : list nat) (dflt : nat) : nat :=
  match hs with
  | [] => dflt
  | h :: t => if f h then h else first_hour f t dflt
  end.

(** The deficit simulation of step 4b: from [sim] over [hs], adding the
    shortfall below [min_kwh] and lifting back to it, then capping. *)
Fixpoint sim_deficit (hc : list Q) (sim deficit : Q) (hs : list nat) : Q :=
  match hs with
  | [] => deficit
  | h :: t =>
      let s1 := sim + net_with hc h in
      let '(s2, d2) := if qltb s1 (min_kwh cfg) then (min_kwh cfg, deficit + (min_kwh cfg - s1))
                       else (s1, deficit) in
      sim_deficit hc (qmin (max_kwh cfg) s2) d2 t
  end.

(** Step 4b at one hour. *)
Definition economic_step (st : list Q * list Window) (hour : nat) : list Q * list Window :=
  let '(hc, wins) := st in
  if qltb 0 (at_q hc hour) then (hc, wins)
  else
    let temp := temp_soc_kwh hc hour in
    let soc_at_hour := temp / cap cfg * 100 in
    let avail := (inject_Z (max_soc cfg) - soc_at_hour) / 100 * cap cfg in
    if qltb avail (1 # 2) then (hc, wins)
    else
      let cost := at_q pr hour in
      if Qle_bool cost 0 then
        let c := qmin avail (max_charge_power cfg) in
        (set_nth hc hour c, wins ++ [mkWindow hour c cost])
      else
        let fe := filter (fun f => qltb (cost * (11 # 10)) (at_q pr f)) (range (hour + 1)%nat 48) in
        match fe with
        | [] => (hc, wins)
        | _ :: _ =>
            let avg := qsum (map (at_q pr) fe) / inject_Z (Z.of_nat (length fe)) in
            if qltb (cost * (11 # 10)) avg then
              let t0 := first_hour (fun f => qltb (at_q pr f) (cost * (98 # 100)))
                          (range (hour + 1)%nat 48) 48 in
              let t1 := first_hour (fun f => Qle_bool (at_q cons f * (8 # 10)) (at_q pv f))
                          (range (hour + 1)%nat (Nat.min t0 48)) t0 in
              let target := Nat.min t1 (fold_left Nat.max fe 0%nat) in
              let deficit := sim_deficit hc temp 0 (range hour target) in
              let optimal :=
                if qltb deficit (1 # 2) then
                  let est := qsum (map (fun h => at_q cons h - at_q pv h)
                               (filter (fun h => qltb (at_q pv h) (at_q cons h)) fe)) in
                  qmax 1 (qmin (est * (1 # 2)) (max_charge_power cfg))
                else deficit * (115 # 100) in
              let c := qmin (qmin optimal avail) (max_charge_power cfg) in
              (set_nth hc hour c, wins ++ [mkWindow hour c cost])
            else (hc, wins)
        end.

Definition daily_charging : list Q * list Window :=
  let st := fold_left deficit_step deficit_hours (repeat 0 48, []) in
  fold_left economic_step (range (ch + 1)%nat 48) st.

(** Steps 2 to 6; [None] when they raise: a zero capacity fails at the
    first division by it, an hour past the 48 list entries at
    [baseline_soc[current_hour]]. *)
Definition daily_core : option Plan :=
  if Qeq_bool (cap cfg) 0 then None
  else if (48 <=? ch)%nat then None
  else
    let '(hc, wins) := daily_charging in
    let fs := soc_series (net_with hc) in
    Some (mkPlan fs hc pv cons pr wins (list_min (skipn ch fs)) (qsum hc)).

End DailyCore.

(** [plan_daily_battery_schedule(ha_client, config, current_soc, prices)]:
    the forecasts are those of [forecasts] for the 48 hours from
    midnight of [today] ([get_average_consumption(actual_hour,
    target_date=actual_date)], [pv_forecast.get(hour, 0.0)] and the
    price loop); [pv48] is the dict of [get_hourly_pv_forecast(...,
    include_tomorrow=True)] and [current_hour] the hour of [now]. *)
Definition plan_daily_battery_schedule (learner : option ConsumptionLearner)
    (pv48 : list (nat * Q)) (cfg : Config) (current_soc : Q)
    (prices : list PriceEntry) (today : Z) (current_hour : nat) : option Plan :=
  match learner with
  | None => None
  | Some lr =>
      let '(c, p, r) := forecasts lr pv48 prices today 0 48 in
      daily_core cfg current_soc current_hour p c r
  end.

End Daily.

(** ** The Forecast.Solar client ([forecast_solar_api.py],
    [ForecastSolarAPI.get_hourly_forecast]) *)

Module SolarApi.

Import Learner Optimizer.

(** An entry of a plane's [result] dict: a key shorter than 10
    characters (filtered out), a timestamp or value that [strptime] or
    [float] rejects (skipped), or a parsed timestamp (date, hour) with
    its cumulative Wh value. *)
Inductive WattEntry :=
| WShortKey
| WUnparsable
| WAt (date : Z) (hour : nat) (wh : Q).

(** The reply for one plane: a status other than 200, a JSON body
    without [result], or the [result] entries. *)
Inductive PlaneResponse :=
| HttpError
| NoResultKey
| WattHours (entries : list WattEntry).

(** [plane_cumulative_<day>[hour] = kwh] over the entries of that day. *)
Definition collect_day (day : Z) (es : list WattEntry) : list (nat * Q) :=
  fold_left (fun d e =>
    match e with
    | WAt dt h wh => if (dt =? day)%Z then dict_set h (wh / 1000) d else d
    | _ => d
    end) es [].

(** [sorted(plane_cumulative.keys())]. *)
Definition sorted_keys (d : list (nat * Q)) : list nat :=
  sort_by (fun h => inject_Z (Z.of_nat h)) (map fst d).

Definition cum_at (d : list (nat * Q)) (h : nat) : Q := get_or (lookup h d) 0.

(** The deltas after the first hour: [max(0.0, cum[hour] - cum[prev])]. *)
Fixpoint deltas_from (d : list (nat * Q)) (prev : nat) (hs : list nat) : list (nat * Q) :=
  match hs with
  | [] => []
  | h :: t => (h, qmax 0 (cum_at d h - cum_at d prev)) :: deltas_from d h t
  end.

(** The cumulative values of a day as hourly deltas, in hour order; the
    first hour keeps its cumulative value. *)
Definition cumulative_to_hourly (d : list (nat * Q)) : list (nat * Q) :=
  match sorted_keys d with
  | [] => []
  | h0 :: t => (h0, cum_at d h0) :: deltas_from d h0 t
  end.

(** [hourly_forecast[hour + offset] = hourly_forecast.get(hour + offset,
    0.0) + hourly_delta] for each delta. *)
Definition add_deltas (offset : nat) (acc : list (nat * Q)) (ds : list (nat * Q)) : list (nat * Q) :=
  fold_left (fun a hd => add_kwh a (fst hd + offset)%nat (snd hd)) ds acc.

(** One plane of the loop; a failed or malformed reply adds nothing.
    Tomorrow's entries are only collected with [include_tomorrow]. *)
Definition add_plane (include_tomorrow : bool) (today : Z) (acc : list (nat * Q))
    (r : PlaneResponse) : list (nat * Q) :=
  match r with
  | WattHours es =>
      let a1 := add_deltas 0 acc (cumulative_to_hourly (collect_day today es)) in
      if include_tomorrow
      then add_deltas 24 a1 (cumulative_to_hourly (collect_day (today + 1) es))
      else a1
  | _ => acc
  end.

(** The plane loop; [Raises] for a plane whose request raises or whose
    dict lacks a key. *)
Fixpoint fetch_planes (include_tomorrow : bool) (today : Z)
    (planes : list (Outcome PlaneResponse)) (acc : list (nat * Q)) : Outcome (list (nat * Q)) :=
  match planes with
  | [] => Returns acc
  | Raises :: _ => Raises
  | Returns r :: t => fetch_planes include_tomorrow today t (add_plane include_tomorrow today acc r)
  end.

(** [get_hourly_forecast(planes, include_tomorrow)]: [cached] is the
    cached dict when the cache is valid and holds this key; an
    exception returns [{}]. *)
Definition get_hourly_forecast (cached : option (list (nat * Q))) (include_tomorrow : bool)
    (today : Z) (planes : list (Outcome PlaneResponse)) : list (nat * Q) :=
  match cached with
  | Some c => c
  | None =>
      match fetch_planes include_tomorrow today planes [] with
      | Returns f => f
      | Raises => []
      end
  end.

End SolarApi.

(** ** Statements of the specification

    Definitions written from the specification's words, compared below
    with the definitions embedding the source. *)

Module Spec.

Import Learner Planner.

(** The step of the SOC trajectory in percent: add
    [(pv + charging - consumption) / capacity * 100], cap at [max_soc]
    only when the net energy is positive, then floor at [min_soc]. *)
Definition soc_step_pct (cfg : Config) (prev net : Q) : Q :=
  let x := prev + net / battery_capacity cfg * 100 in
  let y := if qltb 0 net then qmin (inject_Z (max_soc cfg)) x else x in
  qmax (inject_Z (min_soc cfg)) y.

(** Arithmetic mean of a list of values. *)
Definition mean (l : list Q) : Q := qsum l / inject_Z (Z.of_nat (length l)).

(** Two successive expensive hours are at most 3 hours apart. *)
Definition close_hours (a b : nat) : Prop := (Z.of_nat b - Z.of_nat a <= 3)%Z.

(** Two successive peaks are separated by a gap greater than 3 hours. *)
Definition apart_peaks (c1 c2 : list nat) : Prop :=
  (3 < Z.of_nat (hd 0%nat c2) - Z.of_nat (last c1 0%nat))%Z.

Definition is_some {A} (o : option A) : bool := match o with Some _ => true | None => false end.

(** A day of an import batch that is stored: date and hours present,
    exactly 24 values, each convertible to a number. *)
Definition day_accepted (d : DayEntry) : bool :=
  match de_date d, de_hours d with
  | Some _, Some hs => (length hs =? 24)%nat && forallb is_some hs
  | _, _ => false
  end.

Fixpoint convertible_prefix (hs : list (option Q)) : nat :=
  match hs with
  | Some _ :: t => S (convertible_prefix t)
  | _ => 0%nat
  end.

(** Rows a day inserts: none unless it has a date and 24 values; else the
    values up to the first one that is not a number. *)
Definition hours_inserted (d : DayEntry) : nat :=
  match de_date d, de_hours d with
  | Some _, Some hs => if (length hs =? 24)%nat then convertible_prefix hs else 0%nat
  | _, _ => 0%nat
  end.

End Spec.

(** ** Concrete inputs *)

Module Inputs.

Import Learner Planner.

(** 2024-10-04 as days since 1970-01-01. *)
Definition today : Z := 20000%Z.

(** One learned row per hour of [date], from hour 0. *)
Definition rows_for (date : Z) (kwhs : list Q) : list Row :=
  map (fun hk => mkRow date (fst hk) None (snd hk) false 0%Z) (combine (seq 0 (length kwhs)) kwhs).

Definition learner_for (kwhs : list Q) : ConsumptionLearner :=
  mkLearner (rows_for today kwhs) 1.

(** A PV dict [{0: v0, 1: v1, ...}]. *)
Definition pv48_of (vs : list Q) : list (nat * Q) := combine (seq 0 (length vs)) vs.

(** Tibber entries for today's hours, from hour 0. *)
Definition prices_of (ps : list Q) : list PriceEntry :=
  map (fun hp => mkPrice (StartsAtHour today (fst hp)) (Some (snd hp)))
      (combine (seq 0 (length ps)) ps).

(** The plan of a [Some], a placeholder otherwise. *)
Definition the_plan (o : option Plan) : Plan :=
  match o with Some p => p | None => mkPlan [] [] [] [] [] [] 0 0 end.

Definition tenths (l : list Z) : list Q := map (fun z => z # 10) l.
Definition kwh (l : list Z) : list Q := map inject_Z l.

(** A sunny day: 10.6 kWh battery at 80 %, 2 kWh of PV and 1 kWh of
    consumption per hour, planned for 6 hours from 08:00. *)
Definition sunny_cfg : Config := mkConfig (106 # 10) 20 95 3900.
Definition sunny_plan : option Plan :=
  plan_battery_schedule_rolling (Some (learner_for (repeat 1 24)))
    (pv48_of (repeat 2 24)) sunny_cfg 80 (prices_of (repeat (3 # 10) 24)) today 8 6.

(** A 24-hour window from 00:00 with two price peaks. *)
Definition peak_cfg : Config := mkConfig 10 20 90 3000.
Definition peak_pv : list Q :=
  kwh [2; 1; 0; 2; 0; 1; 0; 2; 1; 0; 0; 1; 0; 1; 0; 2; 0; 1; 1; 0; 0; 0; 0; 0]%Z.
Definition peak_cons : list Q :=
  kwh [3; 1; 1; 3; 1; 3; 2; 3; 3; 1; 2; 2; 1; 1; 1; 3; 2; 1; 1; 1; 1; 3; 1; 2]%Z.
Definition peak_prices : list Q :=
  tenths [1; 1; 2; 3; 2; 1; 5; 5; 8; 8; 5; 3; 1; 2; 3; 8; 2; 5; 2; 8; 3; 8; 3; 8]%Z.
Definition peak_plan : option Plan :=
  plan_battery_schedule_rolling (Some (learner_for peak_cons)) (pv48_of peak_pv)
    peak_cfg 50 (prices_of peak_prices) today 0 24.

(** Below the safety SOC at the start: 10 % with [auto_safety_soc = 20]. *)
Definition low_start_plan : option Plan :=
  plan_battery_schedule_rolling (Some (learner_for (repeat 1 24))) (pv48_of [])
    peak_cfg 10 [] today 0 24.

(** Above the charge limit at the start: 100 % with
    [auto_charge_below_soc = 90], 0.5 kWh/h of consumption. *)
Definition full_start_plan : option Plan :=
  plan_battery_schedule_rolling (Some (learner_for (repeat (1 # 2) 24))) (pv48_of [])
    peak_cfg 100 [] today 0 24.

(** One imported sample of 0 kWh at 03:00 today (a negative import value
    is stored as 0), default fallback 1.0 kWh/h. *)
Definition zero_sample_learner : ConsumptionLearner :=
  mkLearner [mkRow today 3 None 0 true 0%Z] 1.

(** Two samples of today: 2 kWh at 03:00 and 1 kWh at 05:00. *)
Definition profile_row3 : Row := mkRow today 3 None 2 false 0.
Definition profile_row5 : Row := mkRow today 5 None 1 false 0.
Definition profile_learner : ConsumptionLearner :=
  mkLearner [profile_row3; profile_row5] 1.

(** An import batch: a day with 23 values, then a day with 24 values
    starting with -1 kWh and 60 kWh. *)
Definition short_day : DayEntry := mkDay (Some today) (Some (repeat (Some 1) 23)).
Definition next_day : Z := (today + 1)%Z.
Definition outlier_day : DayEntry :=
  mkDay (Some next_day) (Some (Some (-1) :: Some 60 :: repeat (Some 1) 22)).


(** Two readings of 03:00 today, the later one (created at 5) of
    4 kWh, and one of 05:00. *)
Definition latest_learner : ConsumptionLearner :=
  mkLearner [mkRow today 3 None 2 false 0; mkRow today 5 None 1 false 0;
             mkRow today 3 (Some 0%Z) 4 false 5] 1.

(** A manual profile with 1 kWh at [3] and a key [07] that
    [str(hour)] never produces. *)
Definition manual_profile_07 : list (String.string * option Q) :=
  [(LearnerOps.str_hour 3, Some 1);
   (String.String (LearnerOps.digit 0) (LearnerOps.str_hour 7), Some 5)].

(** A CSV export: a complete day, a day with [h23] missing and a row
    whose [datum] does not parse. *)
Definition csv_rows : list LearnerOps.CsvRow :=
  [LearnerOps.mkCsvRow (LearnerOps.DateParsed today) (repeat (Some (Some 1)) 24);
   LearnerOps.mkCsvRow (LearnerOps.DateParsed next_day) (repeat (Some (Some 1)) 23);
   LearnerOps.mkCsvRow LearnerOps.DateInvalid (repeat (Some (Some 1)) 24)].

(** Two PV sensors for today: roof 1 with 1000 Wh and 500 Wh at 13:00
    today and 700 Wh at 13:00 tomorrow, roof 2 with 300 Wh at 14:00;
    the tomorrow sensor of roof 1 raises. *)
Definition pv_sensors (s : String.string) : Optimizer.Attrs :=
  if String.eqb s (LearnerOps.str_hour 1) then
    Optimizer.AttrsWh [Optimizer.mkWh (Some (today, 13%nat)) (Some 1000);
                       Optimizer.mkWh (Some (today, 13%nat)) (Some 500);
                       Optimizer.mkWh (Some (next_day, 13%nat)) (Some 700)]
  else if String.eqb s (LearnerOps.str_hour 2) then
    Optimizer.AttrsWh [Optimizer.mkWh (Some (today, 14%nat)) (Some 300)]
  else Optimizer.AttrsRaise.

Definition pv_config : Optimizer.PvConfig :=
  Optimizer.mkPvConfig false false (Some (LearnerOps.str_hour 1)) (Some (LearnerOps.str_hour 2))
    (Some (LearnerOps.str_hour 3)) None.

(** Two rows of 03:00 today: a learned one, then a manual one created
    later. *)
Definition dup_rows : list Row :=
  [mkRow today 3 None 2 false 0; mkRow today 3 (Some 0%Z) 4 true 5].

(** The rows of [dup_rows] as a learner. *)
Definition dedup_learner : ConsumptionLearner := mkLearner dup_rows 1.

(** A 48-hour daily plan at 05:00 from 50 %, over the peak day's
    forecasts with the price list repeated (tomorrow's entries do not
    match, so tomorrow uses 0.30). *)
Definition daily_plan : option Plan :=
  Daily.plan_daily_battery_schedule (Some (learner_for peak_cons)) (pv48_of peak_pv)
    peak_cfg 50 (prices_of (peak_prices ++ peak_prices)) today 5.

(** Two Forecast.Solar planes: one with cumulative Wh values for today
    (hours 6 to 8, the value at 8 below the one at 7, an entry at 07:30
    overriding 07:00) and tomorrow, one whose request fails with an
    HTTP error. *)
Definition solar_planes : list (Optimizer.Outcome SolarApi.PlaneResponse) :=
  [Optimizer.Returns (SolarApi.WattHours
     [SolarApi.WAt today 6 200; SolarApi.WAt today 7 500; SolarApi.WShortKey;
      SolarApi.WAt today 7 600; SolarApi.WAt today 8 550; SolarApi.WUnparsable;
      SolarApi.WAt next_day 9 300]);
   Optimizer.Returns SolarApi.HttpError].

End Inputs.

(** ** Proofs *)

Module Facts.

Import Learner Planner Spec.

(** *** Python [min]/[max] on rationals *)

Lemma qltb_true a b : qltb a b = true <-> a < b.
Proof.
  unfold qltb. rewrite negb_true_iff. split; intro H.
  - apply Qnot_le_lt. intro H'. apply Qle_bool_iff in H'. congruence.
  - destruct (Qle_bool b a) eqn:E; auto.
    apply Qle_bool_iff in E. exfalso. exact (Qlt_not_le _ _ H E).
Qed.

Lemma qltb_false a b : qltb a b = false <-> b <= a.
Proof.
  unfold qltb. rewrite negb_false_iff. apply Qle_bool_iff.
Qed.

Lemma qmax_cases a b : (a < b /\ qmax a b = b) \/ (b <= a /\ qmax a b = a).
Proof.
  unfold qmax. destruct (qltb a b) eqn:E.
  - left. apply qltb_true in E. auto.
  - right. apply qltb_false in E. auto.
Qed.

Lemma qmin_cases a b : (b < a /\ qmin a b = b) \/ (a <= b /\ qmin a b = a).
Proof.
  unfold qmin. destruct (qltb b a) eqn:E.
  - left. apply qltb_true in E. auto.
  - right. apply qltb_false in E. auto.
Qed.

Lemma qmax_ge_l a b : a <= qmax a b.
Proof.
  destruct (qmax_cases a b) as [[H ->]|[H ->]]; [apply Qlt_le_weak; exact H | apply Qle_refl].
Qed.

Lemma qmax_ge_r a b : b <= qmax a b.
Proof.
  destruct (qmax_cases a b) as [[H ->]|[H ->]]; [apply Qle_refl | exact H].
Qed.

Lemma qmax_lub a b c : a <= c -> b <= c -> qmax a b <= c.
Proof. intros. destruct (qmax_cases a b) as [[_ ->]|[_ ->]]; auto. Qed.

Lemma qmin_le_l a b : qmin a b <= a.
Proof.
  destruct (qmin_cases a b) as [[H ->]|[H ->]]; [apply Qlt_le_weak; exact H | apply Qle_refl].
Qed.

Lemma qmin_le_r a b : qmin a b <= b.
Proof.
  destruct (qmin_cases a b) as [[H ->]|[H ->]]; [apply Qle_refl | exact H].
Qed.

Lemma qmin_glb a b c : c <= a -> c <= b -> c <= qmin a b.
Proof. intros. destruct (qmin_cases a b) as [[_ ->]|[_ ->]]; auto. Qed.

(** A charge [min(remaining, max_charge_power)] with both positive. *)
Lemma charge_bounds rem m : 0 < rem -> 0 < m -> 0 <= qmin rem m /\ qmin rem m <= m.
Proof.
  intros Hr Hm. split.
  - apply qmin_glb; apply Qlt_le_weak; assumption.
  - apply qmin_le_r.
Qed.

(** *** Lists *)

Lemma filter_none {A} (f : A -> bool) (l : list A) :
  (forall x, In x l -> f x = false) -> filter f l = [].
Proof.
  induction l as [|x t IH]; simpl; intros H; auto.
  rewrite (H x (or_introl eq_refl)). apply IH. intros y Hy. apply H. auto.
Qed.

Lemma in_range a b x : In x (range a b) <-> (a <= x < b)%nat.
Proof. unfold range. rewrite in_seq. lia. Qed.

Lemma Forall_set_nth {A} (P : A -> Prop) (l : list A) i v :
  Forall P l -> P v -> Forall P (set_nth l i v).
Proof.
  revert i. induction l as [|x t IH]; intros [|i] Hl Hv; simpl; auto;
    inversion Hl; subst; constructor; auto.
Qed.

Lemma length_set_nth {A} (l : list A) i v : length (set_nth l i v) = length l.
Proof.
  revert i. induction l as [|x t IH]; intros [|i]; simpl; auto.
Qed.

(** *** The shape of a returned plan *)

Lemma plan_core_inv cfg cur L pv cons pr p :
  plan_core cfg cur L pv cons pr = Some p ->
  exists hc wins, charging_plan cfg cur L pv cons pr = Some (hc, wins) /\
    p = mkPlan (final_soc cfg cur L pv cons hc) hc pv cons pr wins
               (list_min (final_soc cfg cur L pv cons hc)) (qsum hc).
Proof.
  unfold plan_core.
  destruct (Qeq_bool (cap cfg) 0 && (2 <=? L)%nat); [discriminate|].
  destruct (charging_plan cfg cur L pv cons pr) as [[hc wins]|]; [|discriminate].
  intros H. injection H as <-. eauto.
Qed.

Lemma plan_inv lrO pv48 cfg cur prices today nh L p :
  plan_battery_schedule_rolling lrO pv48 cfg cur prices today nh L = Some p ->
  (L <> 0)%nat /\
  plan_core cfg cur L (hourly_pv p) (hourly_consumption p) (hourly_prices p) = Some p.
Proof.
  unfold plan_battery_schedule_rolling.
  destruct lrO as [lr|]; [|discriminate].
  destruct (L =? 0)%nat eqn:EL; [discriminate|].
  destruct (forecasts lr pv48 prices today nh L) as [[c pv] r].
  intros H. split; [apply Nat.eqb_neq; exact EL|].
  pose proof H as H'. apply plan_core_inv in H'.
  destruct H' as (hc & wins & _ & ->). simpl. exact H.
Qed.

(** *** No deficit, no charging *)

Lemma deficit_hours_nil cfg cur L pv cons :
  (forall i, (i < L)%nat -> inject_Z (min_soc cfg + 5) < at_q (baseline_soc cfg cur L pv cons) i) ->
  deficit_hours cfg cur L pv cons = [].
Proof.
  intros H. unfold deficit_hours. apply filter_none.
  intros h Hh. apply in_range in Hh.
  destruct (Qle_bool _ _) eqn:E; auto.
  apply Qle_bool_iff in E. exfalso.
  exact (Qlt_not_le _ _ (H h (proj2 Hh)) E).
Qed.

Lemma charging_plan_no_deficit cfg cur L pv cons pr :
  deficit_hours cfg cur L pv cons = [] ->
  charging_plan cfg cur L pv cons pr = Some (repeat 0 L, []).
Proof.
  intros Hd. unfold charging_plan. rewrite Hd.
  destruct (peaks L pr); reflexivity.
Qed.

Lemma at_q_repeat_zero L i : at_q (repeat 0 L) i = 0.
Proof. unfold at_q. apply nth_repeat. Qed.

(** *** Charge bounds *)

Section ChargeBounds.

Variables (cfg : Config) (cur : Q) (L : nat) (pv cons pr : list Q).
Hypothesis Hmcp : 0 < max_charge_power cfg.

Definition charge_ok (x : Q) : Prop := 0 <= x /\ x <= max_charge_power cfg.

Lemma apply_slots_ok ps ini slots rem hc wins :
  Forall charge_ok hc ->
  Forall charge_ok (fst (apply_slots cfg pv ps ini slots rem hc wins)).
Proof.
  revert rem hc wins. induction slots as [|[h p] t IH]; intros rem hc wins Hhc; simpl; auto.
  destruct (Qle_bool rem (1 # 10)) eqn:E1; simpl; auto.
  destruct (_ && _); auto.
  destruct (_ && _); simpl; auto.
  apply IH. apply Forall_set_nth; auto.
  apply charge_bounds; auto.
  apply Qnot_le_lt. intro Hle.
  assert (Hle' : rem <= 1 # 10) by (apply Qle_trans with 0; [exact Hle | discriminate]).
  apply Qle_bool_iff in Hle'. congruence.
Qed.

Lemma charge_fallback_ok slots rem hc wins :
  Forall charge_ok hc ->
  Forall charge_ok (fst (charge_fallback cfg slots rem hc wins)).
Proof.
  revert rem hc wins. induction slots as [|[h p] t IH]; intros rem hc wins Hhc; simpl; auto.
  destruct (Qle_bool rem 0) eqn:E1; simpl; auto.
  apply IH. apply Forall_set_nth; auto.
  apply charge_bounds; auto.
  apply Qnot_le_lt. intro Hle. apply Qle_bool_iff in Hle. congruence.
Qed.

Lemma plan_peak_ok ss pk hc wins hc' wins' :
  plan_peak cfg cur L pv cons pr ss pk (hc, wins) = Some (hc', wins') ->
  Forall charge_ok hc -> Forall charge_ok hc'.
Proof.
  unfold plan_peak.
  destruct (Qeq_bool (cap cfg) 0); [discriminate|].
  match goal with |- context [ if ?c then _ else Some (hc, wins) ] => destruct c end.
  - destruct (Qeq_bool (max_charge_power cfg) 0); [discriminate|].
    intros H Hhc. injection H as H.
    match type of H with ?x = (hc', wins') =>
      replace hc' with (fst x) by (rewrite H; reflexivity) end.
    apply apply_slots_ok; auto.
  - intros H Hhc. injection H as <- <-. exact Hhc.
Qed.

Lemma plan_peaks_ok prev pks hc wins hc' wins' :
  plan_peaks cfg cur L pv cons pr prev pks (hc, wins) = Some (hc', wins') ->
  Forall charge_ok hc -> Forall charge_ok hc'.
Proof.
  revert prev hc wins. induction pks as [|pk t IH]; intros prev hc wins; cbn [plan_peaks].
  - intros H. injection H as <- <-. auto.
  - match goal with |- context [ plan_peak ?a ?b ?c ?d ?e ?f ?g pk (hc, wins) ] =>
      destruct (plan_peak a b c d e f g pk (hc, wins)) as [[hc1 wins1]|] eqn:E end;
      [|discriminate].
    intros H Hhc. apply (IH _ _ _ H). eapply plan_peak_ok; eauto.
Qed.

Lemma charging_plan_ok hc wins :
  charging_plan cfg cur L pv cons pr = Some (hc, wins) -> Forall charge_ok hc.
Proof.
  assert (H0 : Forall charge_ok (repeat 0 L)).
  { apply Forall_forall. intros x Hx. apply repeat_spec in Hx. subst.
    split; [apply Qle_refl | apply Qlt_le_weak; exact Hmcp]. }
  unfold charging_plan.
  destruct (peaks L pr) as [|pk pks]; destruct (deficit_hours cfg cur L pv cons) as [|fdh ds].
  - intros H. injection H as <- <-. exact H0.
  - intros H. injection H as H.
    match type of H with ?x = (hc, wins) =>
      replace hc with (fst x) by (rewrite H; reflexivity) end.
    apply charge_fallback_ok; exact H0.
  - intros H. injection H as <- <-. exact H0.
  - intros H. eapply plan_peaks_ok; eauto.
Qed.

Lemma at_q_charge_ok hc i : Forall charge_ok hc -> charge_ok (at_q hc i).
Proof.
  intros H. unfold at_q. destruct (Nat.lt_ge_cases i (length hc)) as [Hi|Hi].
  - rewrite Forall_forall in H. apply H. apply nth_In. exact Hi.
  - rewrite nth_overflow by exact Hi.
    split; [apply Qle_refl | apply Qlt_le_weak; exact Hmcp].
Qed.

End ChargeBounds.

Lemma forallb_range_lt (f : nat -> bool) L :
  forallb f (range 0 L) = true -> forall i, (i < L)%nat -> f i = true.
Proof.
  intros H i Hi. rewrite forallb_forall in H. apply H. apply in_range. lia.
Qed.

Lemma plan_fields lrO pv48 cfg cur prices today nh L p :
  plan_battery_schedule_rolling lrO pv48 cfg cur prices today nh L = Some p ->
  (L <> 0)%nat /\
  charging_plan cfg cur L (hourly_pv p) (hourly_consumption p) (hourly_prices p)
    = Some (hourly_charging p, charging_windows p) /\
  hourly_soc p = final_soc cfg cur L (hourly_pv p) (hourly_consumption p) (hourly_charging p) /\
  total_charging_kwh p = qsum (hourly_charging p).
Proof.
  intros H. destruct (plan_inv _ _ _ _ _ _ _ _ _ H) as [HL Hc].
  destruct (plan_core_inv _ _ _ _ _ _ _ Hc) as (hc & wins & Hcp & Hp).
  assert (E1 : hourly_charging p = hc) by (rewrite Hp; reflexivity).
  assert (E2 : charging_windows p = wins) by (rewrite Hp; reflexivity).
  rewrite E1, E2. repeat split; auto.
  - rewrite Hp at 1. reflexivity.
  - rewrite Hp at 1. reflexivity.
Qed.

(** *** The SOC trajectory in percent *)

Lemma qltb_compat a a' b b' : a == a' -> b == b' -> qltb a b = qltb a' b'.
Proof.
  intros Ha Hb. destruct (qltb a b) eqn:E; symmetry.
  - apply qltb_true in E. apply qltb_true. rewrite <- Ha, <- Hb. exact E.
  - apply qltb_false in E. apply qltb_false. rewrite <- Ha, <- Hb. exact E.
Qed.

Lemma qmax_compat a a' b b' : a == a' -> b == b' -> qmax a b == qmax a' b'.
Proof.
  intros Ha Hb. unfold qmax. rewrite (qltb_compat _ _ _ _ Ha Hb).
  destruct (qltb a' b'); assumption.
Qed.

Lemma qmin_compat a a' b b' : a == a' -> b == b' -> qmin a b == qmin a' b'.
Proof.
  intros Ha Hb. unfold qmin. rewrite (qltb_compat _ _ _ _ Hb Ha).
  destruct (qltb b' a'); assumption.
Qed.

Lemma nth_map_seq {B} (f : nat -> B) n k d :
  (k < n)%nat -> nth k (map f (seq 0 n)) d = f k.
Proof.
  intros Hk. rewrite nth_indep with (d' := f 0%nat) by (rewrite length_map, length_seq; lia).
  rewrite map_nth, seq_nth by lia. reflexivity.
Qed.

Section Percent.

Variable cfg : Config.
Hypothesis Hcap : 0 < battery_capacity cfg.

(** kWh to percent of the capacity. *)
Definition to_pct (x : Q) : Q := x / battery_capacity cfg * 100.

Lemma cap_neq : ~ battery_capacity cfg == 0.
Proof. intro H. rewrite H in Hcap. discriminate. Qed.

Lemma to_pct_lt a b : a < b <-> to_pct a < to_pct b.
Proof.
  unfold to_pct, Qdiv.
  assert (Hi : 0 < / battery_capacity cfg) by (apply Qinv_lt_0_compat; exact Hcap).
  split; intro H.
  - apply Qmult_lt_r; [reflexivity|]. apply Qmult_lt_r; assumption.
  - apply Qmult_lt_r in H; [|reflexivity]. apply Qmult_lt_r in H; assumption.
Qed.

Lemma to_pct_qltb a b : qltb (to_pct a) (to_pct b) = qltb a b.
Proof.
  destruct (qltb a b) eqn:E.
  - apply qltb_true. apply (proj1 (to_pct_lt a b)). apply qltb_true. exact E.
  - apply qltb_false. apply qltb_false in E.
    apply Qnot_lt_le. intro H. apply (proj2 (to_pct_lt a b)) in H.
    exact (Qlt_not_le _ _ H E).
Qed.

Lemma to_pct_qmax a b : to_pct (qmax a b) == qmax (to_pct a) (to_pct b).
Proof. unfold qmax at 2. rewrite to_pct_qltb. unfold qmax. destruct (qltb a b); reflexivity. Qed.

Lemma to_pct_qmin a b : to_pct (qmin a b) == qmin (to_pct a) (to_pct b).
Proof. unfold qmin at 2. rewrite to_pct_qltb. unfold qmin. destruct (qltb b a); reflexivity. Qed.

Lemma to_pct_plus a b : to_pct (a + b) == to_pct a + to_pct b.
Proof. unfold to_pct, Qdiv. ring. Qed.

Lemma to_pct_pct z : to_pct (pct z * cap cfg) == inject_Z z.
Proof.
  unfold to_pct, pct, cap. field. exact cap_neq.
Qed.

Lemma to_pct_start cur : to_pct (start_kwh cfg cur) == cur.
Proof. unfold to_pct, start_kwh, cap. field. exact cap_neq. Qed.

Lemma soc_after_steps nets : forall s prev, prev == to_pct s ->
  forall k, (k < length nets)%nat ->
  nth (S k) (prev :: soc_after cfg s nets) 0
    == soc_step_pct cfg (nth k (prev :: soc_after cfg s nets) 0) (nth k nets 0).
Proof.
  induction nets as [|n t IH]; intros s prev Hp k Hk; simpl in Hk; [lia|].
  destruct k as [|k].
  - cbn [soc_after nth]. unfold soc_step_pct.
    apply Qeq_trans with
      (to_pct (qmax (min_kwh cfg) (if qltb 0 n then qmin (max_kwh cfg) (s + n) else s + n)));
      [apply Qeq_refl|].
    eapply Qeq_trans; [apply to_pct_qmax|].
    apply qmax_compat; [apply to_pct_pct|].
    assert (Hx : to_pct (s + n) == prev + n / battery_capacity cfg * 100).
    { eapply Qeq_trans; [apply to_pct_plus|].
      apply Qplus_comp; [symmetry; exact Hp | apply Qeq_refl]. }
    destruct (qltb 0 n).
    + eapply Qeq_trans; [apply to_pct_qmin|].
      apply qmin_compat; [apply to_pct_pct | exact Hx].
    + exact Hx.
  - cbn [soc_after]. apply (IH _ _ (Qeq_refl _)). lia.
Qed.

Lemma final_soc_step cur L pv cons hc i :
  (0 < i < L)%nat ->
  at_q (final_soc cfg cur L pv cons hc) i
    == soc_step_pct cfg (at_q (final_soc cfg cur L pv cons hc) (i - 1))
         (at_q pv (i - 1) + at_q hc (i - 1) - at_q cons (i - 1)).
Proof.
  intros Hi. destruct i as [|k]; [lia|].
  replace (S k - 1)%nat with k by lia.
  unfold at_q, final_soc.
  set (nets := map (fun h => at_q pv h + at_q hc h - at_q cons h) (range 0 (L - 1))).
  assert (Hlen : (k < length nets)%nat)
    by (unfold nets, range; rewrite length_map, length_seq; lia).
  assert (Hn : nth k nets 0 = at_q pv k + at_q hc k - at_q cons k).
  { unfold nets, range. rewrite nth_map_seq by lia. reflexivity. }
  eapply Qeq_trans.
  - apply (soc_after_steps nets (start_kwh cfg cur) cur); [symmetry; apply to_pct_start | exact Hlen].
  - rewrite Hn. apply Qeq_refl.
Qed.

Lemma final_soc_head cur L pv cons hc : at_q (final_soc cfg cur L pv cons hc) 0 = cur.
Proof. reflexivity. Qed.

Lemma to_pct_le a b : a <= b -> to_pct a <= to_pct b.
Proof.
  intros H. apply Qnot_lt_le. intro H'. apply (proj2 (to_pct_lt b a)) in H'.
  exact (Qlt_not_le _ _ H' H).
Qed.

Lemma final_soc_lower cur L pv cons hc i :
  (0 < i < L)%nat -> inject_Z (min_soc cfg) <= at_q (final_soc cfg cur L pv cons hc) i.
Proof.
  intros Hi. rewrite (final_soc_step cur L pv cons hc i Hi).
  unfold soc_step_pct. apply qmax_ge_l.
Qed.

Lemma final_soc_upper cur L pv cons hc :
  (min_soc cfg <= max_soc cfg)%Z ->
  forall i, (i < L)%nat ->
  at_q (final_soc cfg cur L pv cons hc) i <= qmax (inject_Z (max_soc cfg)) cur.
Proof.
  intros Hm i. induction i as [|k IH]; intros Hi.
  - rewrite final_soc_head. apply qmax_ge_r.
  - rewrite (final_soc_step cur L pv cons hc (S k)) by lia.
    replace (S k - 1)%nat with k by lia.
    specialize (IH ltac:(lia)).
    set (B := qmax (inject_Z (max_soc cfg)) cur).
    assert (HM : inject_Z (max_soc cfg) <= B) by apply qmax_ge_l.
    unfold soc_step_pct. apply qmax_lub.
    + apply Qle_trans with (inject_Z (max_soc cfg)); [|exact HM].
      rewrite <- Zle_Qle. exact Hm.
    + set (n := at_q pv k + at_q hc k - at_q cons k).
      destruct (qltb 0 n) eqn:En.
      * apply Qle_trans with (inject_Z (max_soc cfg)); [apply qmin_le_l | exact HM].
      * apply qltb_false in En.
        apply Qle_trans with (at_q (final_soc cfg cur L pv cons hc) k); [|exact IH].
        set (prev := at_q (final_soc cfg cur L pv cons hc) k).
        assert (Hn : to_pct n <= 0).
        { apply Qle_trans with (to_pct 0); [apply to_pct_le; exact En|].
          unfold to_pct, Qdiv. rewrite Qmult_0_l, Qmult_0_l. apply Qle_refl. }
        apply Qle_trans with (prev + 0); [|rewrite Qplus_0_r; apply Qle_refl].
        apply Qplus_le_r. exact Hn.
Qed.

End Percent.

(** *** Sorting and peak grouping *)

Section Sorting.

Context {A : Type} (key : A -> Q).

Lemma insert_by_perm x l : Permutation (insert_by key x l) (x :: l).
Proof.
  induction l as [|y t IH]; simpl; auto.
  destruct (Qle_bool (key x) (key y)); auto.
  eapply perm_trans; [apply perm_skip; exact IH|]. apply perm_swap.
Qed.

Lemma sort_by_perm l : Permutation (sort_by key l) l.
Proof.
  induction l as [|x t IH]; simpl; auto.
  eapply perm_trans; [apply insert_by_perm|]. apply perm_skip. exact IH.
Qed.

Definition key_le (a b : A) : Prop := key a <= key b.

Lemma insert_by_sorted x l : Sorted key_le l -> Sorted key_le (insert_by key x l).
Proof.
  induction l as [|y t IH]; simpl; intros Hs.
  - repeat constructor.
  - destruct (Qle_bool (key x) (key y)) eqn:E.
    + constructor; [exact Hs|]. constructor. apply Qle_bool_iff. exact E.
    + assert (Hyx : key y <= key x).
      { apply Qlt_le_weak. apply Qnot_le_lt. intro H. apply Qle_bool_iff in H. congruence. }
      inversion Hs as [|? ? Ht Hhd]; subst.
      constructor; [apply IH; exact Ht|].
      destruct t as [|z t']; simpl.
      * constructor. exact Hyx.
      * inversion Hhd; subst.
        destruct (Qle_bool (key x) (key z)); constructor; assumption.
Qed.

Lemma sort_by_sorted l : Sorted key_le (sort_by key l).
Proof.
  induction l as [|x t IH]; simpl; [constructor|]. apply insert_by_sorted. exact IH.
Qed.

End Sorting.

Lemma Sorted_snoc {A} (R : A -> A -> Prop) l x d :
  Sorted R l -> (l = [] \/ R (last l d) x) -> Sorted R (l ++ [x]).
Proof.
  induction l as [|a t IH]; simpl; intros Hs Hl.
  - repeat constructor.
  - inversion Hs as [|? ? Ht Hhd]; subst. constructor.
    + apply IH; [exact Ht|]. destruct t as [|b t']; [left; reflexivity|].
      right. destruct Hl as [Hl|Hl]; [discriminate|exact Hl].
    + destruct t as [|b t']; simpl.
      * constructor. destruct Hl as [Hl|Hl]; [discriminate|exact Hl].
      * inversion Hhd; subst. constructor. assumption.
Qed.

Lemma group_from_spec hs : forall cur prev t',
  cur = prev :: t' -> Sorted close_hours (rev cur) ->
  let G := group_from cur prev hs in
  concat G = rev cur ++ hs /\
  Forall (fun c => c <> [] /\ Sorted close_hours c) G /\
  Sorted apart_peaks G /\
  exists c rest, G = c :: rest /\ hd 0%nat c = hd 0%nat (rev cur).
Proof.
  induction hs as [|h t IH]; intros cur prev t' Hcur Hs; simpl.
  - assert (Hne : rev cur <> []).
    { rewrite Hcur. simpl. intro H. apply app_eq_nil in H. destruct H; discriminate. }
    split; [simpl; rewrite ?app_nil_r; reflexivity|].
    split; [constructor; auto|].
    split; [repeat constructor|eauto].
  - assert (Hne : rev cur <> []).
    { rewrite Hcur. simpl. intro H. apply app_eq_nil in H. destruct H; discriminate. }
    assert (Hlast : last (rev cur) 0%nat = prev).
    { rewrite Hcur. simpl. apply last_last. }
    destruct (3 <? Z.of_nat h - Z.of_nat prev)%Z eqn:Eg.
    + destruct (IH [h] h [] eq_refl (Sorted_cons (Sorted_nil _) (HdRel_nil _ _)))
        as (Hc & Hf & Ha & c & rest & Hg & Hh).
      simpl in Hh. simpl. rewrite Hc. split; [reflexivity|].
      split; [constructor; auto|].
      split; [|eauto].
      rewrite Hg. constructor; [rewrite <- Hg; exact Ha|].
      constructor. unfold apart_peaks. rewrite Hh, Hlast. apply Z.ltb_lt. exact Eg.
    + assert (Hs' : Sorted close_hours (rev (h :: cur))).
      { simpl. apply (Sorted_snoc _ _ _ 0%nat Hs). right. rewrite Hlast.
        unfold close_hours. apply Z.ltb_ge in Eg. lia. }
      destruct (IH (h :: cur) h cur eq_refl Hs') as (Hc & Hf & Ha & c & rest & Hg & Hh).
      rewrite Hc. simpl. rewrite <- app_assoc. split; [reflexivity|].
      split; [exact Hf|]. split; [exact Ha|].
      exists c, rest. split; [exact Hg|]. rewrite Hh. simpl.
      destruct (rev cur) as [|z zs]; [contradiction|reflexivity].
Qed.

Lemma group_peaks_spec hs :
  concat (group_peaks hs) = hs /\
  Forall (fun c => c <> [] /\ Sorted close_hours c) (group_peaks hs) /\
  Sorted apart_peaks (group_peaks hs).
Proof.
  destruct hs as [|h t]; simpl.
  - repeat split; constructor.
  - destruct (group_from_spec t [h] h [] eq_refl (Sorted_cons (Sorted_nil _) (HdRel_nil _ _)))
      as (Hc & Hf & Ha & _).
    repeat split; auto.
Qed.

Lemma top_40_index_floor pr :
  top_40_index pr = Z.to_nat (Qfloor (inject_Z (Z.of_nat (length pr)) * (6 # 10))).
Proof.
  unfold top_40_index, sorted_prices.
  rewrite (Permutation_length (sort_by_perm (fun x => x) pr)).
  set (n := length pr). unfold Qfloor, inject_Z, Qmult. cbn [Qnum Qden].
  apply Nat2Z.inj. rewrite Nat2Z.inj_div, Nat2Z.inj_mul, Z2Nat.id.
  - simpl. Z.div_mod_to_equations. lia.
  - apply Z.div_pos; lia.
Qed.

Lemma qmax_le_iff a b x : qmax a b <= x <-> a <= x /\ b <= x.
Proof.
  split.
  - intros H. split; eapply Qle_trans; [apply qmax_ge_l| exact H | apply qmax_ge_r | exact H].
  - intros [Ha Hb]. apply qmax_lub; assumption.
Qed.

Lemma expensive_hours_in L pr h :
  In h (expensive_hours L pr) <->
  (h < L)%nat /\ mean pr * (105 # 100) <= at_q pr h /\
  at_q (sorted_prices pr) (top_40_index pr) <= at_q pr h.
Proof.
  unfold expensive_hours. rewrite filter_In, in_range, Qle_bool_iff.
  unfold price_threshold. rewrite qmax_le_iff.
  assert (Hm : avg_price pr * (21 # 20) == mean pr * (105 # 100)).
  { unfold avg_price, mean. apply Qmult_comp; [apply Qeq_refl|reflexivity]. }
  split.
  - intros [Hr [Ha Hb]]. repeat split; try lia; [rewrite <- Hm|]; assumption.
  - intros [Hr [Ha Hb]]. repeat split; try lia; [rewrite Hm|]; assumption.
Qed.

Lemma StronglySorted_filter {A} (R : A -> A -> Prop) f l :
  StronglySorted R l -> StronglySorted R (filter f l).
Proof.
  induction l as [|x t IH]; simpl; intros Hs; [constructor|].
  inversion Hs as [|? ? Ht Hf]; subst.
  destruct (f x); [constructor|]; auto.
  apply Forall_forall. intros y Hy. apply filter_In in Hy.
  rewrite Forall_forall in Hf. apply Hf, Hy.
Qed.

Lemma StronglySorted_seq s n : StronglySorted lt (seq s n).
Proof.
  revert s. induction n as [|n IH]; intros s; simpl; constructor; [apply IH|].
  apply Forall_forall. intros y Hy. apply in_seq in Hy. lia.
Qed.

Lemma expensive_hours_sorted L pr : Sorted lt (expensive_hours L pr).
Proof.
  apply StronglySorted_Sorted. apply StronglySorted_filter. apply StronglySorted_seq.
Qed.

(** *** Sums and the hourly profile *)

Lemma qsum_acc l a : fold_left Qplus l a == a + qsum l.
Proof.
  unfold qsum. revert a. induction l as [|x t IH]; intros a; simpl.
  - ring.
  - rewrite IH, (IH (0 + x)). ring.
Qed.

Lemma qsum_cons x l : qsum (x :: l) == x + qsum l.
Proof. unfold qsum at 1. simpl. rewrite qsum_acc. ring. Qed.

Lemma qsum_perm l l' : Permutation l l' -> qsum l == qsum l'.
Proof.
  induction 1.
  - reflexivity.
  - rewrite !qsum_cons, IHPermutation. reflexivity.
  - rewrite !qsum_cons. ring.
  - rewrite IHPermutation1. exact IHPermutation2.
Qed.

Lemma lookup_app {V} h (p : list (nat * V)) a v :
  lookup h (p ++ [(a, v)]) =
  match lookup h p with Some w => Some w | None => if (h =? a)%nat then Some v else None end.
Proof.
  induction p as [|[k w] t IH]; simpl; [reflexivity|].
  destruct (h =? k)%nat; [reflexivity|exact IH].
Qed.

Lemma lookup_fill {V} (avg : V) hs : forall p h,
  lookup h (fold_left (fun p h => match lookup h p with
                                  | Some _ => p
                                  | None => p ++ [(h, avg)]
                                  end) hs p) =
  match lookup h p with Some w => Some w | None => if in_dec Nat.eq_dec h hs then Some avg else None end.
Proof.
  induction hs as [|a t IH]; intros p h; simpl.
  - destruct (lookup h p); reflexivity.
  - rewrite IH. destruct (lookup a p) eqn:Ea.
    + destruct (lookup h p) eqn:Eh; [reflexivity|].
      destruct (Nat.eq_dec a h) as [Heq|Hne]; [subst; congruence|].
      destruct (in_dec Nat.eq_dec h t); reflexivity.
    + rewrite lookup_app. destruct (lookup h p) eqn:Eh; [reflexivity|].
      destruct (h =? a)%nat eqn:E.
      * apply Nat.eqb_eq in E. subst. destruct (Nat.eq_dec a a); [reflexivity|congruence].
      * apply Nat.eqb_neq in E. destruct (Nat.eq_dec a h) as [Heq|Hn]; [subst; congruence|].
        destruct (in_dec Nat.eq_dec h t); reflexivity.
Qed.

Lemma lookup_keys {V} (g : nat -> V) hs h :
  lookup h (map (fun k => (k, g k)) hs) = if in_dec Nat.eq_dec h hs then Some (g h) else None.
Proof.
  induction hs as [|a t IH]; simpl; [reflexivity|].
  destruct (h =? a)%nat eqn:E.
  - apply Nat.eqb_eq in E. subst. destruct (Nat.eq_dec a a); [reflexivity|congruence].
  - apply Nat.eqb_neq in E. rewrite IH.
    destruct (Nat.eq_dec a h) as [Heq|Hn]; [subst; congruence|].
    destruct (in_dec Nat.eq_dec h t); reflexivity.
Qed.

Lemma max_hour_acc rows : forall m,
  (m <= fold_left (fun m r => Nat.max m (r_hour r)) rows m)%nat /\
  (forall r, In r rows -> r_hour r <= fold_left (fun m r => Nat.max m (r_hour r)) rows m)%nat.
Proof.
  induction rows as [|x t IH]; intros m; simpl; [split; [lia|tauto]|].
  destruct (IH (Nat.max m (r_hour x))) as [H1 H2]. split; [lia|].
  intros r [<-|Hr]; [lia|]. apply H2, Hr.
Qed.

Lemma hours_present_in rows h :
  In h (hours_present rows) <-> exists r, In r rows /\ r_hour r = h.
Proof.
  unfold hours_present. rewrite filter_In, in_seq, existsb_exists. split.
  - intros [_ (r & Hr & E)]. apply Nat.eqb_eq in E. eauto.
  - intros (r & Hr & <-). split; [|exists r; split; [exact Hr|apply Nat.eqb_refl]].
    destruct (max_hour_acc rows 0%nat) as [_ H]. specialize (H r Hr).
    unfold max_hour. lia.
Qed.

Lemma NoDup_hours_present rows : NoDup (hours_present rows).
Proof. unfold hours_present. apply NoDup_filter, seq_NoDup. Qed.

Lemma hour_avg_mean rows h :
  (exists r, In r rows /\ r_hour r = h) ->
  hour_avg rows h = mean (map r_kwh (filter (fun r => (r_hour r =? h)%nat) rows)).
Proof.
  intros (r & Hr & <-). unfold hour_avg, sql_avg, mean.
  destruct (map r_kwh (filter (fun r0 => (r_hour r0 =? r_hour r)%nat) rows)) eqn:E;
    [|reflexivity].
  apply map_eq_nil in E.
  assert (In r (filter (fun r0 => (r_hour r0 =? r_hour r)%nat) rows)).
  { apply filter_In. split; [exact Hr|apply Nat.eqb_refl]. }
  rewrite E in H. destruct H.
Qed.

(** *** The import of daily profiles *)

Lemma insert_or_replace_new st r : In r (insert_or_replace st r).
Proof. unfold insert_or_replace. apply in_or_app. right. left. reflexivity. Qed.

Lemma insert_or_replace_keep st r x :
  In x st -> r_hour x <> r_hour r -> In x (insert_or_replace st r).
Proof.
  intros Hx Hh. unfold insert_or_replace. apply in_or_app. left.
  apply filter_In. split; [exact Hx|].
  unfold same_key. destruct (r_hour x =? r_hour r)%nat eqn:E.
  - apply Nat.eqb_eq in E. contradiction.
  - rewrite andb_false_r. reflexivity.
Qed.

Lemma import_hours_count now date hs : forall hour st n,
  let '(_, n', ok) := import_hours now date hour hs st n in
  n' = (n + convertible_prefix hs)%nat /\ ok = forallb is_some hs.
Proof.
  induction hs as [|[c|] t IH]; intros hour st n; simpl.
  - split; [lia|reflexivity].
  - specialize (IH (S hour) (insert_or_replace st (mkRow date hour None (clamp_value c) true now)) (S n)).
    destruct (import_hours _ _ _ _ _ _) as [[st' n'] ok]. destruct IH as [-> ->].
    split; [lia|reflexivity].
  - split; [lia|reflexivity].
Qed.

Lemma import_hours_keep now date hs : forall hour st n x,
  In x st -> (r_hour x < hour)%nat ->
  In x (fst (fst (import_hours now date hour hs st n))).
Proof.
  induction hs as [|[c|] t IH]; intros hour st n x Hx Hl; simpl; try exact Hx.
  apply IH; [|lia]. apply insert_or_replace_keep; [exact Hx|]. simpl. lia.
Qed.

Lemma import_hours_rows now date hs : forall hour st n k c,
  nth_error hs k = Some (Some c) -> forallb is_some hs = true ->
  In (mkRow date (hour + k) None (clamp_value c) true now)
     (fst (fst (import_hours now date hour hs st n))).
Proof.
  induction hs as [|[c0|] t IH]; intros hour st n k c Hk Hall; simpl.
  - destruct k; discriminate.
  - destruct k as [|k]; simpl in Hk.
    + injection Hk as <-. rewrite Nat.add_0_r.
      apply import_hours_keep; [apply insert_or_replace_new|simpl; lia].
    + replace (hour + S k)%nat with (S hour + k)%nat by lia.
      apply IH; assumption.
  - discriminate.
Qed.

Lemma import_day_counts now s d :
  im_imported (import_day now s d) = (im_imported s + hours_inserted d)%nat /\
  im_skipped (import_day now s d) = (im_skipped s + if day_accepted d then 0 else 1)%nat.
Proof.
  unfold import_day, hours_inserted, day_accepted.
  destruct (de_date d) as [date|], (de_hours d) as [hs|]; simpl; try (split; lia).
  destruct (length hs =? 24)%nat; simpl; [|split; lia].
  pose proof (import_hours_count now date hs 0 (im_store s) (im_imported s)) as Hc.
  destruct (import_hours _ _ _ _ _ _) as [[st' n'] ok]. destruct Hc as [-> ->].
  destruct (forallb is_some hs); simpl; split; lia.
Qed.

Lemma import_fold_counts now days : forall s,
  let s' := fold_left (import_day now) days s in
  im_imported s' = (im_imported s + list_sum (map hours_inserted days))%nat /\
  im_skipped s' = (im_skipped s + length (filter (fun d => negb (day_accepted d)) days))%nat.
Proof.
  induction days as [|d t IH]; intros s; simpl; [split; lia|].
  destruct (IH (import_day now s d)) as [H1 H2].
  destruct (import_day_counts now s d) as [H3 H4].
  rewrite H1, H2, H3, H4. destruct (day_accepted d); simpl; split; lia.
Qed.

Lemma count_zero_forallb {A} (f : A -> bool) l :
  (length (filter (fun d => negb (f d)) l) =? 0)%nat = forallb f l.
Proof. induction l as [|x t IH]; simpl; [reflexivity|]. destruct (f x); simpl; auto. Qed.

(** *** Empty collaborators *)

Lemma qsum_repeat x n : qsum (repeat x n) == inject_Z (Z.of_nat n) * x.
Proof.
  induction n as [|n IH]; [reflexivity|].
  cbn [repeat]. rewrite qsum_cons, IH, Nat2Z.inj_succ, <- Z.add_1_r, inject_Z_plus.
  simpl. ring.
Qed.

Lemma mean_repeat x n : (0 < n)%nat -> mean (repeat x n) == x.
Proof.
  intros Hn. unfold mean. rewrite repeat_length, qsum_repeat.
  field. intros H. unfold inject_Z, Qeq in H. simpl in H. lia.
Qed.

Lemma expensive_hours_flat x L : 0 < x -> expensive_hours L (repeat x L) = [].
Proof.
  intros Hx. destruct (expensive_hours L (repeat x L)) as [|h t] eqn:E; [reflexivity|].
  assert (Hin : In h (expensive_hours L (repeat x L))) by (rewrite E; left; reflexivity).
  apply expensive_hours_in in Hin as (Hh & Hm & _).
  exfalso. unfold at_q in Hm. rewrite nth_repeat_lt in Hm by exact Hh.
  rewrite (mean_repeat x L) in Hm by lia.
  apply (Qlt_not_le x (x * (105 # 100))); [|exact Hm].
  rewrite <- (Qmult_1_r x) at 1. apply Qmult_lt_l; [exact Hx|reflexivity].
Qed.

Lemma charging_plan_no_peaks cfg cur L pv cons pr :
  peaks L pr = [] -> exists r, charging_plan cfg cur L pv cons pr = Some r.
Proof.
  intros Hp. unfold charging_plan. rewrite Hp.
  destruct (deficit_hours cfg cur L pv cons); eexists; reflexivity.
Qed.

Lemma map_const_seq {B} (f : nat -> B) c s n :
  (forall i, f i = c) -> map f (seq s n) = repeat c n.
Proof.
  intros Hf. revert s. induction n as [|n IH]; intros s; [reflexivity|].
  simpl. rewrite Hf, IH. reflexivity.
Qed.

Lemma average_empty_store lr h td :
  store lr = [] -> get_average_consumption lr h td = default_fallback lr.
Proof. intros Hs. unfold get_average_consumption. rewrite Hs. reflexivity. Qed.

Lemma pv_for_empty idx : pv_for [] idx = 0.
Proof. unfold pv_for. destruct (idx <? 48)%nat; reflexivity. Qed.

End Facts.

(** ** The claims *)

Module Claims.

Import Learner Planner Spec Inputs Facts.

(** C4: when the baseline simulation (no grid charging) stays above
    [min_soc + 5] at every hour of the window, the plan has no charging
    window and plans no grid charge in any hour. *)
Theorem no_deficit_no_charging lrO pv48 cfg cur prices today nh L p :
  plan_battery_schedule_rolling lrO pv48 cfg cur prices today nh L = Some p ->
  (forall i, (i < L)%nat ->
     inject_Z (min_soc cfg + 5)
       < at_q (baseline_soc cfg cur L (hourly_pv p) (hourly_consumption p)) i) ->
  charging_windows p = [] /\ (forall i, (i < L)%nat -> at_q (hourly_charging p) i == 0).
Proof.
  intros H Hb.
  destruct (plan_fields _ _ _ _ _ _ _ _ _ H) as (_ & Hcp & _ & _).
  rewrite (charging_plan_no_deficit _ _ _ _ _ _ (deficit_hours_nil _ _ _ _ _ Hb)) in Hcp.
  injection Hcp as Hhc Hw. split; [symmetry; exact Hw|].
  intros i _. rewrite <- Hhc, at_q_repeat_zero. reflexivity.
Qed.

Lemma no_deficit_no_charging_witness :
  sunny_plan = Some (the_plan sunny_plan) /\
  (forall i, (i < 6)%nat ->
     inject_Z (min_soc sunny_cfg + 5)
       < at_q (baseline_soc sunny_cfg 80 6 (hourly_pv (the_plan sunny_plan))
                 (hourly_consumption (the_plan sunny_plan))) i) /\
  charging_windows (the_plan sunny_plan) = [].
Proof.
  assert (H1 : sunny_plan = Some (the_plan sunny_plan)) by (vm_compute; reflexivity).
  assert (H2 : forall i, (i < 6)%nat ->
     inject_Z (min_soc sunny_cfg + 5)
       < at_q (baseline_soc sunny_cfg 80 6 (hourly_pv (the_plan sunny_plan))
                 (hourly_consumption (the_plan sunny_plan))) i).
  { intros i Hi. apply qltb_true.
    apply (forallb_range_lt (fun i => qltb _ (at_q (baseline_soc sunny_cfg 80 6 _ _) i)) 6);
      [vm_compute; reflexivity | exact Hi]. }
  split; [exact H1|]. split; [exact H2|].
  exact (proj1 (no_deficit_no_charging _ _ _ _ _ _ _ _ _ H1 H2)).
Defined.

(** C9: every planned grid charge lies in [[0, max_charge_power]] when
    the charge power is positive. *)
Theorem charging_within_power lrO pv48 cfg cur prices today nh L p :
  plan_battery_schedule_rolling lrO pv48 cfg cur prices today nh L = Some p ->
  0 < max_charge_power cfg ->
  forall i, 0 <= at_q (hourly_charging p) i /\ at_q (hourly_charging p) i <= max_charge_power cfg.
Proof.
  intros H Hm i.
  destruct (plan_fields _ _ _ _ _ _ _ _ _ H) as (_ & Hcp & _ & _).
  apply (at_q_charge_ok cfg Hm). eapply charging_plan_ok; eauto.
Qed.

Lemma charging_within_power_witness :
  peak_plan = Some (the_plan peak_plan) /\ 0 < max_charge_power peak_cfg /\
  0 <= at_q (hourly_charging (the_plan peak_plan)) 2 /\
  at_q (hourly_charging (the_plan peak_plan)) 2 <= max_charge_power peak_cfg.
Proof.
  assert (H1 : peak_plan = Some (the_plan peak_plan)) by (vm_compute; reflexivity).
  assert (H2 : 0 < max_charge_power peak_cfg) by (vm_compute; reflexivity).
  split; [exact H1|]. split; [exact H2|].
  exact (charging_within_power _ _ _ _ _ _ _ _ _ H1 H2 2%nat).
Defined.

(** C3: from the second hour on, each SOC value is the previous one plus
    [(pv + charging - consumption) / capacity * 100], capped at [max_soc]
    only when that net energy is positive, then floored at [min_soc]; all
    from the arrays echoed in the plan. *)
Theorem soc_trajectory_reconstructible lrO pv48 cfg cur prices today nh L p :
  plan_battery_schedule_rolling lrO pv48 cfg cur prices today nh L = Some p ->
  0 < battery_capacity cfg ->
  forall i, (0 < i < L)%nat ->
  at_q (hourly_soc p) i
    == soc_step_pct cfg (at_q (hourly_soc p) (i - 1))
         (at_q (hourly_pv p) (i - 1) + at_q (hourly_charging p) (i - 1)
          - at_q (hourly_consumption p) (i - 1)).
Proof.
  intros H Hcap i Hi.
  destruct (plan_fields _ _ _ _ _ _ _ _ _ H) as (_ & _ & Hs & _).
  rewrite Hs. apply final_soc_step; assumption.
Qed.

Lemma soc_trajectory_reconstructible_witness :
  peak_plan = Some (the_plan peak_plan) /\ 0 < battery_capacity peak_cfg /\
  at_q (hourly_soc (the_plan peak_plan)) 5
    == soc_step_pct peak_cfg (at_q (hourly_soc (the_plan peak_plan)) 4)
         (at_q (hourly_pv (the_plan peak_plan)) 4 + at_q (hourly_charging (the_plan peak_plan)) 4
          - at_q (hourly_consumption (the_plan peak_plan)) 4).
Proof.
  assert (H1 : peak_plan = Some (the_plan peak_plan)) by (vm_compute; reflexivity).
  assert (H2 : 0 < battery_capacity peak_cfg) by (vm_compute; reflexivity).
  split; [exact H1|]. split; [exact H2|].
  exact (soc_trajectory_reconstructible _ _ _ _ _ _ _ _ _ H1 H2 5%nat ltac:(lia)).
Defined.

(** C1, as stated, fails: the first value of the trajectory is the
    current SOC itself, which may lie below [min_soc] (10 % against 20 %),
    and a battery above [max_soc] is only capped when energy flows in, so
    a discharging hour leaves it above [max_soc] (95 % against 90 %). *)
Lemma soc_bounds_counterexample :
  low_start_plan = Some (the_plan low_start_plan) /\
  full_start_plan = Some (the_plan full_start_plan) /\
  (0 <= min_soc peak_cfg < max_soc peak_cfg)%Z /\ (max_soc peak_cfg <= 100)%Z /\
  at_q (hourly_soc (the_plan low_start_plan)) 0 + 9 < inject_Z (min_soc peak_cfg) /\
  inject_Z (max_soc peak_cfg) + 4 < at_q (hourly_soc (the_plan full_start_plan)) 1.
Proof.
  repeat match goal with |- _ /\ _ => split end;
    vm_compute; first [reflexivity | discriminate].
Qed.

(** C1, amended: the trajectory starts at the current SOC, and from the
    second hour on it stays between [min_soc] and the larger of
    [max_soc] and the starting SOC (positive capacity,
    [min_soc <= max_soc]). *)
Theorem soc_within_bounds lrO pv48 cfg cur prices today nh L p :
  plan_battery_schedule_rolling lrO pv48 cfg cur prices today nh L = Some p ->
  0 < battery_capacity cfg -> (min_soc cfg <= max_soc cfg)%Z ->
  at_q (hourly_soc p) 0 = cur /\
  forall i, (0 < i < L)%nat ->
    inject_Z (min_soc cfg) <= at_q (hourly_soc p) i /\
    at_q (hourly_soc p) i <= qmax (inject_Z (max_soc cfg)) cur.
Proof.
  intros H Hcap Hm.
  destruct (plan_fields _ _ _ _ _ _ _ _ _ H) as (_ & _ & Hs & _).
  rewrite Hs. split; [apply final_soc_head|].
  intros i Hi. split.
  - apply final_soc_lower; assumption.
  - apply final_soc_upper; [assumption | assumption | lia].
Qed.

Lemma soc_within_bounds_witness :
  peak_plan = Some (the_plan peak_plan) /\ 0 < battery_capacity peak_cfg /\
  (min_soc peak_cfg <= max_soc peak_cfg)%Z /\
  inject_Z (min_soc peak_cfg) <= at_q (hourly_soc (the_plan peak_plan)) 7.
Proof.
  assert (H1 : peak_plan = Some (the_plan peak_plan)) by (vm_compute; reflexivity).
  assert (H2 : 0 < battery_capacity peak_cfg) by (vm_compute; reflexivity).
  assert (H3 : (min_soc peak_cfg <= max_soc peak_cfg)%Z) by (vm_compute; discriminate).
  split; [exact H1|]. split; [exact H2|]. split; [exact H3|].
  exact (proj1 (proj2 (soc_within_bounds _ _ _ _ _ _ _ _ _ H1 H2 H3) 7%nat ltac:(lia))).
Defined.

(** C10 fails on the code: in the 24-hour [peak_plan] the first peak's
    window expansion appends hours 1 and 0 to [available_hours] a second
    time, so [charging_windows] lists them twice, [hourly_charging] keeps
    only the last write, and [total_charging_kwh] (24.6 kWh) differs from
    the sum over the windows (30.6 kWh). *)
Lemma duplicate_charging_windows :
  peak_plan = Some (the_plan peak_plan) /\
  map w_hour (charging_windows (the_plan peak_plan))
    = [5; 1; 0; 1; 0; 4; 2; 12; 13; 11; 14]%nat /\
  total_charging_kwh (the_plan peak_plan) == 123 # 5 /\
  qsum (map w_charge_kwh (charging_windows (the_plan peak_plan))) == 153 # 5.
Proof.
  repeat match goal with |- _ /\ _ => split end; vm_compute; reflexivity.
Qed.

(** C5 fails on the code: one matching sample of 0 kWh has mean 0, but
    the fetched [AVG] of 0.0 is falsy, so the fallback 1.0 is returned. *)
Lemma zero_mean_returns_fallback :
  mean (map r_kwh (filter (fun r => (r_hour r =? 3)%nat && (weekday (r_date r) =? weekday today)%Z)
                    (store zero_sample_learner))) == 0 /\
  get_average_consumption zero_sample_learner 3 (Some today) == 1.
Proof. split; vm_compute; reflexivity. Qed.

(** C7: for every price array [pr] of the window ([N = length pr]):
    the sorted list is [pr] in ascending order; the index is
    [floor(0.6 * N)]; an hour is expensive iff its price is at least
    [mean * 1.05] and at least the sorted price at that index; the
    expensive hours, in ascending order, are cut into nonempty clusters
    in which successive hours are at most 3 hours apart, and successive
    clusters are separated by a gap of more than 3 hours. *)
Theorem peak_identification (pr : list Q) :
  let N := length pr in
  Sorted Qle (sorted_prices pr) /\ Permutation (sorted_prices pr) pr /\
  top_40_index pr = Z.to_nat (Qfloor (inject_Z (Z.of_nat N) * (6 # 10))) /\
  (forall h, In h (expensive_hours N pr) <->
     (h < N)%nat /\ mean pr * (105 # 100) <= at_q pr h /\
     at_q (sorted_prices pr) (top_40_index pr) <= at_q pr h) /\
  Sorted lt (expensive_hours N pr) /\
  concat (peaks N pr) = expensive_hours N pr /\
  Forall (fun c => c <> [] /\ Sorted close_hours c) (peaks N pr) /\
  Sorted apart_peaks (peaks N pr).
Proof.
  intros N.
  destruct (group_peaks_spec (expensive_hours N pr)) as (Hc & Hf & Ha).
  split; [exact (sort_by_sorted (fun x => x) pr)|].
  split; [exact (sort_by_perm (fun x => x) pr)|].
  split; [apply top_40_index_floor|].
  split; [intros h; apply expensive_hours_in|].
  split; [apply expensive_hours_sorted|].
  unfold peaks. auto.
Qed.

(** C6: for every store and every target date, the profile maps each
    hour [h < 24] to a value: the fallback when no sample matches the
    date; the mean of the hour's samples when it has some; and
    otherwise the mean, over the hours that have samples ([hs], listed
    once each in any order), of those hours' means. *)
Theorem hourly_profile_complete (lr : ConsumptionLearner) (td : option Z) (hs : list nat) :
  let rows := dedup (filter (weekday_ok td) (store lr)) in
  let hour_mean k := mean (map r_kwh (filter (fun r => (r_hour r =? k)%nat) rows)) in
  NoDup hs ->
  (forall k, In k hs <-> exists r, In r rows /\ r_hour r = k) ->
  forall h, (h < 24)%nat ->
  exists v, lookup h (get_hourly_profile lr td) = Some v /\
    (rows = [] -> v = default_fallback lr) /\
    (forall r, In r rows -> r_hour r = h -> v = hour_mean h) /\
    (rows <> [] -> (forall r, In r rows -> r_hour r <> h) -> v == mean (map hour_mean hs)).
Proof.
  intros rows hour_mean HN Hiff h Hh.
  unfold get_hourly_profile. cbv zeta.
  change (dedup (filter (weekday_ok td) (store lr))) with rows.
  assert (Hin24 : In h (seq 0 24)) by (apply in_seq; lia).
  destruct (map (fun h => (h, hour_avg rows h)) (hours_present rows)) as [|q qs] eqn:Em.
  - apply map_eq_nil in Em.
    assert (Hr : rows = []).
    { destruct rows as [|r t]; [reflexivity|].
      assert (In (r_hour r) (hours_present (r :: t))).
      { apply hours_present_in. exists r. split; [left|]; reflexivity. }
      rewrite Em in H. destruct H. }
    exists (default_fallback lr).
    rewrite (lookup_keys (fun _ => default_fallback lr)).
    destruct (in_dec Nat.eq_dec h (seq 0 24)) as [_|Hn]; [|contradiction].
    split; [reflexivity|]. rewrite Hr. simpl.
    split; [reflexivity|]. split; [intros r []|]. intros Hne. contradiction.
  - rewrite <- Em. rewrite lookup_fill, lookup_keys.
    assert (Hne : rows <> []).
    { intros Hr. rewrite Hr in Em. discriminate. }
    destruct (in_dec Nat.eq_dec h (hours_present rows)) as [Hp|Hp].
    + exists (hour_avg rows h).
      assert (Hex := proj1 (hours_present_in rows h) Hp).
      split; [reflexivity|]. split; [intros Hr; contradiction|].
      split; [intros _ _ _; apply hour_avg_mean, Hex|].
      intros _ Hall. destruct Hex as (r & Hr & Eh). destruct (Hall r Hr Eh).
    + destruct (in_dec Nat.eq_dec h (seq 0 24)) as [_|Hn]; [|contradiction].
      eexists. split; [reflexivity|]. split; [intros Hr; contradiction|].
      split.
      { intros r Hr Eh. exfalso. apply Hp, hours_present_in. eauto. }
      intros _ _.
      rewrite map_map, length_map. cbn [snd].
      assert (Hmap : map (fun x => hour_avg rows x) (hours_present rows)
                     = map hour_mean (hours_present rows)).
      { apply map_ext_in. intros k Hk. apply hour_avg_mean, hours_present_in, Hk. }
      rewrite Hmap.
      assert (Hperm : Permutation (hours_present rows) hs).
      { apply NoDup_Permutation; [apply NoDup_hours_present|exact HN|].
        intros k. rewrite hours_present_in, Hiff. reflexivity. }
      unfold mean at 1. rewrite length_map, (Permutation_length Hperm).
      apply Qmult_comp; [|reflexivity].
      apply qsum_perm, Permutation_map, Hperm.
Qed.

Lemma hourly_profile_complete_witness :
  NoDup [3; 5]%nat /\
  exists v, lookup 0 (get_hourly_profile profile_learner None) = Some v /\ v == 3 # 2.
Proof.
  assert (Hrows : dedup (filter (weekday_ok None) (store profile_learner))
                  = [profile_row3; profile_row5]) by (vm_compute; reflexivity).
  assert (HN : NoDup [3; 5]%nat).
  { constructor; [simpl; lia|]. constructor; [simpl; lia|constructor]. }
  split; [exact HN|].
  destruct (hourly_profile_complete profile_learner None [3; 5]%nat HN) with (h := 0%nat)
    as (v & Hl & _ & _ & Hv).
  - intros k. cbv zeta. rewrite Hrows. split.
    + intros [<-|[<-|[]]]; [exists profile_row3|exists profile_row5];
        split; simpl; auto.
    + intros (r & [<-|[<-|[]]] & <-); simpl; auto.
  - lia.
  - exists v. split; [exact Hl|].
    cbv zeta in Hv. rewrite Hrows in Hv. rewrite Hv.
    + vm_compute. reflexivity.
    + discriminate.
    + intros r [<-|[<-|[]]]; discriminate.
Defined.

(** C8: in [import_detailed_history], a day whose hours list does not
    hold exactly 24 values leaves the store and the imported count
    unchanged and is counted as skipped; every hour of an accepted day
    is stored with its value clamped (negative to 0, above 50 to 50,
    unchanged otherwise); the result counts the inserted hours and the
    days not accepted, and [success] holds iff every day was accepted.
    The operation is total: it yields a result for every batch. *)
Theorem import_validation (now : Z) (st : list Row) (days : list DayEntry) :
  let res := import_detailed_history now st days in
  (forall s d hs, de_hours d = Some hs -> length hs <> 24%nat ->
     import_day now s d = mkImport (im_store s) (im_imported s) (S (im_skipped s))) /\
  (forall s d date hs h c, de_date d = Some date -> de_hours d = Some hs ->
     day_accepted d = true -> nth_error hs h = Some (Some c) ->
     In (mkRow date h None (clamp_value c) true now) (im_store (import_day now s d))) /\
  (forall c, c < 0 -> clamp_value c = 0) /\
  (forall c, 50 < c -> clamp_value c = 50) /\
  (forall c, 0 <= c -> c <= 50 -> clamp_value c = c) /\
  imported_hours res = list_sum (map hours_inserted days) /\
  skipped_days res = length (filter (fun d => negb (day_accepted d)) days) /\
  success res = forallb day_accepted days.
Proof.
  intros res.
  destruct (import_fold_counts now days (mkImport st 0 0)) as [Hi Hs].
  split.
  { intros s d hs Hd Hl. unfold import_day. rewrite Hd.
    apply Nat.eqb_neq in Hl. rewrite Hl.
    destruct (de_date d); reflexivity. }
  split.
  { intros s d date hs h c Hdt Hd Ha Hh.
    unfold day_accepted in Ha. rewrite Hdt, Hd in Ha. apply andb_prop in Ha as [Hl Hall].
    unfold import_day. rewrite Hdt, Hd, Hl. simpl.
    pose proof (import_hours_count now date hs 0 (im_store s) (im_imported s)) as Hc.
    pose proof (import_hours_rows now date hs 0 (im_store s) (im_imported s) h c Hh Hall) as Hr.
    destruct (import_hours _ _ _ _ _ _) as [[st' n'] ok]. destruct Hc as [_ ->].
    rewrite Hall. exact Hr. }
  split.
  { intros c Hc. unfold clamp_value. apply qltb_true in Hc. rewrite Hc. reflexivity. }
  split.
  { intros c Hc. unfold clamp_value.
    assert (H0 : qltb c 0 = false) by (apply qltb_false; apply Qlt_le_weak; apply Qlt_trans with 50; [reflexivity|exact Hc]).
    apply qltb_true in Hc. rewrite H0, Hc. reflexivity. }
  split.
  { intros c H0 H50. unfold clamp_value.
    apply qltb_false in H0. apply qltb_false in H50. rewrite H0, H50. reflexivity. }
  unfold res, import_detailed_history. cbn [imported_hours skipped_days success].
  rewrite Hi, Hs. simpl. split; [reflexivity|]. split; [reflexivity|].
  apply count_zero_forallb.
Qed.

Lemma import_validation_witness :
  import_day 0 (mkImport [] 0 0) short_day = mkImport [] 0 1 /\
  In (mkRow next_day 0 None (clamp_value (-1)) true 0)
     (im_store (import_day 0 (mkImport [] 0 0) outlier_day)) /\
  clamp_value (-1) = 0 /\
  In (mkRow next_day 1 None (clamp_value 60) true 0)
     (im_store (import_day 0 (mkImport [] 0 0) outlier_day)) /\
  clamp_value 60 = 50 /\
  imported_hours (import_detailed_history 0 [] [short_day; outlier_day]) = 24%nat /\
  skipped_days (import_detailed_history 0 [] [short_day; outlier_day]) = 1%nat.
Proof.
  destruct (import_validation 0 [] [short_day; outlier_day])
    as (H1 & H2 & H3 & H4 & _ & H6 & H7 & _).
  split; [exact (H1 (mkImport [] 0 0) short_day (repeat (Some 1) 23) eq_refl ltac:(simpl; lia))|].
  split; [exact (H2 _ outlier_day next_day _ 0%nat (-1) eq_refl eq_refl eq_refl eq_refl)|].
  split; [apply H3; reflexivity|].
  split; [exact (H2 _ outlier_day next_day _ 1%nat 60 eq_refl eq_refl eq_refl eq_refl)|].
  split; [apply H4; reflexivity|].
  split; [rewrite H6; reflexivity|].
  rewrite H7. reflexivity.
Defined.

(** C2, the claim as stated fails: without a consumption learner
    (learning disabled) the planner returns no plan for empty PV and
    prices, and with an empty store but a window of 0 hours it also
    returns no plan. *)
Lemma fallback_plan_counterexample :
  plan_battery_schedule_rolling None [] peak_cfg 50 [] today 0 24 = None /\
  plan_battery_schedule_rolling (Some (mkLearner [] 1)) [] peak_cfg 50 [] today 0 0 = None.
Proof. split; reflexivity. Qed.

(** C2, amended: with a consumption learner whose store is empty, an
    empty PV forecast, an empty price list, a window of at least one
    hour and a nonzero capacity, the planner returns a plan in which
    every hour uses the learner's default consumption
    ([default_fallback], 1.0 kWh/h unless configured), 0 kWh PV and the
    price 0.30. *)
Theorem empty_collaborators_fallback_plan lr cfg cur today nh L :
  store lr = [] -> (1 <= L)%nat -> ~ battery_capacity cfg == 0 ->
  exists p, plan_battery_schedule_rolling (Some lr) [] cfg cur [] today nh L = Some p /\
    hourly_consumption p = repeat (default_fallback lr) L /\
    hourly_pv p = repeat 0 L /\
    hourly_prices p = repeat (3 # 10) L.
Proof.
  intros Hs HL Hc. unfold plan_battery_schedule_rolling.
  destruct (L =? 0)%nat eqn:E0; [apply Nat.eqb_eq in E0; lia|].
  assert (Hf : forecasts lr [] [] today nh L
                = (repeat (default_fallback lr) L, repeat 0 L, repeat (3 # 10) L)).
  { unfold forecasts. f_equal; [f_equal|]; apply map_const_seq; intros i;
      [apply average_empty_store, Hs|apply pv_for_empty|reflexivity]. }
  rewrite Hf.
  unfold plan_core, cap.
  destruct (Qeq_bool (battery_capacity cfg) 0) eqn:Eq.
  { apply Qeq_bool_eq in Eq. contradiction. }
  simpl andb. cbv iota.
  assert (Hp : peaks L (repeat (3 # 10) L) = []).
  { unfold peaks. rewrite expensive_hours_flat; reflexivity. }
  destruct (charging_plan_no_peaks cfg cur L (repeat 0 L) (repeat (default_fallback lr) L)
              (repeat (3 # 10) L) Hp) as [[hc wins] Hcp].
  rewrite Hcp. eexists. split; [reflexivity|]. auto.
Qed.

Lemma empty_collaborators_fallback_plan_witness :
  exists p, plan_battery_schedule_rolling (Some (mkLearner [] 1)) [] peak_cfg 50 [] today 0 24
              = Some p /\
    hourly_consumption p = repeat 1 24 /\ hourly_pv p = repeat 0 24 /\
    hourly_prices p = repeat (3 # 10) 24.
Proof.
  apply (empty_collaborators_fallback_plan (mkLearner [] 1) peak_cfg 50 today 0 24).
  - reflexivity.
  - lia.
  - vm_compute. discriminate.
Defined.

End Claims.

(** ** Further properties of the code *)

Module Extra.

Import Learner Planner Optimizer LearnerOps StoreOps Spec Inputs Facts.

(** *** Helpers *)



Lemma hours_until_spec lr target m : (0 <= target < 24)%Z ->
  forall position total, Z.of_nat m = ((target - position) mod 24)%Z ->
  (forall fuel, (m < fuel)%nat -> exists v, hours_until lr target total position fuel = Some v /\
     v == total + qsum (map (fun k => hour_value lr (position + Z.of_nat k)) (seq 0 m))) /\
  (forall fuel, (fuel <= m)%nat -> hours_until lr target total position fuel = None).
Proof.
  intros Ht. induction m as [|m IH]; intros position total Hm.
  - assert (Hp : (position mod 24 = target)%Z).
    { assert (H0 : ((target - position) mod 24 = 0)%Z) by lia.
      apply Z.mod_divide in H0; [|lia]. destruct H0 as [q Hq].
      Z.div_mod_to_equations. lia. }
    split.
    + intros [|fuel] Hf; [lia|]. simpl. rewrite Hp, Z.eqb_refl.
      eexists. split; [reflexivity|]. simpl. unfold qsum. simpl. ring.
    + intros fuel Hf. assert (fuel = 0%nat) as -> by lia. reflexivity.
  - assert (Hp : (position mod 24 <> target)%Z).
    { intros Hp. rewrite <- Hp, Zminus_mod_idemp_l, Z.sub_diag, Zmod_0_l in Hm. lia. }
    assert (Hm' : Z.of_nat m = ((target - (position + 1)) mod 24)%Z).
    { clear -Hm. Z.div_mod_to_equations. lia. }
    destruct (IH (position + 1)%Z (total + hour_value lr position) Hm') as [Hs Hn].
    split.
    + intros [|fuel] Hf; [lia|]. simpl.
      apply Z.eqb_neq in Hp. rewrite Hp.
      destruct (Hs fuel ltac:(lia)) as (v & Hv & Heq).
      exists v. split; [exact Hv|]. rewrite Heq.
      rewrite <- seq_shift, map_map, qsum_cons.
      rewrite Z.add_0_r.
      assert (Hmap : map (fun k => hour_value lr (position + 1 + Z.of_nat k)) (seq 0 m)
                     = map (fun x => hour_value lr (position + Z.of_nat (S x))) (seq 0 m)).
      { apply map_ext. intros k. f_equal. lia. }
      rewrite Hmap. unfold hour_value. ring.
    + intros [|fuel] Hf; [reflexivity|]. simpl.
      apply Z.eqb_neq in Hp. rewrite Hp. apply Hn. lia.
Qed.

Lemma hour_value_local lr date hour k :
  hour_value lr (date * 24 + Z.of_nat hour + 1 + Z.of_nat k)%Z
  = get_average_consumption lr ((hour + S k) mod 24)
      (Some (date + Z.of_nat ((hour + S k) / 24))%Z).
Proof.
  unfold hour_value. f_equal.
  - apply Nat2Z.inj. rewrite Z2Nat.id by (apply Z.mod_pos_bound; lia).
    rewrite Nat2Z.inj_mod. Z.div_mod_to_equations. nia.
  - f_equal. rewrite Nat2Z.inj_div. Z.div_mod_to_equations. nia.
Qed.

Lemma predict_until_value lr target date hour minute :
  (0 <= target < 24)%Z ->
  let n := Z.to_nat ((target - Z.of_nat hour - 1) mod 24) in
  (forall fuel, (n < fuel)%nat ->
     exists v, predict_consumption_until_fuel lr target (date, hour, minute) fuel = Some v /\
       v == get_average_consumption lr hour (Some date)
              * ((60 - inject_Z (Z.of_nat minute)) / 60)
            + qsum (map (fun k => get_average_consumption lr ((hour + k) mod 24)
                                    (Some (date + Z.of_nat ((hour + k) / 24))%Z))
                        (seq 1 n))) /\
  (forall fuel, (fuel <= n)%nat ->
     predict_consumption_until_fuel lr target (date, hour, minute) fuel = None).
Proof.
  intros Ht n.
  assert (Hn : Z.of_nat n = ((target - (date * 24 + Z.of_nat hour + 1)) mod 24)%Z).
  { unfold n. rewrite Z2Nat.id by (apply Z.mod_pos_bound; lia).
    Z.div_mod_to_equations. nia. }
  destruct (hours_until_spec lr target n Ht _
              (0 + get_average_consumption lr hour (Some date)
                   * ((60 - inject_Z (Z.of_nat minute)) / 60)) Hn) as [Hs HN].
  split.
  - intros fuel Hf. destruct (Hs fuel Hf) as (v & Hv & Heq).
    exists v. split; [exact Hv|]. rewrite Heq.
    rewrite <- seq_shift, map_map.
    rewrite (map_ext _ _ (hour_value_local lr date hour)).
    ring.
  - exact HN.
Qed.
Lemma hours_until_diverges lr target : (target < 0 \/ 24 <= target)%Z ->
  forall fuel total position, hours_until lr target total position fuel = None.
Proof.
  intros Ht fuel. induction fuel as [|fuel IH]; intros total position; [reflexivity|].
  simpl. destruct (position mod 24 =? target)%Z eqn:E; [|apply IH].
  apply Z.eqb_eq in E. pose proof (Z.mod_pos_bound position 24 ltac:(lia)). lia.
Qed.

Lemma energy_target_hours hour : (hour < 24)%nat ->
  let target := if (18 <=? hour)%nat then 23%Z else 18%Z in
  (0 <= target < 24)%Z /\
  Z.to_nat ((target - Z.of_nat hour - 1) mod 24)
  = (if (hour <? 18)%nat then 17 - hour else if (hour =? 23)%nat then 23 else 22 - hour)%nat.
Proof.
  intros Hh target. unfold target.
  destruct (18 <=? hour)%nat eqn:E1, (hour <? 18)%nat eqn:E2;
    try (apply Nat.leb_le in E1; apply Nat.ltb_lt in E2; lia);
    try (apply Nat.leb_gt in E1; apply Nat.ltb_ge in E2; lia).
  - apply Nat.leb_le in E1. split; [lia|].
    destruct (hour =? 23)%nat eqn:E3.
    + apply Nat.eqb_eq in E3. subst. reflexivity.
    + apply Nat.eqb_neq in E3. rewrite Z.mod_small by lia. lia.
  - apply Nat.leb_gt in E1. split; [lia|]. rewrite Z.mod_small by lia. lia.
Qed.

(** X1: [calculate_charge_start_time] never starts after the charge
    end (for a nonnegative duration per 10 %); it starts at the end when
    the SOC already reaches the target, and otherwise
    [(target - current) / 10 * charge_duration_per_10] minutes before. *)
Theorem charge_start_not_after_end o charge_end current_soc target_soc :
  0 <= charge_duration_per_10 o ->
  calculate_charge_start_time o charge_end current_soc target_soc <= charge_end /\
  (target_soc <= current_soc ->
     calculate_charge_start_time o charge_end current_soc target_soc = charge_end) /\
  (current_soc < target_soc ->
     charge_end - calculate_charge_start_time o charge_end current_soc target_soc
     == (target_soc - current_soc) / 10 * charge_duration_per_10 o).
Proof.
  intros Hd. unfold calculate_charge_start_time.
  destruct (Qle_bool (target_soc - current_soc) 0) eqn:E.
  - apply Qle_bool_iff in E. split; [apply Qle_refl|]. split; [reflexivity|].
    intros H. exfalso. apply (Qlt_not_le _ _ H).
    apply Qplus_le_l with (- current_soc). ring_simplify. ring_simplify in E. exact E.
  - assert (Hp : 0 < target_soc - current_soc).
    { apply Qnot_le_lt. intros H. apply Qle_bool_iff in H. congruence. }
    split; [|split].
    + assert (Hx : 0 <= (target_soc - current_soc) / 10 * charge_duration_per_10 o).
      { apply Qmult_le_0_compat; [|exact Hd].
        apply Qle_shift_div_l; [reflexivity|]. ring_simplify. apply Qlt_le_weak, Hp. }
      apply Qle_trans with (charge_end - 0).
      * apply Qplus_le_r. apply Qopp_le_compat. exact Hx.
      * apply Qle_lteq. right. ring.
    + intros H. exfalso. apply (Qlt_not_le _ _ Hp).
      apply Qplus_le_l with current_soc. ring_simplify. exact H.
    + intros _. ring.
Qed.

Lemma charge_start_not_after_end_witness :
  0 <= charge_duration_per_10 (init_optimizer None None None) /\
  calculate_charge_start_time (init_optimizer None None None) 600 45 95 <= 600 /\
  600 - calculate_charge_start_time (init_optimizer None None None) 600 45 95 == 90.
Proof.
  assert (Hd : 0 <= charge_duration_per_10 (init_optimizer None None None))
    by (vm_compute; discriminate).
  destruct (charge_start_not_after_end (init_optimizer None None None) 600 45 95 Hd)
    as (H1 & _ & H3).
  split; [exact Hd|]. split; [exact H1|].
  rewrite (H3 ltac:(reflexivity)). reflexivity.
Defined.


(** X3: [predict_consumption_until] never returns when the target hour
    is outside 0..23 (the loop never meets it); otherwise it returns,
    after exactly [n + 1] tests with [n = (target - hour - 1) mod 24],
    the current hour's average times the remaining fraction plus the
    averages of the [n] following hours (a target equal to the current
    hour gives 23 full hours). *)
Theorem predict_consumption_until_horizon lr target date hour minute :
  ((target < 0 \/ 24 <= target)%Z ->
     forall fuel, predict_consumption_until_fuel lr target (date, hour, minute) fuel = None) /\
  ((0 <= target < 24)%Z ->
   let n := Z.to_nat ((target - Z.of_nat hour - 1) mod 24) in
   (forall fuel, (n < fuel)%nat ->
      exists v, predict_consumption_until_fuel lr target (date, hour, minute) fuel = Some v /\
        v == get_average_consumption lr hour (Some date)
               * ((60 - inject_Z (Z.of_nat minute)) / 60)
             + qsum (map (fun k => get_average_consumption lr ((hour + k) mod 24)
                                     (Some (date + Z.of_nat ((hour + k) / 24))%Z))
                         (seq 1 n))) /\
   (forall fuel, (fuel <= n)%nat ->
      predict_consumption_until_fuel lr target (date, hour, minute) fuel = None)).
Proof.
  split.
  - intros Ht fuel. apply hours_until_diverges, Ht.
  - intros Ht. apply predict_until_value, Ht.
Qed.

Lemma predict_consumption_until_horizon_witness :
  (exists v, predict_consumption_until_fuel profile_learner 5 (today, 5%nat, 30%nat) 24 = Some v) /\
  predict_consumption_until_fuel profile_learner 5 (today, 5%nat, 30%nat) 23 = None /\
  predict_consumption_until_fuel profile_learner 24 (today, 5%nat, 30%nat) 1000 = None.
Proof.
  destruct (predict_consumption_until_horizon profile_learner 5 today 5 30) as [Hd Hr].
  destruct (Hr ltac:(lia)) as [Hs HN].
  split; [|split].
  - destruct (Hs 24%nat ltac:(apply Nat.ltb_lt; reflexivity)) as (v & Hv & _). exists v. exact Hv.
  - apply HN. apply Nat.leb_le. reflexivity.
  - destruct (predict_consumption_until_horizon profile_learner 24 today 5 30) as [Hd' _].
    apply Hd'. lia.
Defined.

(** X4: [predict_energy_deficit] without a learner answers
    [(pv < 5, max(0, 5 - pv))]; with one, it compares [pv_remaining] with
    the consumption predicted up to 18:00 (before 18:00) or 23:00 (from
    18:00), i.e. over [17 - hour] full hours, [22 - hour] full hours, or
    at 23:xx over 23 full hours of the next day, and answers
    [(deficit > 0.5, max(0, deficit))]. *)
Theorem predict_energy_deficit_horizon o date hour minute pv :
  (consumption_learner o = None ->
     predict_energy_deficit o (date, hour, minute) pv None
     = Some (qltb pv 5, qmax 0 (5 - pv))) /\
  (forall lr, consumption_learner o = Some lr -> (hour < 24)%nat ->
   let n := (if (hour <? 18)%nat then 17 - hour
             else if (hour =? 23)%nat then 23 else 22 - hour)%nat in
   exists predicted,
     predict_energy_deficit o (date, hour, minute) pv None
     = Some (qltb (1 # 2) (predicted - pv), qmax 0 (predicted - pv)) /\
     predicted == get_average_consumption lr hour (Some date)
                    * ((60 - inject_Z (Z.of_nat minute)) / 60)
                  + qsum (map (fun k => get_average_consumption lr ((hour + k) mod 24)
                                          (Some (date + Z.of_nat ((hour + k) / 24))%Z))
                              (seq 1 n))).
Proof.
  split.
  { intros H. unfold predict_energy_deficit. rewrite H. reflexivity. }
  intros lr Hlr Hh n.
  destruct (energy_target_hours hour Hh) as [Ht Hn].
  set (target := if (18 <=? hour)%nat then 23%Z else 18%Z) in *.
  destruct (predict_until_value lr target date hour minute Ht) as [Hs _].
  assert (Hlt : (Z.to_nat ((target - Z.of_nat hour - 1) mod 24) < 24)%nat).
  { rewrite Hn. destruct (hour <? 18)%nat; [lia|]. destruct (hour =? 23)%nat; lia. }
  destruct (Hs 24%nat Hlt) as (v & Hv & Heq).
  exists v. unfold predict_energy_deficit. rewrite Hlr. cbn [get_or snd fst].
  fold target. rewrite Hv. split; [reflexivity|].
  rewrite Heq, Hn. reflexivity.
Qed.

Lemma predict_energy_deficit_horizon_witness :
  exists predicted,
    predict_energy_deficit (set_consumption_learner (init_optimizer None None None)
                              (Some profile_learner)) (today, 23%nat, 0%nat) 1 None
    = Some (qltb (1 # 2) (predicted - 1), qmax 0 (predicted - 1)) /\
    predicted == 1 + qsum (map (fun k => get_average_consumption profile_learner ((23 + k) mod 24)
                                   (Some (today + Z.of_nat ((23 + k) / 24))%Z))
                               (seq 1 23)).
Proof.
  destruct (proj2 (predict_energy_deficit_horizon
                     (set_consumption_learner (init_optimizer None None None) (Some profile_learner))
                     today 23 0 1) profile_learner eq_refl ltac:(lia)) as (p & Hp & Heq).
  exists p. split; [exact Hp|]. rewrite Heq. vm_compute. reflexivity.
Defined.


Lemma fold_pair_sums (f g : nat -> Q) l a b :
  fst (fold_left (fun acc i => (fst acc + f i, snd acc + g i)) l (a, b)) == a + qsum (map f l) /\
  snd (fold_left (fun acc i => (fst acc + f i, snd acc + g i)) l (a, b)) == b + qsum (map g l).
Proof.
  revert a b. induction l as [|x t IH]; intros a b; simpl.
  - unfold qsum. simpl. split; ring.
  - destruct (IH (a + f x) (b + g x)) as [H1 H2].
    rewrite H1, H2, !qsum_cons. split; ring.
Qed.

Lemma deficit_flag d : (qltb (1 # 2) d = true <-> 1 # 2 < qmax 0 d) /\ 0 <= qmax 0 d.
Proof.
  split; [|apply qmax_ge_l]. rewrite qltb_true. split; intros H.
  - eapply Qlt_le_trans; [exact H | apply qmax_ge_r].
  - destruct (qmax_cases 0 d) as [[_ E]|[_ E]]; rewrite E in H; [exact H|].
    exfalso. discriminate H.
Qed.

(** X5: [predict_short_term_deficit] flags a deficit exactly when the
    returned amount exceeds 0.5 kWh, never returns a negative amount,
    returns [(false, 0)] without a learner or without PV forecast, and
    otherwise returns [max(0, consumption - pv)] summed over the
    [lookahead_hours] hours from [current_hour] (wrapping into the next
    days), hours missing from the forecast counting 0 kWh of PV. *)
Theorem short_term_deficit_sum o pv_forecast today current_hour lookahead_hours :
  (fst (predict_short_term_deficit o pv_forecast today current_hour lookahead_hours) = true
   <-> 1 # 2 < snd (predict_short_term_deficit o pv_forecast today current_hour lookahead_hours)) /\
  0 <= snd (predict_short_term_deficit o pv_forecast today current_hour lookahead_hours) /\
  ((consumption_learner o = None \/ pv_forecast = []) ->
     predict_short_term_deficit o pv_forecast today current_hour lookahead_hours = (false, 0)) /\
  (forall lr, consumption_learner o = Some lr -> pv_forecast <> [] ->
     snd (predict_short_term_deficit o pv_forecast today current_hour lookahead_hours)
     == qmax 0 (qsum (map (fun i => get_average_consumption lr ((current_hour + i) mod 24)
                                      (Some (today + Z.of_nat ((current_hour + i) / 24))%Z))
                          (seq 0 lookahead_hours))
                - qsum (map (fun i => get_or (lookup ((current_hour + i) mod 24) pv_forecast) 0)
                            (seq 0 lookahead_hours)))).
Proof.
  unfold predict_short_term_deficit.
  destruct (consumption_learner o) as [lr|] eqn:Hl.
  2: { split; [split; intros H; discriminate H|]. split; [apply Qle_refl|].
       split; [reflexivity|]. intros lr H; discriminate H. }
  destruct pv_forecast as [|e pv'].
  { split; [split; intros H; discriminate H|]. split; [apply Qle_refl|].
    split; [reflexivity|]. intros lr' _ H; congruence. }
  set (T := fold_left _ _ _).
  destruct (deficit_flag (fst T - snd T)) as [Hf Hz].
  split; [exact Hf|]. split; [exact Hz|]. split.
  { intros [H|H]; discriminate H. }
  intros lr' H _. injection H as <-.
  assert (HT : fst T == 0 + qsum (map (fun i => get_average_consumption lr ((current_hour + i) mod 24)
                                       (Some (today + Z.of_nat ((current_hour + i) / 24))%Z))
                                    (seq 0 lookahead_hours)) /\
               snd T == 0 + qsum (map (fun i => get_or (lookup ((current_hour + i) mod 24) (e :: pv')) 0)
                                    (seq 0 lookahead_hours))).
  { unfold T, range. rewrite Nat.sub_0_r. apply fold_pair_sums. }
  destruct HT as [H1 H2]. simpl snd. apply qmax_compat; [reflexivity|].
  rewrite H1, H2. ring.
Qed.

Lemma short_term_deficit_sum_witness :
  snd (predict_short_term_deficit
         (set_consumption_learner (init_optimizer None None None) (Some profile_learner))
         (pv48_of [0; 0; 0; 1; 1; 0]) today 3 3)
  == qmax 0 (qsum (map (fun i => get_average_consumption profile_learner ((3 + i) mod 24)
                                   (Some (today + Z.of_nat ((3 + i) / 24))%Z)) (seq 0 3))
             - qsum (map (fun i => get_or (lookup ((3 + i) mod 24) (pv48_of [0; 0; 0; 1; 1; 0])) 0)
                         (seq 0 3))).
Proof.
  destruct (short_term_deficit_sum
              (set_consumption_learner (init_optimizer None None None) (Some profile_learner))
              (pv48_of [0; 0; 0; 1; 1; 0]) today 3 3) as (_ & _ & _ & H).
  apply H; [reflexivity | simpl; discriminate].
Defined.

Lemma first_fold_lookup (l : list Row) : forall (d : list (nat * Q)) h,
  lookup h (fold_left (fun d r => match lookup (r_hour r) d with
                                  | Some _ => d
                                  | None => d ++ [(r_hour r, r_kwh r)]
                                  end) l d)
  = match lookup h d with
    | Some v => Some v
    | None => option_map r_kwh (find (fun r => (r_hour r =? h)%nat) l)
    end.
Proof.
  induction l as [|x t IH]; intros d h; simpl.
  - destruct (lookup h d); reflexivity.
  - rewrite IH. destruct (lookup (r_hour x) d) as [w|] eqn:Ex.
    + destruct (r_hour x =? h)%nat eqn:E; [|reflexivity].
      apply Nat.eqb_eq in E. rewrite <- E, Ex. reflexivity.
    + rewrite lookup_app. destruct (lookup h d) as [v|] eqn:Eh; [reflexivity|].
      rewrite (Nat.eqb_sym h (r_hour x)). destruct (r_hour x =? h)%nat; reflexivity.
Qed.

Lemma lookup_none_notin {V} k (d : list (nat * V)) : lookup k d = None -> ~ In k (map fst d).
Proof.
  induction d as [|[k' v] t IH]; simpl; [auto|].
  destruct (k =? k')%nat eqn:E; [discriminate|]. apply Nat.eqb_neq in E.
  intros H [H'|H']; [congruence|]. exact (IH H H').
Qed.

Lemma first_fold_nodup (l : list Row) : forall (d : list (nat * Q)),
  NoDup (map fst d) ->
  NoDup (map fst (fold_left (fun d r => match lookup (r_hour r) d with
                                        | Some _ => d
                                        | None => d ++ [(r_hour r, r_kwh r)]
                                        end) l d)).
Proof.
  induction l as [|x t IH]; intros d Hd; simpl; [exact Hd|].
  apply IH. destruct (lookup (r_hour x) d) eqn:E; [exact Hd|].
  rewrite map_app. simpl. apply Permutation_NoDup with (r_hour x :: map fst d).
  - apply Permutation_cons_append.
  - constructor; [apply lookup_none_notin, E | exact Hd].
Qed.

Lemma find_first_sorted {A} (R : A -> A -> Prop) (p : A -> bool) l x :
  StronglySorted R l -> find p l = Some x ->
  In x l /\ p x = true /\ forall y, In y l -> p y = true -> y = x \/ R x y.
Proof.
  induction l as [|a t IH]; simpl; intros Hs Hf; [discriminate|].
  inversion Hs as [|? ? Ht Hall]; subst.
  destruct (p a) eqn:Ea.
  - injection Hf as <-. split; [left; reflexivity|]. split; [exact Ea|].
    intros y [Hy|Hy] _; [left; symmetry; exact Hy|].
    right. rewrite Forall_forall in Hall. apply Hall, Hy.
  - destruct (IH Ht Hf) as (Hx & Hp & Hy). split; [right; exact Hx|]. split; [exact Hp|].
    intros y [<-|Hy'] Hpy; [congruence|]. apply Hy; assumption.
Qed.

Lemma find_none_forall {A} (p : A -> bool) l : find p l = None -> forall y, In y l -> p y = false.
Proof.
  induction l as [|a t IH]; simpl; intros Hf y Hy; [contradiction|].
  destruct (p a) eqn:Ea; [discriminate|]. destruct Hy as [<-|Hy]; [exact Ea|]. apply IH; assumption.
Qed.

(** X6: [get_today_consumption] gives each hour once; an hour is in
    the result exactly when the table has a row of that date and hour,
    and its value is the consumption of such a row with the latest
    [created_at]. *)
Theorem today_consumption_latest lr date :
  NoDup (map fst (get_today_consumption lr date)) /\
  (forall h, lookup h (get_today_consumption lr date) = None <->
             ~ exists r, In r (store lr) /\ r_date r = date /\ r_hour r = h) /\
  (forall h v, lookup h (get_today_consumption lr date) = Some v ->
     exists r, In r (store lr) /\ r_date r = date /\ r_hour r = h /\ r_kwh r = v /\
       forall r', In r' (store lr) -> r_date r' = date -> r_hour r' = h ->
                  (r_created r' <= r_created r)%Z).
Proof.
  set (rows := filter (fun r => (r_date r =? date)%Z) (store lr)).
  set (ordered := sort_by (fun r => - inject_Z (r_created r)) rows).
  assert (Hin : forall r, In r ordered <-> In r (store lr) /\ r_date r = date).
  { intros r. split; intros H.
    - apply (Permutation_in _ (sort_by_perm _ rows)) in H.
      apply filter_In in H as [H1 H2]. apply Z.eqb_eq in H2. auto.
    - apply (Permutation_in _ (Permutation_sym (sort_by_perm _ rows))).
      apply filter_In. destruct H as [H1 H2]. split; [exact H1|]. apply Z.eqb_eq, H2. }
  assert (Hlk : forall h, lookup h (get_today_consumption lr date)
                          = option_map r_kwh (find (fun r => (r_hour r =? h)%nat) ordered)).
  { intros h. unfold get_today_consumption. fold rows. fold ordered.
    rewrite first_fold_lookup. reflexivity. }
  split.
  { unfold get_today_consumption. apply first_fold_nodup. constructor. }
  split.
  - intros h. rewrite Hlk. split.
    + intros H (r & Hr & Hd & Hh).
      destruct (find _ ordered) eqn:Ef; [discriminate|].
      assert (Hr' : In r ordered) by (apply Hin; auto).
      pose proof (find_none_forall _ _ Ef r Hr') as Hf. simpl in Hf.
      apply Nat.eqb_neq in Hf. contradiction.
    + intros H. destruct (find _ ordered) as [x|] eqn:Ef; [|reflexivity].
      exfalso. apply H. destruct (find_some _ _ Ef) as [Hx Hp].
      apply Hin in Hx as [Hx Hd]. apply Nat.eqb_eq in Hp. exists x. auto.
  - intros h v H. rewrite Hlk in H.
    destruct (find _ ordered) as [x|] eqn:Ef; [|discriminate]. injection H as <-.
    assert (Hss : StronglySorted (key_le (fun r => - inject_Z (r_created r))) ordered).
    { apply Sorted_StronglySorted; [|apply sort_by_sorted].
      intros a b c. unfold key_le. apply Qle_trans. }
    destruct (find_first_sorted _ _ _ _ Hss Ef) as (Hx & Hp & Hy).
    apply Hin in Hx as [Hx Hd]. apply Nat.eqb_eq in Hp.
    exists x. split; [exact Hx|]. split; [exact Hd|]. split; [exact Hp|]. split; [reflexivity|].
    intros r' Hr' Hd' Hh'.
    destruct (Hy r' ltac:(apply Hin; auto) ltac:(apply Nat.eqb_eq; exact Hh')) as [->|Hk];
      [lia|].
    unfold key_le in Hk. apply Qopp_le_compat in Hk. rewrite !Qopp_opp in Hk.
    rewrite <- Zle_Qle in Hk. exact Hk.
Qed.

Lemma today_consumption_latest_witness :
  lookup 3 (get_today_consumption latest_learner today) = Some 4 /\
  exists r, In r (store latest_learner) /\ r_kwh r = 4 /\
    forall r', In r' (store latest_learner) -> r_date r' = today -> r_hour r' = 3%nat ->
               (r_created r' <= r_created r)%Z.
Proof.
  assert (H : lookup 3 (get_today_consumption latest_learner today) = Some 4)
    by (vm_compute; reflexivity).
  split; [exact H|].
  destruct (today_consumption_latest latest_learner today) as (_ & _ & Hv).
  destruct (Hv 3%nat 4 H) as (r & Hr & _ & _ & Hk & Hmax).
  exists r. auto.
Defined.

Lemma insert_or_replace_keep_key st r x :
  In x st -> same_key x r = false -> In x (insert_or_replace st r).
Proof.
  intros Hx Hk. unfold insert_or_replace. apply in_or_app. left.
  apply filter_In. rewrite Hk. auto.
Qed.

Lemma same_key_other_date x date h c now :
  r_date x <> date -> same_key x (mkRow date h None c true now) = false.
Proof.
  intros Hd. unfold same_key. simpl. destruct (r_date x =? date)%Z eqn:E; [|reflexivity].
  apply Z.eqb_eq in E. contradiction.
Qed.

Lemma same_key_other_hour x date h c now :
  r_hour x <> h -> same_key x (mkRow date h None c true now) = false.
Proof.
  intros Hh. unfold same_key. simpl. destruct (r_hour x =? h)%nat eqn:E.
  - apply Nat.eqb_eq in E. contradiction.
  - rewrite andb_false_r. reflexivity.
Qed.

Lemma manual_hours_none profile now date hs : forall st,
  manual_hours profile now date hs st = None <-> exists h, In h hs /\ manual_value profile h = None.
Proof.
  induction hs as [|h t IH]; intros st; cbn [manual_hours].
  - split; [discriminate|]. intros (h & [] & _).
  - destruct (manual_value profile h) as [c|] eqn:E.
    + rewrite IH. split.
      * intros (h' & Hin & Hv). exists h'. split; [right; exact Hin|exact Hv].
      * intros (h' & [<-|Hin] & Hv); [congruence|]. exists h'. split; [exact Hin|exact Hv].
    + split; [intros _; exists h; split; [left; reflexivity|exact E]|reflexivity].
Qed.

Lemma manual_hours_spec profile now date hs : forall st st',
  manual_hours profile now date hs st = Some st' ->
  (forall x, In x st -> (r_date x <> date \/ ~ In (r_hour x) hs) -> In x st') /\
  (NoDup hs -> forall h, In h hs ->
     exists c, manual_value profile h = Some c /\ In (mkRow date h None c true now) st').
Proof.
  induction hs as [|h t IH]; intros st st' Hm; cbn [manual_hours] in Hm.
  - injection Hm as <-. split; [auto|]. intros _ h [].
  - destruct (manual_value profile h) as [c|] eqn:E; [|discriminate].
    destruct (IH _ _ Hm) as [Hk Hs]. split.
    + intros x Hx Hc. apply Hk.
      * apply insert_or_replace_keep_key; [exact Hx|].
        destruct Hc as [Hc|Hc]; [apply same_key_other_date, Hc|].
        apply same_key_other_hour. intros Heq. apply Hc. left. symmetry. exact Heq.
      * destruct Hc as [Hc|Hc]; [left; exact Hc|]. right. intros H. apply Hc. right. exact H.
    + intros Hnd h' Hin. inversion Hnd as [|? ? Hnot Hnd']; subst.
      destruct Hin as [<-|Hin]; [|apply Hs; assumption].
      exists c. split; [exact E|]. apply Hk; [apply insert_or_replace_new|].
      right. exact Hnot.
Qed.

Lemma manual_days_keep profile now start days : forall st st' x,
  manual_days profile now start days st = Some st' -> In x st ->
  (forall d, In d days -> r_date x <> (start + Z.of_nat d)%Z) -> In x st'.
Proof.
  induction days as [|d t IH]; intros st st' x Hm Hx Hd; cbn [manual_days] in Hm.
  - injection Hm as <-. exact Hx.
  - destruct (manual_hours profile now (start + Z.of_nat d)%Z (range 0 24) st) as [st1|] eqn:E;
      [|discriminate].
    apply (IH st1); [exact Hm| |intros d' Hin; apply Hd; right; exact Hin].
    apply (proj1 (manual_hours_spec _ _ _ _ _ _ E) x Hx). left. apply Hd. left. reflexivity.
Qed.

Lemma manual_days_spec profile now start days : forall st st',
  manual_days profile now start days st = Some st' -> NoDup days ->
  forall d h, In d days -> (h < 24)%nat ->
    exists c, manual_value profile h = Some c /\
      In (mkRow (start + Z.of_nat d) h None c true now) st'.
Proof.
  induction days as [|d0 t IH]; intros st st' Hm Hnd d h Hin Hh; cbn [manual_days] in Hm;
    [destruct Hin|].
  destruct (manual_hours profile now (start + Z.of_nat d0)%Z (range 0 24) st) as [st1|] eqn:E;
    [|discriminate].
  inversion Hnd as [|? ? Hnot Hnd']; subst.
  destruct Hin as [<-|Hin]; [|exact (IH _ _ Hm Hnd' d h Hin Hh)].
  destruct (proj2 (manual_hours_spec _ _ _ _ _ _ E) (seq_NoDup _ _) h
              ltac:(apply in_range; lia)) as (c & Hc & Hr).
  exists c. split; [exact Hc|].
  apply (manual_days_keep _ _ _ _ _ _ _ Hm Hr).
  intros d' Hd' Heq. simpl in Heq. apply Hnot.
  assert (d0 = d') by lia. subst. exact Hd'.
Qed.

Lemma manual_days_none profile now start days : forall st,
  manual_days profile now start days st = None <->
  days <> [] /\ exists h, (h < 24)%nat /\ manual_value profile h = None.
Proof.
  induction days as [|d t IH]; intros st; cbn [manual_days].
  - split; [discriminate|]. intros [H _]. congruence.
  - destruct (manual_hours profile now (start + Z.of_nat d)%Z (range 0 24) st) as [st1|] eqn:E.
    + rewrite IH. split.
      * intros [_ H]. split; [discriminate|exact H].
      * intros [_ (h & Hh & Hv)]. exfalso.
        assert (Hn : manual_hours profile now (start + Z.of_nat d)%Z (range 0 24) st = None).
        { apply manual_hours_none. exists h. split; [apply in_range; lia|exact Hv]. }
        congruence.
    + split; [|reflexivity]. intros _. split; [discriminate|].
      apply manual_hours_none in E as (h & Hin & Hv). apply in_range in Hin.
      exists h. split; [lia|exact Hv].
Qed.

(** X7: [add_manual_profile] fails (rolling back) exactly when
    [learning_days] is positive and the value of some hour's key is not
    a number; otherwise, for each of the [learning_days] days from
    [today - learning_days] and each hour, the table holds the manual
    row of that date and hour with the profile's value, 0.2 kWh for a
    hour whose key [str(hour)] is missing. *)
Theorem manual_profile_rows lr learning_days today now profile :
  (add_manual_profile lr learning_days today now profile = None <->
     learning_days <> 0%nat /\
     exists h, (h < 24)%nat /\ lookup_str (str_hour h) profile = Some None) /\
  (forall lr', add_manual_profile lr learning_days today now profile = Some lr' ->
     default_fallback lr' = default_fallback lr /\
     forall d h, (d < learning_days)%nat -> (h < 24)%nat ->
       exists c, In (mkRow (today - Z.of_nat learning_days + Z.of_nat d) h None c true now)
                    (store lr') /\
                 match lookup_str (str_hour h) profile with
                 | None => c = 2 # 10
                 | Some v => v = Some c
                 end).
Proof.
  unfold add_manual_profile.
  assert (Hmv : forall h c, manual_value profile h = Some c ->
                  match lookup_str (str_hour h) profile with
                  | None => c = 2 # 10
                  | Some v => v = Some c
                  end).
  { intros h c. unfold manual_value. destruct (lookup_str (str_hour h) profile) as [v|].
    - auto.
    - intros H. injection H as <-. reflexivity. }
  split.
  - destruct (manual_days _ _ _ _ _) as [st|] eqn:E.
    + split; [discriminate|]. intros [Hl (h & Hh & Hv)]. exfalso.
      assert (Hn : manual_days profile now (today - Z.of_nat learning_days)%Z
                     (range 0 learning_days) (store lr) = None).
      { apply manual_days_none. split.
        - unfold range. destruct learning_days; [contradiction|discriminate].
        - exists h. split; [exact Hh|]. unfold manual_value. rewrite Hv. reflexivity. }
      congruence.
    + split; [intros _|reflexivity].
      apply manual_days_none in E as [Hne (h & Hh & Hv)]. split.
      * intros ->. apply Hne. reflexivity.
      * exists h. split; [exact Hh|]. unfold manual_value in Hv.
        destruct (lookup_str (str_hour h) profile) as [v|]; [congruence|discriminate].
  - intros lr' H. destruct (manual_days _ _ _ _ _) as [st|] eqn:E; [|discriminate].
    injection H as <-. split; [reflexivity|]. intros d h Hd Hh.
    destruct (manual_days_spec _ _ _ _ _ _ E (seq_NoDup _ _) d h
                ltac:(apply in_range; lia) Hh) as (c & Hc & Hr).
    exists c. split; [exact Hr|]. apply Hmv, Hc.
Qed.

Lemma manual_profile_rows_witness :
  exists lr', add_manual_profile profile_learner 2 today 0 manual_profile_07 = Some lr' /\
    In (mkRow (today - 2 + 1) 7 None (2 # 10) true 0) (store lr') /\
    In (mkRow (today - 2 + 0) 3 None 1 true 0) (store lr') /\
    add_manual_profile profile_learner 2 today 0 [(str_hour 5, None)] = None.
Proof.
  destruct (manual_profile_rows profile_learner 2 today 0 manual_profile_07) as [_ Hs].
  destruct (add_manual_profile profile_learner 2 today 0 manual_profile_07) as [lr'|] eqn:E.
  2: { exfalso. vm_compute in E. discriminate E. }
  destruct (Hs lr' eq_refl) as [_ Hrow].
  exists lr'. split; [reflexivity|]. split; [|split].
  - destruct (Hrow 1%nat 7%nat ltac:(lia) ltac:(lia)) as (c & Hin & Hc).
    vm_compute in Hc. subst c. exact Hin.
  - destruct (Hrow 0%nat 3%nat ltac:(lia) ltac:(lia)) as (c & Hin & Hc).
    vm_compute in Hc. injection Hc as <-. exact Hin.
  - destruct (manual_profile_rows profile_learner 2 today 0 [(str_hour 5, None)]) as [Hn _].
    apply Hn. split; [discriminate|]. exists 5%nat. split; [lia|]. reflexivity.
Defined.

Lemma csv_hours_full cells hs :
  length (csv_hours cells hs) = length hs <->
  forall h, In h hs -> exists v, nth h cells None = Some (Some v).
Proof.
  induction hs as [|h t IH]; simpl.
  - split; [intros _ h []|reflexivity].
  - destruct (nth h cells None) as [[v|]|] eqn:E; simpl.
    + split.
      * intros H h' [<-|Hin]; [exists v; exact E|]. apply IH; [lia|exact Hin].
      * intros H. f_equal. apply IH. intros h' Hin. apply H. right. exact Hin.
    + split; [discriminate|]. intros H. destruct (H h (or_introl eq_refl)) as [v Hv]. congruence.
    + split; [discriminate|]. intros H. destruct (H h (or_introl eq_refl)) as [v Hv]. congruence.
Qed.

Lemma csv_hours_le cells hs : (length (csv_hours cells hs) <= length hs)%nat.
Proof.
  induction hs as [|h t IH]; simpl; [lia|].
  destruct (nth h cells None) as [[v|]|]; simpl; lia.
Qed.

Lemma csv_days_accepted rows :
  Forall (fun d => day_accepted d = true /\ hours_inserted d = 24%nat) (csv_days rows).
Proof.
  induction rows as [|r t IH]; simpl; [constructor|].
  destruct (csv_day r) as [d|] eqn:E; [|exact IH]. constructor; [|exact IH].
  unfold csv_day in E. destruct (csv_date r) as [| |date]; try discriminate.
  set (hs := csv_hours (csv_cells r) (range 0 24)) in E. clearbody hs.
  destruct (length hs =? 24)%nat eqn:L; [|discriminate].
  injection E as <-. apply Nat.eqb_eq in L.
  unfold day_accepted, hours_inserted; cbn [de_date de_hours]. rewrite length_map, L.
  cbn [Nat.eqb andb]. split.
  - clear L. induction hs; simpl; auto.
  - rewrite <- L. clear L. induction hs; simpl; auto.
Qed.

Lemma csv_days_length rows :
  length (csv_days rows) = length (filter (fun r => is_some (csv_day r)) rows).
Proof.
  induction rows as [|r t IH]; simpl; [reflexivity|].
  destruct (csv_day r); simpl; auto.
Qed.

Lemma list_sum_map_24 (f : DayEntry -> nat) l :
  Forall (fun d => f d = 24%nat) l -> list_sum (map f l) = (24 * length l)%nat.
Proof.
  induction 1 as [|d t Hd _ IH]; simpl; [reflexivity|]. rewrite Hd, IH. lia.
Qed.

Lemma filter_accepted_nil l :
  Forall (fun d => day_accepted d = true) l -> filter (fun d => negb (day_accepted d)) l = [].
Proof. induction 1 as [|d t Hd _ IH]; simpl; [reflexivity|]. rewrite Hd. exact IH. Qed.

(** X8: [import_from_csv] counts as imported days exactly the rows
    whose date parses and whose cells [h0] to [h23] are all numbers,
    imports 24 hours for each of them, never reports a skipped day,
    succeeds exactly when some day was imported, and leaves the table
    untouched when none was. *)
Theorem csv_import_counts now st rows :
  csv_imported_days (import_from_csv now st rows)
    = length (filter (fun r => is_some (csv_day r)) rows) /\
  csv_imported_hours (import_from_csv now st rows)
    = (24 * csv_imported_days (import_from_csv now st rows))%nat /\
  csv_skipped_days (import_from_csv now st rows) = 0%nat /\
  csv_success (import_from_csv now st rows)
    = negb (csv_imported_days (import_from_csv now st rows) =? 0)%nat /\
  (csv_imported_days (import_from_csv now st rows) = 0%nat ->
     csv_store (import_from_csv now st rows) = st) /\
  (forall r, is_some (csv_day r) = true <->
     (exists d, csv_date r = DateParsed d) /\
     forall h, (h < 24)%nat -> exists v, nth h (csv_cells r) None = Some (Some v)).
Proof.
  assert (Hrow : forall r, is_some (csv_day r) = true <->
     (exists d, csv_date r = DateParsed d) /\
     forall h, (h < 24)%nat -> exists v, nth h (csv_cells r) None = Some (Some v)).
  { intros r. unfold csv_day. destruct (csv_date r) as [| |d].
    - split; [discriminate|]. intros [[d Hd] _]. discriminate.
    - split; [discriminate|]. intros [[d Hd] _]. discriminate.
    - destruct (length (csv_hours (csv_cells r) (range 0 24)) =? 24)%nat eqn:L; simpl.
      + apply Nat.eqb_eq in L. split; [|reflexivity]. intros _. split; [exists d; reflexivity|].
        intros h Hh. apply (proj1 (csv_hours_full _ _) L). apply in_range. lia.
      + split; [discriminate|]. intros [_ H]. exfalso. apply Nat.eqb_neq in L. apply L.
        assert (Hf : length (csv_hours (csv_cells r) (range 0 24)) = length (range 0 24)).
        { apply csv_hours_full. intros h Hin. apply H. apply in_range in Hin. lia. }
        rewrite Hf. reflexivity. }
  pose proof (csv_days_length rows) as Hlen.
  pose proof (csv_days_accepted rows) as Hacc.
  unfold import_from_csv.
  destruct (csv_days rows) as [|d0 ds] eqn:E; simpl.
  - split; [exact Hlen|]. do 3 (split; [reflexivity|]). split; [intros _; reflexivity|exact Hrow].
  - destruct (import_fold_counts now (d0 :: ds) (mkImport st 0 0)) as [H1 H2].
    cbn zeta in H1, H2. simpl im_imported in H1. simpl im_skipped in H2.
    rewrite list_sum_map_24 in H1 by (eapply Forall_impl; [|exact Hacc]; intros d [_ Hd]; exact Hd).
    rewrite filter_accepted_nil in H2 by (eapply Forall_impl; [|exact Hacc]; intros d [Hd _]; exact Hd).
    simpl in H1, H2. rewrite <- Hlen. simpl length.
    split; [reflexivity|]. split; [simpl in H1; rewrite H1; simpl; lia|].
    split; [exact H2|]. split; [rewrite H2; reflexivity|]. split; [discriminate|exact Hrow].
Qed.

Lemma csv_import_counts_witness :
  csv_imported_days (import_from_csv 0 [] csv_rows) = 1%nat /\
  csv_imported_hours (import_from_csv 0 [] csv_rows) = 24%nat /\
  csv_store (import_from_csv 0 [] (tl csv_rows)) = [].
Proof.
  destruct (csv_import_counts 0 [] csv_rows) as (Hd & Hh & _).
  destruct (csv_import_counts 0 [] (tl csv_rows)) as (Hd' & _ & _ & _ & Hs & _).
  split; [rewrite Hd; reflexivity|]. split; [rewrite Hh, Hd; reflexivity|].
  apply Hs. rewrite Hd'. reflexivity.
Defined.

Lemma lookup_dict_set k h v d :
  lookup k (dict_set h v d) = if (k =? h)%nat then Some v else lookup k d.
Proof.
  induction d as [|[k' v'] t IH]; simpl.
  - destruct (k =? h)%nat; reflexivity.
  - destruct (h =? k')%nat eqn:E.
    + apply Nat.eqb_eq in E. subst. simpl. destruct (k =? k')%nat; reflexivity.
    + simpl. rewrite IH. destruct (k =? k')%nat eqn:E1, (k =? h)%nat eqn:E2; try reflexivity.
      apply Nat.eqb_eq in E1, E2. subst. rewrite Nat.eqb_refl in E. discriminate.
Qed.

Lemma add_entry_kwh day offset d e k :
  get_or (lookup k (add_entry day offset d e)) 0 == get_or (lookup k d) 0 + entry_kwh day offset k e.
Proof.
  unfold add_entry, entry_kwh.
  destruct (wh_time e) as [[date hour]|]; [|simpl; ring].
  destruct (date =? day)%Z; simpl; [|ring].
  destruct (wh_value e) as [w|]; [|simpl; ring].
  unfold add_kwh. rewrite lookup_dict_set.
  destruct (k =? hour + offset)%nat eqn:E; simpl; [|ring].
  apply Nat.eqb_eq in E. subst. reflexivity.
Qed.

Lemma fold_entries_kwh day offset es : forall d k,
  get_or (lookup k (fold_left (add_entry day offset) es d)) 0
  == get_or (lookup k d) 0 + qsum (map (entry_kwh day offset k) es).
Proof.
  induction es as [|e t IH]; intros d k; simpl.
  - unfold qsum. simpl. ring.
  - rewrite IH, add_entry_kwh, qsum_cons. ring.
Qed.

Lemma fold_sensors_raises ha day offset ss :
  fold_left (add_sensor ha day offset) ss Raises = Raises.
Proof. induction ss; simpl; auto. Qed.

Lemma fold_sensors ha day offset ss : forall d,
  (existsb (sensor_raises ha) ss = true ->
     fold_left (add_sensor ha day offset) ss (Returns d) = Raises) /\
  (existsb (sensor_raises ha) ss = false ->
     exists d', fold_left (add_sensor ha day offset) ss (Returns d) = Returns d' /\
       forall k, get_or (lookup k d') 0
                 == get_or (lookup k d) 0 + qsum (map (sensor_kwh ha day offset k) ss)).
Proof.
  induction ss as [|x t IH]; intros d; simpl.
  - split; [discriminate|]. intros _. exists d. split; [reflexivity|]. intros k. unfold qsum. simpl. ring.
  - destruct x as [sx|]; cbn [sensor_raises sensor_kwh add_sensor orb].
    2: { destruct (IH d) as [H1 H2]. split; [exact H1|]. intros Hf.
         destruct (H2 Hf) as (d' & Hd' & Hk). exists d'. split; [exact Hd'|].
         intros k. rewrite Hk, qsum_cons. ring. }
    destruct (ha sx) as [| | |es]; cbn [orb].
    + split; [intros _; apply fold_sensors_raises|discriminate].
    + destruct (IH d) as [H1 H2]. split; [exact H1|]. intros Hf.
      destruct (H2 Hf) as (d' & Hd' & Hk). exists d'. split; [exact Hd'|].
      intros k. rewrite Hk, qsum_cons. ring.
    + destruct (IH d) as [H1 H2]. split; [exact H1|]. intros Hf.
      destruct (H2 Hf) as (d' & Hd' & Hk). exists d'. split; [exact Hd'|].
      intros k. rewrite Hk, qsum_cons. ring.
    + destruct (IH (fold_left (add_entry day offset) es d)) as [H1 H2].
      split; [exact H1|]. intros Hf.
      destruct (H2 Hf) as (d' & Hd' & Hk). exists d'. split; [exact Hd'|].
      intros k. rewrite Hk, fold_entries_kwh, qsum_cons. ring.
Qed.

Lemma sensor_path (ha : String.string -> Attrs) (today : Z) (inc : bool)
    (r1 r2 t1 t2 : option String.string) (e : list (nat * Q)) :
  e = match r1, r2 with
      | None, None => []
      | _, _ =>
          let today_part := fold_left (add_sensor ha today 0) [r1; r2] (Returns []) in
          let all := if inc then fold_left (add_sensor ha (today + 1)%Z 24) [t1; t2] today_part
                     else today_part in
          match all with Returns d => d | Raises => [] end
      end ->
  (r1 = None /\ r2 = None -> e = []) /\
  (~ (r1 = None /\ r2 = None) ->
     existsb (sensor_raises ha) ([r1; r2] ++ if inc then [t1; t2] else []) = true -> e = []) /\
  (~ (r1 = None /\ r2 = None) ->
     existsb (sensor_raises ha) ([r1; r2] ++ if inc then [t1; t2] else []) = false ->
     forall k, get_or (lookup k e) 0
               == qsum (map (sensor_kwh ha today 0 k) [r1; r2])
                  + (if inc then qsum (map (sensor_kwh ha (today + 1)%Z 24 k) [t1; t2]) else 0)).
Proof.
  intros He.
  assert (He' : ~ (r1 = None /\ r2 = None) ->
     e = match (if inc then fold_left (add_sensor ha (today + 1)%Z 24) [t1; t2]
                              (fold_left (add_sensor ha today 0) [r1; r2] (Returns []))
                else fold_left (add_sensor ha today 0) [r1; r2] (Returns [])) with
         | Returns d => d | Raises => [] end).
  { intros Hn. rewrite He. destruct r1, r2; try reflexivity. exfalso. auto. }
  split; [intros [-> ->]; exact He|].
  destruct (fold_sensors ha today 0 [r1; r2] []) as [A1 A2].
  split; intros Hn Hr; rewrite (He' Hn); clear He He'; rewrite existsb_app in Hr.
  - destruct (existsb (sensor_raises ha) [r1; r2]) eqn:R1.
    + rewrite (A1 eq_refl). destruct inc; [rewrite fold_sensors_raises|]; reflexivity.
    + destruct (A2 eq_refl) as (d1 & Hd1 & _). rewrite Hd1.
      destruct inc; [|discriminate].
      destruct (fold_sensors ha (today + 1)%Z 24 [t1; t2] d1) as [B1 _].
      rewrite (B1 Hr). reflexivity.
  - apply orb_false_iff in Hr as [R1 R2].
    destruct (A2 R1) as (d1 & Hd1 & Hk1). rewrite Hd1. intros k.
    destruct inc.
    + destruct (fold_sensors ha (today + 1)%Z 24 [t1; t2] d1) as [_ B2].
      destruct (B2 R2) as (d2 & Hd2 & Hk2). rewrite Hd2, Hk2, Hk1. simpl get_or. ring.
    + rewrite Hk1. simpl get_or. ring.
Qed.

Lemma pv_forecast_no_api api ha config today inc :
  (forall f, api = Some (Returns f) ->
     enable_forecast_solar_api config && planes_configured config = true -> f = []) ->
  get_hourly_pv_forecast api ha config today inc = get_hourly_pv_forecast None ha config today inc.
Proof.
  intros H. unfold get_hourly_pv_forecast at 1. destruct api as [r|]; [|reflexivity].
  destruct (enable_forecast_solar_api config && planes_configured config) eqn:Ef; [|reflexivity].
  destruct r as [[|x f]|]; try reflexivity.
  specialize (H (x :: f) eq_refl eq_refl). discriminate.
Qed.

(** X9: [get_hourly_pv_forecast] returns the Forecast.Solar forecast
    when the API is enabled, planes are configured and it returns a
    non-empty forecast; otherwise it returns an empty dict when no
    today sensor is configured or when reading a configured sensor
    raises, and else gives each hour the sum of [wh / 1000] over the
    sensors' entries of that hour dated today (and, with
    [include_tomorrow], of the tomorrow sensors' entries dated
    tomorrow, at hour + 24). *)
Theorem pv_forecast_sources api ha config today include_tomorrow :
  (forall f, api = Some (Returns f) -> f <> [] ->
     enable_forecast_solar_api config && planes_configured config = true ->
     get_hourly_pv_forecast api ha config today include_tomorrow = f) /\
  ((forall f, api = Some (Returns f) ->
      enable_forecast_solar_api config && planes_configured config = true -> f = []) ->
   (pv_production_today_roof1 config = None /\ pv_production_today_roof2 config = None ->
      get_hourly_pv_forecast api ha config today include_tomorrow = []) /\
   (~ (pv_production_today_roof1 config = None /\ pv_production_today_roof2 config = None) ->
      existsb (sensor_raises ha)
        ([pv_production_today_roof1 config; pv_production_today_roof2 config]
         ++ if include_tomorrow
            then [pv_production_tomorrow_roof1 config; pv_production_tomorrow_roof2 config]
            else []) = true ->
      get_hourly_pv_forecast api ha config today include_tomorrow = []) /\
   (~ (pv_production_today_roof1 config = None /\ pv_production_today_roof2 config = None) ->
      existsb (sensor_raises ha)
        ([pv_production_today_roof1 config; pv_production_today_roof2 config]
         ++ if include_tomorrow
            then [pv_production_tomorrow_roof1 config; pv_production_tomorrow_roof2 config]
            else []) = false ->
      forall k, get_or (lookup k (get_hourly_pv_forecast api ha config today include_tomorrow)) 0
                == qsum (map (sensor_kwh ha today 0 k)
                             [pv_production_today_roof1 config; pv_production_today_roof2 config])
                   + (if include_tomorrow
                      then qsum (map (sensor_kwh ha (today + 1)%Z 24 k)
                                     [pv_production_tomorrow_roof1 config;
                                      pv_production_tomorrow_roof2 config])
                      else 0))).
Proof.
  split.
  { intros f Ha Hne Hf. unfold get_hourly_pv_forecast. rewrite Ha, Hf.
    destruct f; [contradiction|reflexivity]. }
  intros Hapi. rewrite (pv_forecast_no_api _ _ _ _ _ Hapi).
  destruct include_tomorrow.
  - exact (sensor_path ha today true _ _ (pv_production_tomorrow_roof1 config)
             (pv_production_tomorrow_roof2 config) _ eq_refl).
  - exact (sensor_path ha today false _ _ None None _ eq_refl).
Qed.

Lemma pv_forecast_sources_witness :
  get_or (lookup 13 (get_hourly_pv_forecast None pv_sensors pv_config today false)) 0 == 3 # 2 /\
  get_hourly_pv_forecast (Some Raises) pv_sensors pv_config today true = [].
Proof.
  destruct (pv_forecast_sources None pv_sensors pv_config today false) as [_ H].
  destruct (H ltac:(intros f Hf; discriminate Hf)) as (_ & _ & Hv).
  destruct (pv_forecast_sources (Some Raises) pv_sensors pv_config today true) as [_ H'].
  destruct (H' ltac:(intros f Hf; discriminate Hf)) as (_ & Hr & _).
  split.
  - rewrite (Hv ltac:(simpl; intros [Hn _]; discriminate Hn) ltac:(vm_compute; reflexivity) 13%nat).
    vm_compute. reflexivity.
  - apply Hr; [simpl; intros [Hn _]; discriminate Hn|vm_compute; reflexivity].
Defined.

Lemma same_partition_iff a b :
  same_partition a b = true <-> r_date a = r_date b /\ r_hour a = r_hour b.
Proof.
  unfold same_partition. rewrite andb_true_iff, Z.eqb_eq, Nat.eqb_eq. reflexivity.
Qed.

Lemma same_partition_sym a b : same_partition a b = same_partition b a.
Proof. unfold same_partition. rewrite Z.eqb_sym, Nat.eqb_sym. reflexivity. Qed.

Lemma same_partition_trans a b c :
  same_partition a b = true -> same_partition b c = true -> same_partition a c = true.
Proof. rewrite !same_partition_iff. intros [H1 H2] [H3 H4]. split; congruence. Qed.

Lemma same_partition_refl a : same_partition a a = true.
Proof. apply same_partition_iff. auto. Qed.

Lemma row_better_irrefl a : row_better a a = false.
Proof.
  unfold row_better. destruct (r_manual a); simpl; rewrite Z.ltb_irrefl; reflexivity.
Qed.

Lemma row_better_trans a b c :
  row_better a b = true -> row_better b c = true -> row_better a c = true.
Proof.
  unfold row_better.
  destruct (r_manual a), (r_manual b), (r_manual c); simpl; try discriminate; auto.
  all: rewrite !Z.ltb_lt; lia.
Qed.

Definition better_eq (a b : Row) : Prop := a = b \/ row_better a b = true.

Lemma best_fold all : forall b,
  let b' := fold_left (fun b x => if same_partition x b && row_better x b then x else b) all b in
  (b' = b \/ In b' all) /\ same_partition b' b = true /\ better_eq b' b /\
  (forall y, In y all -> same_partition y b = true -> row_better y b' = false).
Proof.
  induction all as [|x t IH]; intros b; simpl.
  - split; [left; reflexivity|]. split; [apply same_partition_refl|].
    split; [left; reflexivity|]. intros y [].
  - set (b1 := if same_partition x b && row_better x b then x else b).
    destruct (IH b1) as (Hin & Hsp & Hbe & Hmax). fold b1.
    set (b' := fold_left _ t b1) in *.
    assert (Hb1 : (b1 = b /\ (same_partition x b && row_better x b) = false) \/
                  (b1 = x /\ same_partition x b = true /\ row_better x b = true)).
    { unfold b1. destruct (same_partition x b && row_better x b) eqn:E.
      - apply andb_true_iff in E. right. tauto.
      - left. auto. }
    assert (Hsp1 : same_partition b1 b = true).
    { destruct Hb1 as [[-> _]|(-> & H & _)]; [apply same_partition_refl|exact H]. }
    assert (Hbe1 : better_eq b1 b).
    { destruct Hb1 as [[-> _]|(-> & _ & H)]; [left; reflexivity|right; exact H]. }
    split.
    { destruct Hin as [->|Hin]; [|right; right; exact Hin].
      destruct Hb1 as [[-> _]|(-> & _ & _)]; [left; reflexivity|right; left; reflexivity]. }
    split; [eapply same_partition_trans; eassumption|].
    split.
    { destruct Hbe as [->|Hbe]; [exact Hbe1|]. right.
      destruct Hbe1 as [->|Hbe1]; [exact Hbe|]. eapply row_better_trans; eassumption. }
    intros y [Hxy|Hy] Hyb.
    + subst y. destruct (row_better x b') eqn:Ey; [exfalso|reflexivity].
      destruct Hb1 as [[Hb1e Hn]|(Hb1e & _ & Hyb')].
      * rewrite Hyb in Hn. simpl in Hn. rewrite Hb1e in Hbe.
        destruct Hbe as [Hbe|Hbe]; [rewrite Hbe in Ey; congruence|].
        pose proof (row_better_trans _ _ _ Ey Hbe). congruence.
      * rewrite Hb1e in Hbe. destruct Hbe as [Hbe|Hbe].
        -- rewrite Hbe, row_better_irrefl in Ey. discriminate.
        -- pose proof (row_better_trans _ _ _ Ey Hbe). rewrite row_better_irrefl in H. discriminate.
    + apply Hmax; [exact Hy|]. eapply same_partition_trans; [exact Hyb|].
      rewrite same_partition_sym. exact Hsp1.
Qed.

Lemma best_of_spec all r :
  (best_of all r = r \/ In (best_of all r) all) /\ same_partition (best_of all r) r = true /\
  (forall y, In y all -> same_partition y (best_of all r) = true ->
             row_better y (best_of all r) = false).
Proof.
  unfold best_of. destruct (best_fold all r) as (Hin & Hsp & _ & Hmax).
  split; [exact Hin|]. split; [exact Hsp|].
  intros y Hy Hyb. apply Hmax; [exact Hy|]. eapply same_partition_trans; eassumption.
Qed.

Lemma dedup_aux_from all seen rows :
  forall x, In x (dedup_aux all seen rows) -> exists r, In r rows /\ x = best_of all r.
Proof.
  revert seen. induction rows as [|r t IH]; intros seen x Hx; simpl in Hx; [contradiction|].
  destruct (existsb (same_partition r) seen).
  - destruct (IH _ _ Hx) as (r' & Hr' & ->). exists r'. split; [right; exact Hr'|reflexivity].
  - destruct Hx as [<-|Hx]; [exists r; split; [left|]; reflexivity|].
    destruct (IH _ _ Hx) as (r' & Hr' & ->). exists r'. split; [right; exact Hr'|reflexivity].
Qed.

Lemma dedup_aux_covers all seen rows :
  forall r, In r rows ->
    (exists s, In s seen /\ same_partition r s = true) \/
    (exists x, In x (dedup_aux all seen rows) /\ same_partition r x = true).
Proof.
  revert seen. induction rows as [|r0 t IH]; intros seen r Hr; [destruct Hr|]. simpl.
  destruct (existsb (same_partition r0) seen) eqn:E.
  - destruct Hr as [<-|Hr]; [|apply IH, Hr].
    left. apply existsb_exists in E. exact E.
  - destruct Hr as [<-|Hr].
    + right. exists (best_of all r0). split; [left; reflexivity|].
      rewrite same_partition_sym. apply best_of_spec.
    + destruct (IH (r0 :: seen) r Hr) as [(s & [<-|Hs] & Hsp)|(x & Hx & Hsp)].
      * right. exists (best_of all r0). split; [left; reflexivity|].
        eapply same_partition_trans; [exact Hsp|].
        rewrite same_partition_sym. apply best_of_spec.
      * left. exists s. auto.
      * right. exists x. split; [right; exact Hx|exact Hsp].
Qed.

Lemma dedup_aux_keys all seen rows :
  NoDup (map (fun x => (r_date x, r_hour x)) (dedup_aux all seen rows)) /\
  forall x s, In x (dedup_aux all seen rows) -> In s seen -> same_partition x s = false.
Proof.
  revert seen. induction rows as [|r t IH]; intros seen; simpl.
  - split; [constructor|]. intros x s [].
  - destruct (existsb (same_partition r) seen) eqn:E; [apply IH|].
    destruct (IH (r :: seen)) as [Hnd Hout].
    assert (Hbr : same_partition (best_of all r) r = true) by apply best_of_spec.
    split.
    + simpl. constructor; [|exact Hnd].
      intros Hin. apply in_map_iff in Hin as (x & Hk & Hx).
      specialize (Hout x r Hx (or_introl eq_refl)).
      assert (same_partition x r = true); [|congruence].
      apply same_partition_iff in Hbr as [H1 H2]. apply same_partition_iff.
      injection Hk as H3 H4. split; congruence.
    + intros x s [<-|Hx] Hs; [|apply Hout; [exact Hx|right; exact Hs]].
      destruct (same_partition (best_of all r) s) eqn:Ebs; [|reflexivity].
      exfalso. assert (Hrs : existsb (same_partition r) seen = true).
      { apply existsb_exists. exists s. split; [exact Hs|].
        eapply same_partition_trans; [|exact Ebs]. rewrite same_partition_sym. exact Hbr. }
      congruence.
Qed.

(** X10: the [ROW_NUMBER() ... WHERE rn = 1] selection keeps one row of
    the input per (date, hour) partition, for every partition present,
    and no row of the same partition comes before it in the window
    order ([is_manual] ascending, then [created_at] descending). *)
Theorem dedup_best_per_partition rows :
  (forall x, In x (dedup rows) -> In x rows /\
     forall y, In y rows -> same_partition y x = true -> row_better y x = false) /\
  (forall r, In r rows -> exists x, In x (dedup rows) /\ same_partition r x = true) /\
  NoDup (map (fun x => (r_date x, r_hour x)) (dedup rows)).
Proof.
  unfold dedup. split; [|split].
  - intros x Hx. destruct (dedup_aux_from rows [] rows x Hx) as (r & Hr & ->).
    destruct (best_of_spec rows r) as (Hin & _ & Hmax). split; [|exact Hmax].
    destruct Hin as [->|Hin]; assumption.
  - intros r Hr. destruct (dedup_aux_covers rows [] rows r Hr) as [(s & [] & _)|H]; exact H.
  - apply dedup_aux_keys.
Qed.

Lemma dedup_best_per_partition_witness :
  exists x, In x (dedup dup_rows) /\ same_partition (mkRow today 3 (Some 0%Z) 4 true 5) x = true /\
    r_manual x = false.
Proof.
  destruct (dedup_best_per_partition dup_rows) as (Hb & Hc & _).
  destruct (Hc (mkRow today 3 (Some 0%Z) 4 true 5) ltac:(simpl; auto)) as (x & Hx & Hsp).
  exists x. split; [exact Hx|]. split; [exact Hsp|].
  destruct (Hb x Hx) as [Hxr Hmax].
  specialize (Hmax (mkRow today 3 None 2 false 0) ltac:(simpl; auto)).
  unfold dup_rows in Hxr. simpl in Hxr.
  destruct Hxr as [<-|[<-|[]]]; [reflexivity|].
  specialize (Hmax eq_refl). vm_compute in Hmax. discriminate Hmax.
Defined.

Lemma count_split {A} (f : A -> bool) l :
  (length (filter f l) + length (filter (fun x => negb (f x)) l))%nat = length l.
Proof. induction l as [|x t IH]; simpl; [reflexivity|]. destruct (f x); simpl; lia. Qed.

Lemma count_filter_le {A} (f : A -> bool) l : (length (filter f l) <= length l)%nat.
Proof. induction l as [|x t IH]; simpl; [lia|]. destruct (f x); simpl; lia. Qed.

(** X11: [record_consumption] leaves the table untouched (no cleanup
    either) for a negative value or a value above 100 kWh; otherwise it
    stores the learned row of that hour unless the cleanup finds it
    older than the cutoff, removes every other row of the same
    [timestamp], keeps the other rows the cleanup does not remove, and
    leaves no row the cleanup would remove; values up to 100 kWh are
    stored as given. *)
Theorem record_consumption_effect older st date hour zone consumption_kwh now :
  ((consumption_kwh < 0 \/ 100 < consumption_kwh) ->
     record_consumption older st date hour zone consumption_kwh now = st) /\
  (0 <= consumption_kwh <= 100 ->
     (In (mkRow date hour zone consumption_kwh false now)
         (record_consumption older st date hour zone consumption_kwh now)
      <-> older (mkRow date hour zone consumption_kwh false now) = false) /\
     (forall x, In x (record_consumption older st date hour zone consumption_kwh now) ->
        same_key x (mkRow date hour zone consumption_kwh false now) = true ->
        x = mkRow date hour zone consumption_kwh false now) /\
     (forall x, In x st -> same_key x (mkRow date hour zone consumption_kwh false now) = false ->
        older x = false -> In x (record_consumption older st date hour zone consumption_kwh now)) /\
     (forall x, In x (record_consumption older st date hour zone consumption_kwh now) ->
        older x = false)).
Proof.
  unfold record_consumption. split.
  - intros [H|H].
    + apply qltb_true in H. rewrite H. reflexivity.
    + destruct (qltb consumption_kwh 0); [reflexivity|]. apply qltb_true in H. rewrite H. reflexivity.
  - intros [H0 H1].
    assert (E0 : qltb consumption_kwh 0 = false) by (apply qltb_false; exact H0).
    assert (E1 : qltb 100 consumption_kwh = false) by (apply qltb_false; exact H1).
    rewrite E0, E1. set (row := mkRow date hour zone consumption_kwh false now).
    unfold cleanup_old_data, insert_or_replace.
    split; [|split; [|split]].
    + rewrite filter_In, negb_true_iff. split; [intros [_ H]; exact H|].
      intros H. split; [|exact H]. apply in_or_app. right. left. reflexivity.
    + intros x Hx Hk. apply filter_In in Hx as [Hx _]. apply in_app_or in Hx as [Hx|[Hx|[]]].
      * apply filter_In in Hx as [_ Hn]. rewrite Hk in Hn. discriminate.
      * symmetry. exact Hx.
    + intros x Hx Hk Ho. apply filter_In. rewrite Ho. split; [|reflexivity].
      apply in_or_app. left. apply filter_In. rewrite Hk. auto.
    + intros x Hx. apply filter_In in Hx as [_ Hn]. apply negb_true_iff, Hn.
Qed.

Lemma record_consumption_effect_witness :
  let row := mkRow today 3 None 80 false 7 in
  In row (record_consumption (fun _ => false) (store profile_learner) today 3 None 80 7) /\
  ~ In profile_row3 (record_consumption (fun _ => false) (store profile_learner) today 3 None 80 7) /\
  record_consumption (fun _ => false) (store profile_learner) today 3 None 120 7
  = store profile_learner.
Proof.
  intros row.
  destruct (record_consumption_effect (fun _ => false) (store profile_learner) today 3 None 80 7)
    as [_ H]. destruct (H ltac:(split; discriminate)) as (Hin & Hk & _).
  destruct (record_consumption_effect (fun _ => false) (store profile_learner) today 3 None 120 7)
    as [Hr _].
  split; [apply Hin; reflexivity|]. split.
  - intros Hp. specialize (Hk profile_row3 Hp eq_refl). discriminate Hk.
  - apply Hr. right. reflexivity.
Defined.


Lemma round_half_even_cases q :
  (round_half_even q = Qfloor q /\ q - inject_Z (Qfloor q) <= 1#2) \/
  (round_half_even q = (Qfloor q + 1)%Z /\ 1#2 <= q - inject_Z (Qfloor q)).
Proof.
  unfold round_half_even.
  destruct (qltb (q - inject_Z (Qfloor q)) (1#2)) eqn:E1.
  - left. apply qltb_true in E1. split; [reflexivity|]. apply Qlt_le_weak, E1.
  - apply qltb_false in E1.
    destruct (qltb (1#2) (q - inject_Z (Qfloor q))) eqn:E2.
    + right. split; [reflexivity|exact E1].
    + apply qltb_false in E2. destruct (Z.even (Qfloor q)).
      * left. split; [reflexivity|exact E2].
      * right. split; [reflexivity|exact E1].
Qed.

Lemma py_round1_spec x :
  0 <= x <= 100 ->
  0 <= py_round1 x <= 100 /\ py_round1 x - x <= 1#20 /\ x - py_round1 x <= 1#20.
Proof.
  intros [H0 H1]. unfold py_round1.
  set (q := x * 10).
  assert (Hq0 : 0 <= q) by (unfold q; apply Qmult_le_0_compat; [exact H0|discriminate]).
  assert (Hq1 : q <= 1000).
  { unfold q. apply Qle_trans with (100 * 10); [apply Qmult_le_compat_r; [exact H1|discriminate]|].
    unfold Qle; simpl; lia. }
  assert (Hfl := Qfloor_le q). assert (Hlt := Qlt_floor q).
  assert (Hf0 : (0 <= Qfloor q)%Z).
  { assert (Hm := Qfloor_resp_le 0 q Hq0). exact Hm. }
  assert (Hz : 0 <= inject_Z (round_half_even q) <= 1000 /\
               inject_Z (round_half_even q) - q <= 1#2 /\ q - inject_Z (round_half_even q) <= 1#2).
  { rewrite inject_Z_plus in Hlt.
    destruct (round_half_even_cases q) as [[-> Hd]|[-> Hd]].
    - split; [split|split].
      + change 0 with (inject_Z 0). rewrite <- Zle_Qle. exact Hf0.
      + apply Qle_trans with q; assumption.
      + apply Qle_trans with 0; [|discriminate].
        apply (Qplus_le_l _ _ q). ring_simplify. exact Hfl.
      + exact Hd.
    - rewrite inject_Z_plus. split; [split|split].
      + change 0 with (inject_Z 0). rewrite <- inject_Z_plus, <- Zle_Qle. lia.
      + assert (Hlt' : inject_Z (Qfloor q) < 1000).
        { apply Qlt_le_trans with q; [|exact Hq1].
          apply Qlt_le_trans with (inject_Z (Qfloor q) + (1#2)); [|].
          - apply (Qplus_lt_l _ _ (- inject_Z (Qfloor q))). ring_simplify. reflexivity.
          - apply (Qplus_le_l _ _ (- inject_Z (Qfloor q))). ring_simplify.
            setoid_replace (- inject_Z (Qfloor q) + q) with (q - inject_Z (Qfloor q)) by ring.
            exact Hd. }
        change 1000 with (inject_Z 1000) in Hlt'. rewrite <- Zlt_Qlt in Hlt'.
        change 1000 with (inject_Z 1000). rewrite <- inject_Z_plus, <- Zle_Qle. lia.
      + apply (Qplus_le_l _ _ (q - inject_Z (Qfloor q))).
        setoid_replace (inject_Z (Qfloor q) + inject_Z 1 - q + (q - inject_Z (Qfloor q)))
          with (inject_Z 1) by ring.
        apply Qle_trans with ((1#2) + (1#2)); [unfold Qle; simpl; lia|].
        apply Qplus_le_r. exact Hd.
      + apply Qle_trans with 0; [|discriminate].
        apply (Qplus_le_l _ _ (inject_Z (Qfloor q) + inject_Z 1)). ring_simplify.
        apply Qlt_le_weak. exact Hlt. }
  set (z := inject_Z (round_half_even q)) in *.
  destruct Hz as [[Hz0 Hz1] [Hd1 Hd2]].
  split; [split|split].
  - apply Qle_shift_div_l; [reflexivity|]. rewrite Qmult_0_l. exact Hz0.
  - apply Qle_shift_div_r; [reflexivity|]. exact Hz1.
  - setoid_replace (z / 10 - x) with ((z - q) / 10) by (unfold q; field).
    apply Qle_shift_div_r; [reflexivity|]. eapply Qle_trans; [exact Hd1|unfold Qle; simpl; lia].
  - setoid_replace (x - z / 10) with ((q - z) / 10) by (unfold q; field).
    apply Qle_shift_div_r; [reflexivity|]. eapply Qle_trans; [exact Hd2|unfold Qle; simpl; lia].
Qed.

(** X13: [get_statistics] always answers from its aggregate row: on an
    empty table the manual and learned counts are [NULL] (not 0) and
    the progress is 0; otherwise the manual and learned counts add up
    to the total and the progress is the learned share in percent,
    rounded to one decimal (so within 0.05 of it), between 0 and 100. *)
Theorem statistics_counts st :
  (st = [] -> total_records (get_statistics st) = 0%nat /\
     manual_records (get_statistics st) = None /\ learned_records (get_statistics st) = None /\
     learning_progress (get_statistics st) == 0) /\
  (st <> [] -> exists m l,
     manual_records (get_statistics st) = Some m /\ learned_records (get_statistics st) = Some l /\
     (m + l)%nat = total_records (get_statistics st) /\
     learning_progress (get_statistics st)
       = py_round1 (inject_Z (Z.of_nat l) / inject_Z (Z.of_nat (total_records (get_statistics st))) * 100) /\
     0 <= learning_progress (get_statistics st) <= 100 /\
     learning_progress (get_statistics st)
       - inject_Z (Z.of_nat l) / inject_Z (Z.of_nat (total_records (get_statistics st))) * 100 <= 1#20 /\
     inject_Z (Z.of_nat l) / inject_Z (Z.of_nat (total_records (get_statistics st))) * 100
       - learning_progress (get_statistics st) <= 1#20).
Proof.
  split; [intros ->; split; [reflexivity|split; [reflexivity|split; reflexivity]]|].
  intros Hne. destruct st as [|r t]; [contradiction|].
  set (st := r :: t).
  exists (length (filter (fun r => r_manual r) st)), (length (filter (fun r => negb (r_manual r)) st)).
  unfold get_statistics. cbn [total_records manual_records learned_records learning_progress].
  assert (Hpos : (0 <? length st)%nat = true) by (apply Nat.ltb_lt; simpl; lia).
  unfold sql_sum_count. unfold st at 2 3. rewrite Hpos.
  split; [reflexivity|]. split; [reflexivity|]. split; [apply count_split|].
  split; [reflexivity|].
  assert (Hl := count_filter_le (fun r => negb (r_manual r)) st).
  set (l := length (filter (fun r => negb (r_manual r)) st)) in *. set (n := length st) in *.
  assert (Hn : 0 < inject_Z (Z.of_nat n)).
  { unfold Qlt. simpl. unfold n, st. simpl. lia. }
  assert (Hr : 0 <= inject_Z (Z.of_nat l) / inject_Z (Z.of_nat n) * 100 <= 100).
  { split.
    - apply Qmult_le_0_compat; [|discriminate].
      apply Qle_shift_div_l; [exact Hn|]. rewrite Qmult_0_l.
      unfold Qle. simpl. lia.
    - apply Qle_trans with (1 * 100); [|unfold Qle; simpl; lia].
      apply Qmult_le_compat_r; [|discriminate].
      apply Qle_shift_div_r; [exact Hn|]. rewrite Qmult_1_l.
      unfold Qle. simpl. rewrite Pos.mul_1_r, Zpos_P_of_succ_nat. unfold n, st in Hl. simpl in Hl. lia. }
  destruct (py_round1_spec _ Hr) as (Hb & Hu & Hd).
  split; [exact Hb|]. split; [exact Hu|exact Hd].
Qed.

Lemma statistics_counts_witness :
  exists m l, manual_records (get_statistics (store dedup_learner)) = Some m /\
    learned_records (get_statistics (store dedup_learner)) = Some l /\
    (m + l)%nat = 2%nat /\ 0 <= learning_progress (get_statistics (store dedup_learner)) <= 100.
Proof.
  destruct (statistics_counts (store dedup_learner)) as [_ H].
  destruct (H ltac:(discriminate)) as (m & l & Hm & Hl & Hs & _ & Hb & _).
  exists m, l. split; [exact Hm|]. split; [exact Hl|]. split; [exact Hs|exact Hb].
Defined.

End Extra.

(** ** Properties of the 48-hour daily planner *)

Module DailyFacts.

Import Learner Planner Daily Facts.

Lemma nth_set_nth_same {A} (l : list A) i v d :
  (i < length l)%nat -> nth i (set_nth l i v) d = v.
Proof.
  revert i. induction l as [|x t IH]; intros [|i] Hi; cbn [length] in Hi; try lia; cbn [set_nth nth]; auto.
  apply IH. lia.
Qed.

Lemma nth_set_nth_other {A} (l : list A) i j v d :
  j <> i -> nth j (set_nth l i v) d = nth j l d.
Proof.
  revert i j. induction l as [|x t IH]; intros [|i] [|j] Hij; cbn [set_nth nth]; auto;
    try lia; apply IH; lia.
Qed.

Lemma qsum_set_nth l i v :
  (i < length l)%nat -> qsum (set_nth l i v) == qsum l - nth i l 0 + v.
Proof.
  revert i. induction l as [|x t IH]; intros [|i] Hi; cbn [length] in Hi; try lia; cbn [set_nth nth].
  - rewrite !qsum_cons. ring.
  - rewrite !qsum_cons, IH by lia. ring.
Qed.

Lemma qsum_snoc l x : qsum (l ++ [x]) == qsum l + x.
Proof. unfold qsum. rewrite fold_left_app. reflexivity. Qed.

Lemma qmin_pos a b : 0 < a -> 0 < b -> 0 < qmin a b.
Proof. intros Ha Hb. destruct (qmin_cases a b) as [[_ ->]|[_ ->]]; assumption. Qed.

Lemma fold_left_inv {A B} (f : A -> B -> A) (P : A -> Prop) (R : B -> Prop) l :
  (forall a b, P a -> R b -> P (f a b)) ->
  forall a, (forall b, In b l -> R b) -> P a -> P (fold_left f l a).
Proof.
  intros Hf. induction l as [|x t IH]; intros a Hl Ha; simpl; auto.
  apply IH; [intros b Hb; apply Hl; right; exact Hb|]. apply Hf; auto. apply Hl. left. reflexivity.
Qed.

Lemma skipn_app_len {A} (l1 l2 : list A) : skipn (length l1) (l1 ++ l2) = l2.
Proof. induction l1; simpl; auto. Qed.

Lemma list_min_head x t : list_min (x :: t) <= x.
Proof.
  cbn [list_min]. revert x. induction t as [|y t IH]; intros x; simpl; [apply Qle_refl|].
  apply Qle_trans with (qmin x y); [apply IH|apply qmin_le_l].
Qed.

(** *** Shape *)

Lemma past_soc_length cfg net s hs : length (past_soc cfg net s hs) = length hs.
Proof. revert s. induction hs; intros s; simpl; auto. Qed.

Lemma future_soc_length cfg net s hs : length (future_soc cfg net s hs) = length hs.
Proof. revert s. induction hs; intros s; simpl; auto. Qed.

Lemma soc_series_split cfg cur ch net :
  soc_series cfg cur ch net =
  past_soc cfg net (midnight_kwh cfg cur ch net) (range 0 ch) ++
  cur :: future_soc cfg net (start_kwh cfg cur) (range (ch + 1) 48).
Proof. reflexivity. Qed.

Lemma soc_series_length cfg cur ch net :
  (ch < 48)%nat -> length (soc_series cfg cur ch net) = 48%nat.
Proof.
  intros H. rewrite soc_series_split, length_app. cbn [length].
  rewrite past_soc_length, future_soc_length. unfold range. rewrite !length_seq. lia.
Qed.

Lemma length_range a b : length (range a b) = (b - a)%nat.
Proof. unfold range. apply length_seq. Qed.

Lemma soc_series_at_ch cfg cur ch net : at_q (soc_series cfg cur ch net) ch = cur.
Proof.
  unfold at_q. rewrite soc_series_split.
  rewrite app_nth2; rewrite past_soc_length, length_range; [|lia].
  replace (ch - (ch - 0))%nat with 0%nat by lia. reflexivity.
Qed.

Lemma soc_series_skip cfg cur ch net :
  skipn ch (soc_series cfg cur ch net) =
  cur :: future_soc cfg net (start_kwh cfg cur) (range (ch + 1) 48).
Proof.
  rewrite soc_series_split.
  assert (E : ch = length (past_soc cfg net (midnight_kwh cfg cur ch net) (range 0 ch)))
    by (rewrite past_soc_length, length_range; lia).
  rewrite E at 1. apply skipn_app_len.
Qed.

Lemma charge_fallback_length cfg slots rem hc wins :
  length (fst (charge_fallback cfg slots rem hc wins)) = length hc.
Proof.
  revert rem hc wins. induction slots as [|[h p] t IH]; intros rem hc wins; simpl; auto.
  destruct (Qle_bool rem 0); simpl; auto. rewrite IH. apply length_set_nth.
Qed.

(** The cases of step 4b: the state is unchanged, or the hour (which held
    no positive charge) gets a charge of at most [max_charge_power],
    positive when that power is. *)
Lemma economic_step_cases cfg cur ch pv cons pr hc wins hour :
  economic_step cfg cur ch pv cons pr (hc, wins) hour = (hc, wins) \/
  exists c, economic_step cfg cur ch pv cons pr (hc, wins) hour
              = (set_nth hc hour c, wins ++ [mkWindow hour c (at_q pr hour)]) /\
            ~ 0 < at_q hc hour /\ c <= max_charge_power cfg /\
            (0 < max_charge_power cfg -> 0 < c).
Proof.
  unfold economic_step. cbv beta iota zeta.
  destruct (qltb 0 (at_q hc hour)) eqn:E0; [left; reflexivity|].
  assert (Hn : ~ 0 < at_q hc hour) by (intro H; apply qltb_true in H; congruence).
  repeat match goal with
  | |- context [if ?b then _ else _] => destruct b eqn:?
  | |- context [match ?l with [] => _ | _ :: _ => _ end] => destruct l eqn:?
  end;
  try (left; reflexivity);
  right; eexists; (split; [reflexivity|]); (split; [exact Hn|]);
  (split; [apply qmin_le_r|intro Hm]);
  repeat apply qmin_pos; try exact Hm;
  repeat match goal with
  | H : qltb ?x (1 # 2) = false |- 0 < ?x =>
      apply qltb_false in H; apply Qlt_le_trans with (1 # 2); [reflexivity|exact H]
  | |- 0 < qmax 1 _ => apply Qlt_le_trans with 1; [reflexivity|apply qmax_ge_l]
  | H : qltb ?x (1 # 2) = false |- 0 < ?x * (115 # 100) =>
      apply qltb_false in H; apply Qlt_le_trans with ((1 # 2) * (115 # 100));
      [reflexivity|apply Qmult_le_compat_r; [exact H|discriminate]]
  end.
Qed.

Lemma deficit_step_length cfg ch pr st d :
  length (fst (deficit_step cfg ch pr st d)) = length (fst st).
Proof.
  destruct st as [hc wins], d as [dh needed]. unfold deficit_step.
  destruct (qltb needed (1 # 2)); [reflexivity|]. apply charge_fallback_length.
Qed.

Lemma economic_step_length cfg cur ch pv cons pr st hour :
  length (fst (economic_step cfg cur ch pv cons pr st hour)) = length (fst st).
Proof.
  destruct st as [hc wins].
  destruct (economic_step_cases cfg cur ch pv cons pr hc wins hour) as [->|(c & -> & _)];
    [reflexivity|]. apply length_set_nth.
Qed.

Lemma daily_charging_length cfg cur ch pv cons pr :
  length (fst (daily_charging cfg cur ch pv cons pr)) = 48%nat.
Proof.
  unfold daily_charging.
  apply (fold_left_inv _ (fun st => length (fst st) = 48%nat) (fun _ => True));
    [intros a b Ha _; rewrite economic_step_length; exact Ha|auto|].
  apply (fold_left_inv _ (fun st => length (fst st) = 48%nat) (fun _ => True));
    [intros a b Ha _; rewrite deficit_step_length; exact Ha|auto|reflexivity].
Qed.

Lemma daily_inv_plan lrO pv48 cfg cur prices today ch p :
  plan_daily_battery_schedule lrO pv48 cfg cur prices today ch = Some p ->
  Qeq_bool (cap cfg) 0 = false /\ (ch < 48)%nat /\
  daily_charging cfg cur ch (hourly_pv p) (hourly_consumption p) (hourly_prices p)
    = (hourly_charging p, charging_windows p) /\
  hourly_soc p = soc_series cfg cur ch
                   (net_with (hourly_pv p) (hourly_consumption p) (hourly_charging p)) /\
  min_soc_reached p = list_min (skipn ch (hourly_soc p)) /\
  (exists lr, lrO = Some lr /\
     forecasts lr pv48 prices today 0 48 = (hourly_consumption p, hourly_pv p, hourly_prices p)).
Proof.
  unfold plan_daily_battery_schedule. destruct lrO as [lr|]; [|discriminate].
  destruct (forecasts lr pv48 prices today 0 48) as [[c pvl] r] eqn:Ef.
  unfold daily_core. destruct (Qeq_bool (cap cfg) 0) eqn:E1; [discriminate|].
  destruct (48 <=? ch)%nat eqn:E2; [discriminate|].
  destruct (daily_charging cfg cur ch pvl c r) as [hc wins] eqn:Ed.
  intros H. injection H as <-. cbn [hourly_pv hourly_consumption hourly_prices hourly_charging
    charging_windows hourly_soc min_soc_reached].
  apply Nat.leb_gt in E2.
  split; [reflexivity|]. split; [exact E2|]. split; [exact Ed|]. split; [reflexivity|].
  split; [reflexivity|]. exists lr. split; [reflexivity|exact Ef].
Qed.

Lemma forecasts_length lr pv48 prices today :
  let '(c, p, r) := forecasts lr pv48 prices today 0 48 in
  length c = 48%nat /\ length p = 48%nat /\ length r = 48%nat.
Proof. unfold forecasts. rewrite !length_map, length_seq. auto. Qed.

(** X14: [plan_daily_battery_schedule] (at an hour of the day) returns
    no plan exactly when there is no consumption learner or the battery
    capacity is zero (the division by it raises); a plan has 48 hourly
    SOC values, 48 charging values and 48 PV, consumption and price
    forecasts, echoes the current SOC at the current hour, and its
    [min_soc_reached] is at most the current SOC. *)
Theorem daily_plan_shape lrO pv48 cfg cur prices today ch :
  (ch < 24)%nat ->
  (plan_daily_battery_schedule lrO pv48 cfg cur prices today ch = None <->
     lrO = None \/ cap cfg == 0) /\
  (forall p, plan_daily_battery_schedule lrO pv48 cfg cur prices today ch = Some p ->
     length (hourly_soc p) = 48%nat /\ at_q (hourly_soc p) ch = cur /\
     length (hourly_charging p) = 48%nat /\ length (hourly_pv p) = 48%nat /\
     length (hourly_consumption p) = 48%nat /\ length (hourly_prices p) = 48%nat /\
     min_soc_reached p <= cur).
Proof.
  intros Hch. split.
  - destruct lrO as [lr|]; [|split; [intros _; left; reflexivity|intros _; reflexivity]].
    unfold plan_daily_battery_schedule.
    destruct (forecasts lr pv48 prices today 0 48) as [[c pvl] r].
    unfold daily_core.
    assert (E2 : (48 <=? ch)%nat = false) by (apply Nat.leb_gt; lia). rewrite E2.
    destruct (Qeq_bool (cap cfg) 0) eqn:E1.
    + split; [intros _; right; apply Qeq_bool_iff; exact E1|reflexivity].
    + destruct (daily_charging cfg cur ch pvl c r). split; [discriminate|].
      intros [H|H]; [discriminate|]. apply Qeq_bool_iff in H. congruence.
  - intros p Hp. destruct (daily_inv_plan _ _ _ _ _ _ _ _ Hp)
      as (_ & H48 & Hd & Hs & Hm & lr & _ & Hf).
    assert (Hfl := forecasts_length lr pv48 prices today). rewrite Hf in Hfl.
    destruct Hfl as (Hc & Hpv & Hr).
    rewrite Hs. split; [apply soc_series_length; exact H48|].
    split; [apply soc_series_at_ch|].
    split; [|split; [exact Hpv|split; [exact Hc|split; [exact Hr|]]]].
    + assert (Hl := daily_charging_length cfg cur ch (hourly_pv p) (hourly_consumption p) (hourly_prices p)).
      rewrite Hd in Hl. exact Hl.
    + rewrite Hm, Hs, soc_series_skip. apply list_min_head.
Qed.

Lemma daily_plan_shape_witness :
  (5 < 24)%nat /\
  length (hourly_soc (Inputs.the_plan Inputs.daily_plan)) = 48%nat /\
  min_soc_reached (Inputs.the_plan Inputs.daily_plan) <= 50.
Proof.
  destruct (daily_plan_shape (Some (Inputs.learner_for Inputs.peak_cons)) (Inputs.pv48_of Inputs.peak_pv)
              Inputs.peak_cfg 50 (Inputs.prices_of (Inputs.peak_prices ++ Inputs.peak_prices))
              Inputs.today 5 ltac:(lia)) as [_ H].
  destruct Inputs.daily_plan as [p|] eqn:E.
  - destruct (H p E) as (Hl & _ & _ & _ & _ & _ & Hm).
    split; [lia|]. split; [exact Hl|exact Hm].
  - exfalso. vm_compute in E. discriminate E.
Defined.

(** *** Charging *)

(** The charging state of steps 4 and 4b: 48 entries; one window per
    charged hour, from the current hour on, whose charge is the hour's
    entry, positive and at most [mcp]; zero at every other hour; the
    entries add up to the windows' charges. *)
Definition charging_inv (ch : nat) (mcp : Q) (st : list Q * list Window) : Prop :=
  let '(hc, wins) := st in
  length hc = 48%nat /\ NoDup (map w_hour wins) /\
  (forall w, In w wins ->
     (ch <= w_hour w < 48)%nat /\ nth (w_hour w) hc 0 = w_charge_kwh w /\
     0 < w_charge_kwh w <= mcp) /\
  (forall h, ~ In h (map w_hour wins) -> nth h hc 0 = 0) /\
  qsum hc == qsum (map w_charge_kwh wins).

Lemma charging_inv_init ch mcp : charging_inv ch mcp (repeat 0 48, []).
Proof.
  split; [reflexivity|]. split; [constructor|]. split; [intros w []|].
  split; [intros h _; apply nth_repeat|reflexivity].
Qed.

Lemma charging_inv_add ch mcp hc wins h c p :
  charging_inv ch mcp (hc, wins) -> (ch <= h < 48)%nat -> ~ In h (map w_hour wins) ->
  0 < c <= mcp ->
  charging_inv ch mcp (set_nth hc h c, wins ++ [mkWindow h c p]).
Proof.
  intros (Hl & Hnd & Hw & Hz & Hs) Hh Hni Hc.
  split; [rewrite length_set_nth; exact Hl|].
  split.
  { rewrite map_app. cbn [map w_hour].
    apply (Permutation_NoDup (Permutation_cons_append _ _)). constructor; assumption. }
  split.
  { intros w Hw'. apply in_app_or in Hw' as [Hw'|[Hw'|[]]].
    - destruct (Hw w Hw') as (Hr & Hn & Hp). split; [exact Hr|]. split; [|exact Hp].
      rewrite nth_set_nth_other; [exact Hn|].
      intro Heq. apply Hni. rewrite <- Heq. apply in_map. exact Hw'.
    - subst w. cbn [w_hour w_charge_kwh]. split; [exact Hh|]. split; [|exact Hc].
      apply nth_set_nth_same. lia. }
  split.
  { intros h' Hn'. rewrite map_app in Hn'. cbn [map w_hour] in Hn'.
    rewrite nth_set_nth_other.
    - apply Hz. intro H. apply Hn'. apply in_or_app. left. exact H.
    - intro H. apply Hn'. apply in_or_app. right. left. symmetry. exact H. }
  rewrite qsum_set_nth by lia. rewrite (Hz h Hni). rewrite map_app. cbn [map w_charge_kwh].
  rewrite qsum_snoc, Hs. ring.
Qed.

(** An hour with no positive charge has no window. *)
Lemma charging_inv_free ch mcp hc wins h :
  charging_inv ch mcp (hc, wins) -> ~ 0 < at_q hc h -> ~ In h (map w_hour wins).
Proof.
  intros (_ & _ & Hw & _) Hn Hin. apply in_map_iff in Hin as (w & <- & Hw').
  destruct (Hw w Hw') as (_ & He & Hp & _). apply Hn. unfold at_q. rewrite He. exact Hp.
Qed.

Lemma charge_fallback_inv cfg ch slots rem hc wins :
  0 < max_charge_power cfg ->
  charging_inv ch (max_charge_power cfg) (hc, wins) ->
  NoDup (map fst slots) ->
  (forall sl, In sl slots -> (ch <= fst sl < 48)%nat /\ ~ In (fst sl) (map w_hour wins)) ->
  charging_inv ch (max_charge_power cfg) (charge_fallback cfg slots rem hc wins).
Proof.
  intros Hm. revert rem hc wins.
  induction slots as [|[h p] t IH]; intros rem hc wins Hi Hnd Hs; cbn [charge_fallback]; [exact Hi|].
  destruct (Qle_bool rem 0) eqn:E; [exact Hi|].
  assert (Hr : 0 < rem) by (apply Qnot_le_lt; intro H; apply Qle_bool_iff in H; congruence).
  cbn [map fst] in Hnd. inversion Hnd as [|? ? Hh Hnd']; subst.
  destruct (Hs (h, p) (or_introl eq_refl)) as [Hrange Hfree]. cbn [fst] in Hrange, Hfree.
  apply IH; [| exact Hnd' |].
  - apply charging_inv_add; [exact Hi|exact Hrange|exact Hfree|].
    split; [apply qmin_pos; assumption|apply qmin_le_r].
  - intros sl Hsl. destruct (Hs sl (or_intror Hsl)) as [Hr' Hf']. split; [exact Hr'|].
    rewrite map_app. cbn [map w_hour]. intro Hin. apply in_app_or in Hin as [Hin|[Hin|[]]].
    + exact (Hf' Hin).
    + apply Hh. rewrite Hin. apply in_map. exact Hsl.
Qed.

Lemma deficit_step_inv cfg ch pr st d :
  0 < max_charge_power cfg -> (fst d < 48)%nat ->
  charging_inv ch (max_charge_power cfg) st ->
  charging_inv ch (max_charge_power cfg) (deficit_step cfg ch pr st d).
Proof.
  intros Hm Hd Hi. destruct st as [hc wins], d as [dh needed]. cbn [fst] in Hd.
  unfold deficit_step. destruct (qltb needed (1 # 2)); [exact Hi|].
  set (l := filter (fun h => Qeq_bool (at_q hc h) 0) (range ch dh)).
  assert (Hp := sort_by_perm snd (map (fun h => (h, at_q pr h)) l)).
  assert (Hf : map fst (map (fun h => (h, at_q pr h)) l) = l)
    by (rewrite map_map; apply map_id).
  apply charge_fallback_inv; [exact Hm|exact Hi| |].
  - apply (Permutation_NoDup (Permutation_map fst (Permutation_sym Hp))). rewrite Hf.
    apply NoDup_filter. apply seq_NoDup.
  - intros sl Hsl. apply (Permutation_in _ Hp) in Hsl.
    apply in_map_iff in Hsl as (h & <- & Hh). cbn [fst].
    apply filter_In in Hh as [Hh Hz]. apply in_range in Hh.
    split; [lia|]. apply (charging_inv_free ch (max_charge_power cfg) hc wins); [exact Hi|].
    apply Qeq_bool_iff in Hz. rewrite Hz. apply Qlt_irrefl.
Qed.

Lemma economic_step_inv cfg cur ch pv cons pr st hour :
  0 < max_charge_power cfg -> (ch <= hour < 48)%nat ->
  charging_inv ch (max_charge_power cfg) st ->
  charging_inv ch (max_charge_power cfg) (economic_step cfg cur ch pv cons pr st hour).
Proof.
  intros Hm Hh Hi. destruct st as [hc wins].
  destruct (economic_step_cases cfg cur ch pv cons pr hc wins hour) as [->|(c & -> & Hn & Hc & Hp)];
    [exact Hi|].
  apply charging_inv_add; [exact Hi|exact Hh| |split; [apply Hp, Hm|exact Hc]].
  eapply charging_inv_free; eauto.
Qed.

Lemma deficit_hours_range cfg cur ch pv cons d :
  In d (deficit_hours cfg cur ch pv cons) -> (ch <= fst d < 48)%nat.
Proof.
  unfold deficit_hours. intros H. apply in_flat_map in H as (h & Hh & Hd).
  apply in_range in Hh.
  destruct (Qle_bool _ _) in Hd; [destruct Hd as [<-|[]]; cbn [fst]; exact Hh|destruct Hd].
Qed.

Lemma daily_charging_inv cfg cur ch pv cons pr :
  0 < max_charge_power cfg ->
  charging_inv ch (max_charge_power cfg) (daily_charging cfg cur ch pv cons pr).
Proof.
  intros Hm. unfold daily_charging.
  apply (fold_left_inv _ (charging_inv ch (max_charge_power cfg)) (fun h => (ch <= h < 48)%nat)).
  - intros a b Ha Hb. apply economic_step_inv; assumption.
  - intros b Hb. apply in_range in Hb. lia.
  - apply (fold_left_inv _ (charging_inv ch (max_charge_power cfg))
             (fun d => (fst d < 48)%nat)).
    + intros a b Ha Hb. apply deficit_step_inv; assumption.
    + intros b Hb. apply deficit_hours_range in Hb. lia.
    + apply charging_inv_init.
Qed.

(** X15: with a positive [max_charge_power], a daily plan charges
    nothing before the current hour; every hourly charge lies between 0
    and [max_charge_power]; the charging windows are at distinct hours
    from the current one on, each window's charge is positive and is
    the hour's [hourly_charging] entry, every hour without a window
    charges 0, and [total_charging_kwh] is the sum of the windows'
    charges. *)
Theorem daily_charging_windows lrO pv48 cfg cur prices today ch p :
  0 < max_charge_power cfg ->
  plan_daily_battery_schedule lrO pv48 cfg cur prices today ch = Some p ->
  (forall h, (h < ch)%nat -> at_q (hourly_charging p) h = 0) /\
  (forall h, 0 <= at_q (hourly_charging p) h <= max_charge_power cfg) /\
  NoDup (map w_hour (charging_windows p)) /\
  (forall w, In w (charging_windows p) ->
     (ch <= w_hour w < 48)%nat /\ at_q (hourly_charging p) (w_hour w) = w_charge_kwh w /\
     0 < w_charge_kwh w) /\
  (forall h, ~ In h (map w_hour (charging_windows p)) -> at_q (hourly_charging p) h = 0) /\
  total_charging_kwh p == qsum (map w_charge_kwh (charging_windows p)).
Proof.
  intros Hm Hp.
  destruct (daily_inv_plan _ _ _ _ _ _ _ _ Hp) as (_ & _ & Hd & _).
  assert (Hi := daily_charging_inv cfg cur ch (hourly_pv p) (hourly_consumption p) (hourly_prices p) Hm).
  rewrite Hd in Hi. destruct Hi as (_ & Hnd & Hw & Hz & Hs).
  assert (Htot : total_charging_kwh p = qsum (hourly_charging p)).
  { revert Hp. unfold plan_daily_battery_schedule. destruct lrO as [lr|]; [|discriminate].
    destruct (forecasts lr pv48 prices today 0 48) as [[c pvl] r].
    unfold daily_core. destruct (Qeq_bool (cap cfg) 0); [discriminate|].
    destruct (48 <=? ch)%nat; [discriminate|].
    destruct (daily_charging cfg cur ch pvl c r). intros H. injection H as <-. reflexivity. }
  unfold at_q. split; [|split; [|split; [exact Hnd|split; [|split; [exact Hz|]]]]].
  - intros h Hh. apply Hz. intro Hin. apply in_map_iff in Hin as (w & <- & Hw').
    destruct (Hw w Hw') as (Hr & _). lia.
  - intros h. destruct (in_dec Nat.eq_dec h (map w_hour (charging_windows p))) as [Hin|Hout].
    + apply in_map_iff in Hin as (w & <- & Hw'). destruct (Hw w Hw') as (_ & -> & Hpos & Hle).
      split; [apply Qlt_le_weak; exact Hpos|exact Hle].
    + rewrite (Hz h Hout). split; [apply Qle_refl|apply Qlt_le_weak; exact Hm].
  - intros w Hw'. destruct (Hw w Hw') as (Hr & He & Hpos & _). auto.
  - rewrite Htot. exact Hs.
Qed.

Lemma daily_charging_windows_witness :
  0 < max_charge_power Inputs.peak_cfg /\
  total_charging_kwh (Inputs.the_plan Inputs.daily_plan)
    == qsum (map w_charge_kwh (charging_windows (Inputs.the_plan Inputs.daily_plan))).
Proof.
  assert (Hm : 0 < max_charge_power Inputs.peak_cfg) by reflexivity.
  split; [exact Hm|].
  destruct Inputs.daily_plan as [p|] eqn:E.
  - destruct (daily_charging_windows _ _ _ _ _ _ _ p Hm E) as (_ & _ & _ & _ & _ & H). exact H.
  - exfalso. vm_compute in E. discriminate E.
Defined.

(** *** SOC bounds *)

Section DailyPercent.

Variable cfg : Config.
Hypothesis Hcap : 0 < battery_capacity cfg.
Hypothesis Hmm : (min_soc cfg <= max_soc cfg)%Z.

Lemma d_clamp_pct x :
  inject_Z (min_soc cfg) <= d_clamp cfg x / cap cfg * 100 <= inject_Z (max_soc cfg).
Proof.
  assert (Hk : min_kwh cfg <= max_kwh cfg).
  { unfold min_kwh, max_kwh, pct. apply Qmult_le_compat_r; [|apply Qlt_le_weak; exact Hcap].
    apply Qmult_le_compat_r; [rewrite <- Zle_Qle; exact Hmm|discriminate]. }
  unfold d_clamp. split.
  - rewrite <- (to_pct_pct cfg Hcap (min_soc cfg)).
    apply (to_pct_le cfg Hcap). apply qmax_ge_l.
  - rewrite <- (to_pct_pct cfg Hcap (max_soc cfg)).
    apply (to_pct_le cfg Hcap). apply qmax_lub; [exact Hk|apply qmin_le_l].
Qed.

Lemma future_soc_bounds net s hs y :
  In y (future_soc cfg net s hs) -> inject_Z (min_soc cfg) <= y <= inject_Z (max_soc cfg).
Proof.
  revert s. induction hs as [|h t IH]; intros s Hy; cbn [future_soc In] in Hy; [destruct Hy|].
  destruct Hy as [<-|Hy]; [apply d_clamp_pct|exact (IH _ Hy)].
Qed.

Lemma past_soc_bounds net s hs y :
  In y (tl (past_soc cfg net s hs)) -> inject_Z (min_soc cfg) <= y <= inject_Z (max_soc cfg).
Proof.
  revert s. induction hs as [|h t IH]; intros s Hy; cbn [past_soc tl] in Hy; [destruct Hy|].
  destruct t as [|h' t']; cbn [past_soc In] in Hy; [destruct Hy|].
  destruct Hy as [<-|Hy]; [apply d_clamp_pct|].
  apply (IH (d_clamp cfg (s + net h))). cbn [past_soc tl]. exact Hy.
Qed.

Lemma midnight_pct cur ch net :
  (inject_Z (min_soc cfg) <= midnight_kwh cfg cur ch net / cap cfg * 100 <= inject_Z (max_soc cfg))
  \/ midnight_kwh cfg cur ch net / cap cfg * 100 == 70.
Proof.
  unfold midnight_kwh. cbv zeta.
  destruct (qltb 50 _).
  - right. unfold cap. field. intro H. rewrite H in Hcap. discriminate.
  - left. apply d_clamp_pct.
Qed.

End DailyPercent.

(** X16: in a daily plan (positive capacity, [auto_safety_soc <=
    auto_charge_below_soc]) every hour after the current one has an SOC
    between the two limits, and so has every earlier hour except
    midnight; the midnight SOC is either within the limits or the
    fixed 70 % fallback, which the code does not clamp. *)
Theorem daily_soc_bounds lrO pv48 cfg cur prices today ch p :
  0 < cap cfg -> (min_soc cfg <= max_soc cfg)%Z ->
  plan_daily_battery_schedule lrO pv48 cfg cur prices today ch = Some p ->
  (forall i, (ch < i < 48)%nat ->
     inject_Z (min_soc cfg) <= at_q (hourly_soc p) i <= inject_Z (max_soc cfg)) /\
  (forall i, (0 < i < ch)%nat ->
     inject_Z (min_soc cfg) <= at_q (hourly_soc p) i <= inject_Z (max_soc cfg)) /\
  ((0 < ch)%nat ->
     (inject_Z (min_soc cfg) <= at_q (hourly_soc p) 0 <= inject_Z (max_soc cfg)) \/
     at_q (hourly_soc p) 0 == 70).
Proof.
  intros Hcap Hmm Hp.
  destruct (daily_inv_plan _ _ _ _ _ _ _ _ Hp) as (_ & H48 & _ & Hs & _).
  rewrite Hs. clear Hs Hp.
  set (net := net_with (hourly_pv p) (hourly_consumption p) (hourly_charging p)).
  unfold at_q. rewrite soc_series_split.
  set (past := past_soc cfg net (midnight_kwh cfg cur ch net) (range 0 ch)).
  set (fut := future_soc cfg net (start_kwh cfg cur) (range (ch + 1) 48)).
  assert (Hlp : length past = ch) by (unfold past; rewrite past_soc_length, length_range; lia).
  assert (Hlf : length fut = (47 - ch)%nat)
    by (unfold fut; rewrite future_soc_length, length_range; lia).
  split; [|split].
  - intros i Hi. rewrite app_nth2 by lia. rewrite Hlp.
    replace (i - ch)%nat with (S (i - ch - 1)) by lia. cbn [nth].
    apply (future_soc_bounds cfg Hcap Hmm net (start_kwh cfg cur) (range (ch + 1) 48)).
    apply nth_In. fold fut. lia.
  - intros i Hi. rewrite app_nth1 by lia.
    apply (past_soc_bounds cfg Hcap Hmm net (midnight_kwh cfg cur ch net) (range 0 ch)).
    fold past. destruct past as [|y t] eqn:Ep; cbn [length] in Hlp; [lia|].
    cbn [tl]. replace i with (S (i - 1)) by lia. cbn [nth]. apply nth_In. lia.
  - intros Hc. rewrite app_nth1 by lia.
    unfold past. destruct ch as [|k]; [lia|].
    unfold range. cbn [seq past_soc nth]. apply midnight_pct; assumption.
Qed.

Lemma daily_soc_bounds_witness :
  0 < cap Inputs.peak_cfg /\ (min_soc Inputs.peak_cfg <= max_soc Inputs.peak_cfg)%Z /\
  inject_Z 20 <= at_q (hourly_soc (Inputs.the_plan Inputs.daily_plan)) 10 <= inject_Z 90.
Proof.
  assert (Hc : 0 < cap Inputs.peak_cfg) by reflexivity.
  assert (Hm : (min_soc Inputs.peak_cfg <= max_soc Inputs.peak_cfg)%Z) by (vm_compute; discriminate).
  split; [exact Hc|]. split; [exact Hm|].
  destruct Inputs.daily_plan as [p|] eqn:E.
  - destruct (daily_soc_bounds _ _ _ _ _ _ _ p Hc Hm E) as (H & _). apply (H 10%nat). lia.
  - exfalso. vm_compute in E. discriminate E.
Defined.

End DailyFacts.

(** ** Properties of the Forecast.Solar client *)

Module SolarFacts.

Import Learner Optimizer SolarApi Facts DailyFacts.

(** Each cumulative value is at least the one of the hour before. *)
Fixpoint steps_up (d : list (nat * Q)) (prev : nat) (hs : list nat) : Prop :=
  match hs with
  | [] => True
  | h :: t => cum_at d prev <= cum_at d h /\ steps_up d h t
  end.

(** The cumulative value at the latest hour of a day (0 without one). *)
Definition day_final (d : list (nat * Q)) : Q :=
  match sorted_keys d with
  | [] => 0
  | h0 :: t => cum_at d (last t h0)
  end.

(** What one reply contributes: its converted days' totals, and the
    final cumulative values of those days. *)
Definition plane_total (include_tomorrow : bool) (today : Z) (o : Outcome PlaneResponse) : Q :=
  match o with
  | Returns (WattHours es) =>
      qsum (map snd (cumulative_to_hourly (collect_day today es))) +
      (if include_tomorrow
       then qsum (map snd (cumulative_to_hourly (collect_day (today + 1) es))) else 0)
  | _ => 0
  end.

Definition plane_final (include_tomorrow : bool) (today : Z) (o : Outcome PlaneResponse) : Q :=
  match o with
  | Returns (WattHours es) =>
      day_final (collect_day today es) +
      (if include_tomorrow then day_final (collect_day (today + 1) es) else 0)
  | _ => 0
  end.

Lemma last_cons_default {A} (h : A) t d : last (h :: t) d = last t h.
Proof.
  revert h d. induction t as [|x t IH]; intros h d; [reflexivity|].
  change (last (h :: x :: t) d) with (last (x :: t) d). rewrite !IH. reflexivity.
Qed.

Lemma qsum_nil : qsum [] = 0.
Proof. reflexivity. Qed.

Lemma deltas_from_sum d prev hs :
  cum_at d (last hs prev) - cum_at d prev <= qsum (map snd (deltas_from d prev hs)) /\
  (qsum (map snd (deltas_from d prev hs)) == cum_at d (last hs prev) - cum_at d prev <->
   steps_up d prev hs).
Proof.
  revert prev. induction hs as [|h t IH]; intros prev.
  - cbn [deltas_from map last steps_up]. rewrite qsum_nil.
    split; [lra|]. split; [intros _; exact I|intros _; lra].
  - cbn [deltas_from map steps_up]. rewrite last_cons_default, qsum_cons. cbn [snd].
    destruct (IH h) as [Hlb Heq].
    set (x := cum_at d h - cum_at d prev).
    set (S := qsum (map snd (deltas_from d h t))) in *.
    assert (H0 := qmax_ge_l 0 x). assert (Hx := qmax_ge_r 0 x).
    split; [unfold x in *; lra|].
    split.
    + intros Hs. assert (Hq : qmax 0 x == x) by (unfold x in *; lra).
      split; [unfold x in *; lra|]. apply Heq. unfold x in *; lra.
    + intros [Hp Hst]. apply Heq in Hst.
      assert (Hq : qmax 0 x == x).
      { destruct (qmax_cases 0 x) as [[_ ->]|[Hle ->]]; [reflexivity|unfold x in *; lra]. }
      unfold x in *; lra.
Qed.

Lemma cth_keys d : map fst (cumulative_to_hourly d) = sorted_keys d.
Proof.
  unfold cumulative_to_hourly. destruct (sorted_keys d) as [|h0 t]; [reflexivity|].
  cbn [map fst]. f_equal. generalize h0. induction t as [|h t IH]; intros prev; [reflexivity|].
  cbn [deltas_from map fst]. f_equal. apply IH.
Qed.

Lemma cth_tail_nonneg d : Forall (fun hd => 0 <= snd hd) (tl (cumulative_to_hourly d)).
Proof.
  unfold cumulative_to_hourly. destruct (sorted_keys d) as [|h0 t]; [constructor|].
  cbn [tl]. generalize h0. induction t as [|h t IH]; intros prev; cbn [deltas_from]; constructor.
  - cbn [snd]. apply qmax_ge_l.
  - apply IH.
Qed.

Lemma cth_sum d :
  match sorted_keys d with
  | [] => cumulative_to_hourly d = []
  | h0 :: t =>
      cum_at d (last t h0) <= qsum (map snd (cumulative_to_hourly d)) /\
      (qsum (map snd (cumulative_to_hourly d)) == cum_at d (last t h0) <-> steps_up d h0 t)
  end.
Proof.
  unfold cumulative_to_hourly. destruct (sorted_keys d) as [|h0 t]; [reflexivity|].
  destruct (deltas_from_sum d h0 t) as [Hlb Heq].
  cbn [map snd]. rewrite qsum_cons.
  split; [lra|]. rewrite <- Heq. split; intros H; lra.
Qed.

(** X17: [get_hourly_forecast] turns a plane's cumulative values of a
    day into hourly values, one per hour of the day in increasing hour
    order; every value after the first is nonnegative, and their sum is
    at least the cumulative value at the latest hour, equal to it
    exactly when the cumulative value never decreases from one hour to
    the next. *)
Theorem cumulative_to_hourly_total d :
  map fst (cumulative_to_hourly d) = sorted_keys d /\
  Forall (fun hd => 0 <= snd hd) (tl (cumulative_to_hourly d)) /\
  match sorted_keys d with
  | [] => cumulative_to_hourly d = []
  | h0 :: t =>
      cum_at d (last t h0) <= qsum (map snd (cumulative_to_hourly d)) /\
      (qsum (map snd (cumulative_to_hourly d)) == cum_at d (last t h0) <-> steps_up d h0 t)
  end.
Proof. split; [apply cth_keys|split; [apply cth_tail_nonneg|apply cth_sum]]. Qed.

(** *** The combined forecast *)




















Lemma fetch_returns inc today planes acc :
  ~ In Raises planes -> exists f, fetch_planes inc today planes acc = Returns f.
Proof.
  revert acc. induction planes as [|o t IH]; intros acc Hn; [exists acc; reflexivity|].
  destruct o as [r|]; [|exfalso; apply Hn; left; reflexivity].
  cbn [fetch_planes]. apply IH. intro H. apply Hn. right. exact H.
Qed.



(** *** Totals *)

Lemma dict_set_sum h v d :
  qsum (map snd (dict_set h v d)) == qsum (map snd d) - get_or (lookup h d) 0 + v.
Proof.
  induction d as [|[k' v'] t IH]; cbn [dict_set lookup map snd].
  - cbn [get_or]. rewrite qsum_cons, qsum_nil. ring.
  - destruct (h =? k')%nat; cbn [map snd get_or].
    + rewrite !qsum_cons. ring.
    + rewrite !qsum_cons, IH. ring.
Qed.

Lemma add_kwh_sum d h x : qsum (map snd (add_kwh d h x)) == qsum (map snd d) + x.
Proof. unfold add_kwh. rewrite dict_set_sum. ring. Qed.

Lemma add_deltas_sum off acc ds :
  qsum (map snd (add_deltas off acc ds)) == qsum (map snd acc) + qsum (map snd ds).
Proof.
  unfold add_deltas. revert acc. induction ds as [|[h x] t IH]; intros acc; cbn [fold_left map snd].
  - rewrite qsum_nil. ring.
  - rewrite IH, add_kwh_sum, qsum_cons. ring.
Qed.

Lemma add_plane_sum inc today acc r :
  qsum (map snd (add_plane inc today acc r)) == qsum (map snd acc) + plane_total inc today (Returns r).
Proof.
  destruct r as [| |es]; cbn [add_plane plane_total]; [ring|ring|].
  destruct inc; rewrite ?add_deltas_sum, ?add_deltas_sum; ring.
Qed.

Lemma fetch_sum inc today planes : forall acc f,
  fetch_planes inc today planes acc = Returns f ->
  qsum (map snd f) == qsum (map snd acc) + qsum (map (plane_total inc today) planes).
Proof.
  induction planes as [|o t IH]; intros acc f Hf; cbn [fetch_planes] in Hf.
  - injection Hf as <-. cbn [map]. rewrite qsum_nil. ring.
  - destruct o as [r|]; [|discriminate].
    rewrite (IH _ _ Hf), add_plane_sum. cbn [map]. rewrite qsum_cons. ring.
Qed.

Lemma day_final_le d : day_final d <= qsum (map snd (cumulative_to_hourly d)).
Proof.
  assert (H := cth_sum d). unfold day_final.
  destruct (sorted_keys d) as [|h0 t]; [rewrite H; apply Qle_refl|exact (proj1 H)].
Qed.

Lemma plane_final_le inc today o : plane_final inc today o <= plane_total inc today o.
Proof.
  destruct o as [[| |es]|]; cbn [plane_final plane_total]; try apply Qle_refl.
  assert (H1 := day_final_le (collect_day today es)).
  assert (H2 := day_final_le (collect_day (today + 1) es)).
  destruct inc; lra.
Qed.

Lemma qsum_map_le {A} (f g : A -> Q) l :
  (forall x, In x l -> f x <= g x) -> qsum (map f l) <= qsum (map g l).
Proof.
  induction l as [|x t IH]; intros H; cbn [map]; [apply Qle_refl|].
  rewrite !qsum_cons. assert (Hx := H x (or_introl eq_refl)).
  assert (Ht := IH (fun y Hy => H y (or_intror Hy))). lra.
Qed.

(** X19: when no plane's request raises, the values of
    [get_hourly_forecast] add up to the planes' converted totals (a
    plane with a failed or malformed reply counts 0), and so to at least
    the sum of each plane's cumulative value at the latest hour of each
    day it reports. *)
Theorem hourly_forecast_total inc today planes :
  ~ In Raises planes ->
  qsum (map snd (get_hourly_forecast None inc today planes))
    == qsum (map (plane_total inc today) planes) /\
  qsum (map (plane_final inc today) planes)
    <= qsum (map snd (get_hourly_forecast None inc today planes)).
Proof.
  intros Hn. unfold get_hourly_forecast.
  destruct (fetch_returns inc today planes [] Hn) as [f Ef]. rewrite Ef.
  assert (Hs := fetch_sum inc today planes [] f Ef). cbn [map] in Hs. rewrite qsum_nil in Hs.
  assert (Hle := qsum_map_le (plane_final inc today) (plane_total inc today) planes
                   (fun o _ => plane_final_le inc today o)).
  split; lra.
Qed.

Lemma hourly_forecast_total_witness :
  ~ In Raises Inputs.solar_planes /\
  qsum (map snd (get_hourly_forecast None true Inputs.today Inputs.solar_planes))
    == qsum (map (plane_total true Inputs.today) Inputs.solar_planes) /\
  qsum (map (plane_final true Inputs.today) Inputs.solar_planes)
    <= qsum (map snd (get_hourly_forecast None true Inputs.today Inputs.solar_planes)).
Proof.
  assert (Hn : ~ In Raises Inputs.solar_planes).
  { intros [H|[H|[]]]; discriminate. }
  split; [exact Hn|]. apply hourly_forecast_total. exact Hn.
Defined.

End SolarFacts.
